(** * getme: asset resolution and the Pinata build fallback

    A shallow embedding of [github/github.go] and [main.go].

    Go strings are byte strings: they are modelled by [string] (a list of
    [ascii], one per byte).  Go's [error] is modelled by [option string]
    ([None] is [nil], [Some msg] an error whose message is [msg]).  A run-time
    panic (an index out of range) is an outcome of its own. *)

From Stdlib Require Import String Ascii List ZArith NArith Lia Bool Arith.
Import ListNotations.
Open Scope string_scope.

(** ** Go strings *)

Module GoString.

(** [s[n:]] for [n <= len(s)]. *)
Fixpoint skip (n : nat) (s : string) : string :=
  match n, s with
  | O, _ => s
  | S n', String _ t => skip n' t
  | S _, EmptyString => EmptyString
  end.

(** [s[:n]] for [n <= len(s)]. *)
Fixpoint take (n : nat) (s : string) : string :=
  match n, s with
  | O, _ => EmptyString
  | S n', String c t => String c (take n' t)
  | S _, EmptyString => EmptyString
  end.

(** [strings.TrimPrefix] with a report of whether the prefix was there. *)
Fixpoint strip_prefix (p s : string) : option string :=
  match p with
  | EmptyString => Some s
  | String a p' =>
      match s with
      | EmptyString => None
      | String b s' => if Ascii.eqb a b then strip_prefix p' s' else None
      end
  end.

Definition byte (c : ascii) : N := N_of_ascii c.

Definition between (lo hi : N) (c : ascii) : bool :=
  (N.leb lo (byte c) && N.leb (byte c) hi)%bool.

(** A UTF-8 continuation byte, 0x80..0xBF. *)
Definition is_cont (c : ascii) : bool := between 128 191 c.

(** The width returned by [utf8.DecodeRuneInString]: 0 on the empty string,
    the length of the encoding of the first rune when it is well formed,
    and 1 (the width of [RuneError]) otherwise. *)
Definition rune_size (s : string) : nat :=
  match s with
  | EmptyString => 0
  | String c0 t =>
      let b0 := byte c0 in
      if N.ltb b0 128 then 1
      else if N.ltb b0 194 then 1
      else if N.ltb b0 224 then
        match t with
        | String c1 _ => if is_cont c1 then 2 else 1
        | _ => 1
        end
      else if N.ltb b0 240 then
        match t with
        | String c1 (String c2 _) =>
            let lo := if N.eqb b0 224 then 160%N else 128%N in
            let hi := if N.eqb b0 237 then 159%N else 191%N in
            if (between lo hi c1 && is_cont c2)%bool then 3 else 1
        | _ => 1
        end
      else if N.ltb b0 245 then
        match t with
        | String c1 (String c2 (String c3 _)) =>
            let lo := if N.eqb b0 240 then 144%N else 128%N in
            let hi := if N.eqb b0 244 then 143%N else 191%N in
            if (between lo hi c1 && is_cont c2 && is_cont c3)%bool
            then 4 else 1
        | _ => 1
        end
      else 1
  end.

(** [conts n s]: the first [n] bytes of [s] exist and are continuation
    bytes. *)
Fixpoint conts (n : nat) (s : string) : bool :=
  match n with
  | O => true
  | S n' =>
      match s with
      | EmptyString => false
      | String c t => (is_cont c && conts n' t)%bool
      end
  end.

(** No byte of [s] is [c]. *)
Fixpoint free_of (c : ascii) (s : string) : bool :=
  match s with
  | EmptyString => true
  | String a t => (negb (Ascii.eqb a c) && free_of c t)%bool
  end.

(** The number of bytes of [s] equal to [c]. *)
Fixpoint count_byte (c : ascii) (s : string) : nat :=
  match s with
  | EmptyString => 0
  | String a t => (if Ascii.eqb a c then 1 else 0) + count_byte c t
  end.

(** [s] reversed, in front of [acc]. *)
Fixpoint rev_string (acc s : string) : string :=
  match s with
  | EmptyString => acc
  | String c t => rev_string (String c acc) t
  end.

(** The pieces of [s] between the successive non-overlapping occurrences of
    [sep], scanning from the left.  [cur] is the piece being read, in
    reverse; [pending] counts the bytes of an occurrence of [sep] still to
    be passed. *)
Fixpoint split_go (sep : string) (pending : nat) (cur : string)
         (s : string) : list string :=
  match s with
  | EmptyString => [rev_string EmptyString cur]
  | String c t =>
      match pending with
      | S p => split_go sep p cur t
      | O =>
          if prefix sep s
          then rev_string EmptyString cur
                 :: split_go sep (String.length sep - 1) EmptyString t
          else split_go sep O (String c cur) t
      end
  end.

(** [strings.Split(s, sep)] for a non-empty [sep], which is all the source
    asks for (with an empty one Go splits between runes instead). *)
Definition Split (s sep : string) : list string :=
  split_go sep 0 EmptyString s.

(** The next byte, if any, does not continue a rune. *)
Definition next_ok (s : string) : Prop :=
  match s with
  | EmptyString => True
  | String c _ => is_cont c = false
  end.

End GoString.

(** ** The fragment of Go's [regexp] that [ReleaseURL] uses *)

Module Regexp.
Import GoString.

Inductive regexp : Type :=
| Lit (l : string)            (* a literal run of ASCII bytes *)
| AnyNotNL                    (* [.]: any rune but newline *)
| NotByte (c : ascii)         (* [[^c]] for an ASCII [c] *)
| Seq (a b : regexp)
| Star (a : regexp)           (* greedy [a*] *)
| Group (i : nat) (a : regexp).

(** The patterns of [l] one after the other. *)
Definition sequence (l : list regexp) : regexp :=
  fold_right Seq (Lit EmptyString) l.

Fixpoint NumSubexp (re : regexp) : nat :=
  match re with
  | Seq a b => Nat.max (NumSubexp a) (NumSubexp b)
  | Star a => NumSubexp a
  | Group i a => Nat.max i (NumSubexp a)
  | _ => 0
  end.

Definition captures := list string.
Definition cont := string -> captures -> option captures.

Fixpoint set_nth (i : nat) (x : string) (l : captures) : captures :=
  match l, i with
  | [], _ => []
  | _ :: t, O => x :: t
  | h :: t, S i' => h :: set_nth i' x t
  end.

(** Greedy iteration of one step: try one more round (which has to
    consume input), and fall back to the continuation.  A round consumes at
    least one byte, so [fuel] above the length of [s] is never used up. *)
Fixpoint star (step : string -> captures -> cont -> option captures)
         (fuel : nat) (s : string) (caps : captures) (k : cont)
  : option captures :=
  match fuel with
  | O => k s caps
  | S fuel' =>
      match step s caps
              (fun s' caps' =>
                 if Nat.ltb (String.length s') (String.length s)
                 then star step fuel' s' caps' k
                 else None) with
      | Some r => Some r
      | None => k s caps
      end
  end.

(** Leftmost-first (backtracking) matching of [re] at the head of [s]. *)
Fixpoint exec (re : regexp) (s : string) (caps : captures) (k : cont)
         {struct re} : option captures :=
  match re with
  | Lit l =>
      match strip_prefix l s with
      | Some s' => k s' caps
      | None => None
      end
  | AnyNotNL =>
      match s with
      | EmptyString => None
      | String c _ =>
          if Ascii.eqb c "010"%char then None
          else k (skip (rune_size s) s) caps
      end
  | NotByte b =>
      match s with
      | EmptyString => None
      | String c _ =>
          if Ascii.eqb c b then None
          else k (skip (rune_size s) s) caps
      end
  | Seq a b => exec a s caps (fun s' caps' => exec b s' caps' k)
  | Star a => star (exec a) (S (String.length s)) s caps k
  | Group i a =>
      exec a s caps
        (fun s' caps' =>
           k s' (set_nth i (take (String.length s - String.length s') s)
                   caps'))
  end.

(** The end of the pattern: the match is found. *)
Definition accept : cont := fun _ caps => Some caps.

(** The unanchored search: the first rune boundary, from the left, at which
    [re] matches.  [pending] counts the bytes of the current rune still to
    be passed. *)
Fixpoint search (re : regexp) (init : captures) (pending : nat)
         (s : string) : option captures :=
  match s with
  | EmptyString =>
      match pending with
      | O => exec re s init accept
      | S _ => None
      end
  | String _ t =>
      match pending with
      | O =>
          match exec re s init accept with
          | Some r => Some r
          | None => search re init (rune_size s - 1) t
          end
      | S p => search re init p t
      end
  end.

(** [re.FindStringSubmatch(s)]: the leftmost match and its groups, or the
    nil slice. *)
Definition FindStringSubmatch (re : regexp) (s : string) : list string :=
  match search (Group 0 re) (repeat EmptyString (S (NumSubexp re))) 0 s with
  | Some caps => caps
  | None => []
  end.

(** [re.MatchString(s)]: is there a match. *)
Definition MatchString (re : regexp) (s : string) : bool :=
  match search (Group 0 re) (repeat EmptyString (S (NumSubexp re))) 0 s with
  | Some _ => true
  | None => false
  end.

End Regexp.

Import GoString Regexp.

(** The pattern of github.go, line 13, piece by piece: the literal
    [https://github], a dot, the literal [com/], a group of bytes other than
    [/] and a [/], twice, the literal [releases/download/], a third such
    group and a [/], and a last group of anything up to a newline.  The
    pattern is not anchored, and the dot of [github.com] is not escaped. *)
Definition ReleaseURL : regexp :=
  sequence [ Lit "https://github"; AnyNotNL; Lit "com/";
           Group 1 (Star (NotByte "/")); Lit "/";
           Group 2 (Star (NotByte "/")); Lit "/releases/download/";
           Group 3 (Star (NotByte "/")); Lit "/";
           Group 4 (Star AnyNotNL) ].

(** ** Effects

    A computation reads and updates a state, emits the events it performs on
    the outside world, and either returns, panics, or is cut off while
    waiting in a polling loop that has no bound in the source. *)

Inductive result (A : Type) : Type :=
| Ok (a : A)
| Panic (msg : string)
| OutOfFuel.
Arguments Ok {A} a.
Arguments Panic {A} msg.
Arguments OutOfFuel {A}.

Section Effects.
Context {St Ev : Type}.

Definition M (A : Type) : Type := St -> result A * St * list Ev.

Definition ret {A} (a : A) : M A := fun s => (Ok a, s, []).

Definition bind {A B} (m : M A) (f : A -> M B) : M B :=
  fun s =>
    match m s with
    | (Ok a, s1, t1) =>
        match f a s1 with
        | (r, s2, t2) => (r, s2, (t1 ++ t2)%list)
        end
    | (Panic msg, s1, t1) => (Panic msg, s1, t1)
    | (OutOfFuel, s1, t1) => (OutOfFuel, s1, t1)
    end.

Definition panic {A} (msg : string) : M A := fun s => (Panic msg, s, []).

Definition out_of_fuel {A} : M A := fun s => (OutOfFuel, s, []).

Definition emit (e : Ev) : M unit := fun s => (Ok tt, s, [e]).

Definition gets {A} (f : St -> A) : M A := fun s => (Ok (f s), s, []).

(** A call to the outside: the answer comes from the state, the call and
    its answer are recorded. *)
Definition call {R} (f : St -> R * St) (e : R -> Ev) : M R :=
  fun s => match f s with (r, s') => (Ok r, s', [e r]) end.

(** The events [t1] happened before the run [x]. *)
Definition prepend {A} (t1 : list Ev) (x : result A * St * list Ev)
  : result A * St * list Ev :=
  match x with (r, s, t) => (r, s, (t1 ++ t)%list) end.

(** [xs[i]], with Go's bounds check. *)
Definition index_at {A} (xs : list A) (i : nat) : M A :=
  match nth_error xs i with
  | Some x => ret x
  | None => panic "runtime error: index out of range"
  end.

End Effects.

Notation "x <- m ;; f" := (bind m (fun x => f))
  (at level 61, m at next level, right associativity).
Notation "m ;;; f" := (bind m (fun _ => f))
  (at level 61, right associativity).

(** ** github/github.go *)

Module github.

Record asset : Type := {
  Id : Z;
  BrowserDownloadURL : string;
  URL : string
}.

Record release : Type := { Assets : list asset }.

(** [*http.Request], as far as this package touches it.  [Header] lists the
    calls of [Header.Add] on the request, oldest first, each with the key
    and the value as they were given; [net/http] files a value under the
    canonical form of its key, which is not computed here. *)
Record Request : Type := {
  Method : string;
  RequestURL : string;
  Header : list (string * string)
}.

Record Response : Type := {
  StatusCode : Z;
  Status : string;
  Body : string
}.

Definition StatusBadRequest : Z := 400.

(** The standard library and the network.  [ParseURL] is the check that
    [http.NewRequest] makes on its URL ([None]: accepted); [Do] is
    [http.DefaultClient.Do]; [ReadAll] reads a response's body;
    [Unmarshal] is [json.Unmarshal] into a [release]. *)
Record Net : Type := {
  World : Type;
  ParseURL : string -> option string;
  Do : Request -> World -> (Response + string) * World;
  ReadAll : Response -> World -> (string + string) * World;
  Close : Response -> World -> World;
  Unmarshal : string -> release + string
}.

Inductive NetEvent : Type :=
| EvDo (req : Request) (r : Response + string)
| EvReadAll (resp : Response) (r : string + string)
| EvClose (resp : Response).

Section AssetUrl.
Variable net : Net.

Definition NewRequest (method url : string) : Request + string :=
  match ParseURL net url with
  | Some err => inr err
  | None => inl {| Method := method; RequestURL := url; Header := [] |}
  end.

Definition HeaderAdd (key value : string) (req : Request) : Request :=
  {| Method := Method req;
     RequestURL := RequestURL req;
     Header := (Header req ++ [(key, value)])%list |}.

(** [addHeaders] updates the request in place: the request as it is left
    is returned next to the error. *)
Fixpoint addHeaders (headers : list string) (req : Request)
  : Request * option string :=
  match headers with
  | [] => (req, None)
  | header :: rest =>
      let parts := Split header "=" in
      if negb (Nat.eqb (List.length parts) 2)
      then (req, Some ("Invalid header [" ++ header
                         ++ "]. Should be [key=value]"))
      else addHeaders rest
             (HeaderAdd (nth 0 parts "") (nth 1 parts "") req)
  end.

(** The [for ... range rel.Assets] loop and what follows it. *)
Fixpoint findAsset (url : string) (assets : list asset)
  : string * option string :=
  match assets with
  | [] => ("", Some ("Unable to find this release: " ++ url))
  | relAsset :: rest =>
      if String.eqb (BrowserDownloadURL relAsset) url
      then (URL relAsset, None)
      else findAsset url rest
  end.

Definition AssetUrl (url : string) (headers : list string)
  : @M (World net) NetEvent (string * option string) :=
  let parts := FindStringSubmatch ReleaseURL url in
  org <- index_at parts 1 ;;
  project <- index_at parts 2 ;;
  tag <- index_at parts 3 ;;
  let assetsUrl := "https://api.github.com/repos/" ++ org ++ "/"
                     ++ project ++ "/releases/tags/" ++ tag in
  match NewRequest "GET" assetsUrl with
  | inr err => ret ("", Some err)
  | inl req =>
      match addHeaders headers req with
      | (_, Some err) => ret ("", Some err)
      | (req, None) =>
          r <- call (Do net req) (EvDo req) ;;
          match r with
          | inr err => ret ("", Some err)
          | inl resp =>
              (* defer resp.Body.Close() *)
              out <-
                (if Z.geb (StatusCode resp) StatusBadRequest
                 then ret ("", Some (Status resp))
                 else
                   b <- call (ReadAll net resp) (EvReadAll resp) ;;
                   match b with
                   | inr err => ret ("", Some err)
                   | inl body =>
                       match Unmarshal net body with
                       | inr err => ret ("", Some err)
                       | inl rel => ret (findAsset url (Assets rel))
                       end
                   end) ;;
              call (fun w => (tt, Close net resp w))
                   (fun _ => EvClose resp) ;;;
              ret out
          end
      end
  end.

End AssetUrl.

(** The address of line 30. *)
Definition assetsUrl (org project tag : string) : string :=
  "https://api.github.com/repos/" ++ org ++ "/" ++ project
    ++ "/releases/tags/" ++ tag.

(** The error of line 74. *)
Definition invalid_header (header : string) : string :=
  "Invalid header [" ++ header ++ "]. Should be [key=value]".

(** The error of line 67. *)
Definition release_not_found (url : string) : string :=
  "Unable to find this release: " ++ url.

(** A header with exactly one [=]. *)
Definition well_formed (header : string) : Prop :=
  count_byte "=" header = 1.

End github.

(** ** main.go *)

Module main.

(** [files.Options], with the fields [main] fills from the flags. *)
Record Options : Type := {
  AuthToken : string;
  AuthTokenEnvVariable : string;
  S3AccessKey : string;
  S3SecretKey : string;
  Sha256 : string
}.

Record ExtractedFile : Type := {
  Source : string;
  Destination : string
}.

(** [gojenkins]: an entry of [GetAllBuildIds] and a build parameter. *)
Record JobBuild : Type := { Number : Z; BuildURL : string }.
Record parameter : Type := { Name : string; Value : string }.

(** [time.Second], in nanoseconds. *)
Definition Second : Z := 1000000000.

Inductive Writer : Type := Discard | Stdout.

(** The packages [cache], [files], [urls], [zip] and [tar] of the
    repository and the [gojenkins] client, as [main.go] uses them.  Calls
    that reach the outside take the world and return the next one;
    [IsZipArchive], [IsTarArchive], [GetTaskById] and [GetParameters] only
    inspect their argument. *)
Record Sys : Type := {
  World : Type;
  Job : Type;
  Queue : Type;
  Task : Type;
  Build : Type;
  cache_Download :
    string -> Options -> bool -> World -> (string + string) * World;
  files_Copy : string -> string -> World -> option string * World;
  IsZipArchive : string -> bool;
  IsTarArchive : string -> bool;
  zip_Extract : string -> string -> World -> option string * World;
  tar_Extract : string -> string -> string -> World -> option string * World;
  zip_ExtractFiles :
    string -> list ExtractedFile -> World -> option string * World;
  tar_ExtractFiles :
    string -> string -> list ExtractedFile -> World -> option string * World;
  Init : string -> string -> string -> World -> option string * World;
  GetJob : string -> World -> (Job + string) * World;
  InvokeSimple :
    Job -> list (string * string) -> World -> (Z + string) * World;
  GetQueue : World -> (Queue + string) * World;
  GetTaskById : Queue -> Z -> option Task;
  GetAllBuildIds : Job -> World -> (list JobBuild + string) * World;
  GetBuild : Job -> Z -> World -> (Build + string) * World;
  GetParameters : Build -> list parameter;
  IsRunning : Build -> World -> bool * World;
  IsGood : Build -> World -> bool * World;
  Sleep : Z -> World -> World
}.

Section Commands.
Variable sys : Sys.

(** The process: the outside world and the package-level variable
    [force]. *)
Record State : Type := { world : World sys; force : bool }.

Inductive Event : Type :=
| EvLogSetOutput (w : Writer)
| EvLogPrintln (msg : string)
| EvPrintln (msg : string)
| EvCacheDownload (url : string) (options : Options) (forced : bool)
                  (r : string + string)
| EvCopy (source destination : string) (r : option string)
| EvZipExtract (source destination : string) (r : option string)
| EvTarExtract (url source destination : string) (r : option string)
| EvZipExtractFiles (source : string) (files : list ExtractedFile)
                    (r : option string)
| EvTarExtractFiles (url source : string) (files : list ExtractedFile)
                    (r : option string)
| EvInit (base user token : string) (r : option string)
| EvGetJob (name : string) (r : Job sys + string)
| EvInvokeSimple (job : Job sys) (params : list (string * string))
                 (r : Z + string)
| EvGetQueue (r : Queue sys + string)
| EvGetTaskById (queue : Queue sys) (id : Z) (r : option (Task sys))
| EvSleep (d : Z)
| EvGetAllBuildIds (job : Job sys) (r : list JobBuild + string)
| EvGetBuild (job : Job sys) (number : Z) (r : Build sys + string)
| EvGetParameters (build : Build sys) (r : list parameter)
| EvIsRunning (build : Build sys) (r : bool)
| EvIsGood (build : Build sys) (r : bool).

Definition Cmd (A : Type) : Type := @M State Event A.

(** A call that reaches the outside world. *)
Definition outside {R} (f : World sys -> R * World sys) (e : R -> Event)
  : Cmd R :=
  call (fun st => match f (world st) with
                  | (r, w) => (r, {| world := w; force := force st |})
                  end) e.

(** A method that only inspects its receiver. *)
Definition inspect {R} (r : R) (e : R -> Event) : Cmd R :=
  emit (e r) ;;; ret r.

Definition sleep (d : Z) : Cmd unit :=
  outside (fun w => (tt, Sleep sys d w)) (fun _ => EvSleep d).

Definition Download (url : string) (options : Options)
  : Cmd (option string) :=
  emit (EvLogSetOutput Discard) ;;;
  f <- gets force ;;
  r <- outside (cache_Download sys url options f)
               (EvCacheDownload url options f) ;;
  match r with
  | inr err => ret (Some err)
  | inl source => emit (EvPrintln source) ;;; ret None
  end.

Definition Copy (url : string) (options : Options) (destination : string)
  : Cmd (option string) :=
  (if String.eqb destination "-"
   then emit (EvLogSetOutput Discard) else ret tt) ;;;
  f <- gets force ;;
  r <- outside (cache_Download sys url options f)
               (EvCacheDownload url options f) ;;
  match r with
  | inr err => ret (Some err)
  | inl source =>
      emit (EvLogPrintln ("Copy " ++ url ++ " to " ++ destination)) ;;;
      outside (files_Copy sys source destination)
              (EvCopy source destination)
  end.

Definition Extract (url : string) (options : Options)
           (destinationDirectory : string) : Cmd (option string) :=
  f <- gets force ;;
  r <- outside (cache_Download sys url options f)
               (EvCacheDownload url options f) ;;
  match r with
  | inr err => ret (Some err)
  | inl source =>
      emit (EvLogPrintln ("Extract " ++ url ++ " to "
                            ++ destinationDirectory)) ;;;
      if IsZipArchive sys url then
        outside (zip_Extract sys source destinationDirectory)
                (EvZipExtract source destinationDirectory)
      else if IsTarArchive sys url then
        outside (tar_Extract sys url source destinationDirectory)
                (EvTarExtract url source destinationDirectory)
      else ret (Some ("Unsupported archive: " ++ source))
  end.

Fixpoint logFiles (url : string) (files : list ExtractedFile)
  : Cmd unit :=
  match files with
  | [] => ret tt
  | file :: rest =>
      emit (EvLogPrintln ("Extract " ++ Source file ++ " from " ++ url
                            ++ " to " ++ Destination file)) ;;;
      logFiles url rest
  end.

Definition ExtractFiles (url : string) (options : Options)
           (files : list ExtractedFile) : Cmd (option string) :=
  f <- gets force ;;
  r <- outside (cache_Download sys url options f)
               (EvCacheDownload url options f) ;;
  match r with
  | inr err => ret (Some err)
  | inl source =>
      logFiles url files ;;;
      if IsZipArchive sys url then
        outside (zip_ExtractFiles sys source files)
                (EvZipExtractFiles source files)
      else if IsTarArchive sys url then
        outside (tar_ExtractFiles sys url source files)
                (EvTarExtractFiles url source files)
      else ret (Some ("Unsupported archive: " ++ source))
  end.

(** The loop of lines 140-150: [Some err] is [return err], [None] is
    [break].  The source puts no bound on the number of rounds; [fuel]
    bounds them here. *)
Fixpoint waitQueue (fuel : nat) (taskId : Z) : Cmd (option string) :=
  match fuel with
  | O => out_of_fuel
  | S fuel' =>
      q <- outside (GetQueue sys) EvGetQueue ;;
      match q with
      | inr err => ret (Some err)
      | inl queue =>
          task <- inspect (GetTaskById sys queue taskId)
                          (EvGetTaskById queue taskId) ;;
          match task with
          | None => ret None
          | Some _ => sleep Second ;;; waitQueue fuel' taskId
          end
      end
  end.

(** The loop of lines 162-172: [inr err] is [return err], [inl build] is
    [break] with the build as last fetched. *)
Fixpoint waitBuild (fuel : nat) (job : Job sys) (number : Z)
         (build : Build sys) : Cmd (Build sys + string) :=
  match fuel with
  | O => out_of_fuel
  | S fuel' =>
      running <- outside (IsRunning sys build) (EvIsRunning build) ;;
      if negb running then ret (inl build)
      else
        emit (EvLogPrintln "Job is running, waiting...") ;;;
        sleep (5 * Second) ;;;
        b <- outside (GetBuild sys job number) (EvGetBuild job number) ;;
        match b with
        | inr err => ret (inr err)
        | inl build' => waitBuild fuel' job number build'
        end
  end.

(** Lines 162-176, the body of the [if] of line 161: wait for the
    selected build, then fetch again or fail. *)
Definition followBuild (fuel : nat) (job : Job sys) (number : Z)
           (build : Build sys) (binary : string) (options : Options)
  : Cmd (option string) :=
  w <- waitBuild fuel job number build ;;
  match w with
  | inr err => ret (Some err)
  | inl build =>
      good <- outside (IsGood sys build) (EvIsGood build) ;;
      if good then Download binary options
      else ret (Some "Build failed")
  end.

(** The loop of lines 156-178 and the return of line 179. *)
Fixpoint scanBuilds (fuel : nat) (job : Job sys) (commit binary : string)
         (options : Options) (ids : list JobBuild)
  : Cmd (option string) :=
  match ids with
  | [] => ret (Some "Build not found")
  | id :: rest =>
      b <- outside (GetBuild sys job (Number id))
                   (EvGetBuild job (Number id)) ;;
      match b with
      | inr err => ret (Some err)
      | inl build =>
          params <- inspect (GetParameters sys build)
                            (EvGetParameters build) ;;
          p0 <- index_at params 0 ;;
          if String.eqb (Value p0) commit
          then followBuild fuel job (Number id) build binary options
          else scanBuilds fuel job commit binary options rest
      end
  end.

Definition Pinata (fuel : nat)
           (jenkins user token bucket commit platform : string)
           (options : Options) : Cmd (option string) :=
  let binary := "https://storage.googleapis.com/" ++ bucket ++ "/"
                  ++ commit ++ "/docker-for-" ++ platform ++ ".iso.tgz" in
  err <- Download binary options ;;
  match err with
  | Some _ =>
      emit (EvLogSetOutput Stdout) ;;;
      emit (EvLogPrintln "Trigger jenkins build") ;;;
      err <- outside (Init sys jenkins user token)
                     (EvInit jenkins user token) ;;
      match err with
      | Some err => ret (Some err)
      | None =>
          let name := "pinata-" ++ platform ++ "-iso" in
          j <- outside (GetJob sys name) (EvGetJob name) ;;
          match j with
          | inr err => ret (Some err)
          | inl job =>
              let params := [("COMMIT_ID", commit)] in
              t <- outside (InvokeSimple sys job params)
                           (EvInvokeSimple job params) ;;
              match t with
              | inr err => ret (Some err)
              | inl taskId =>
                  emit (EvLogPrintln "Waiting for queue") ;;;
                  q <- waitQueue fuel taskId ;;
                  match q with
                  | Some err => ret (Some err)
                  | None =>
                      ids <- outside (GetAllBuildIds sys job)
                                     (EvGetAllBuildIds job) ;;
                      match ids with
                      | inr err => ret (Some err)
                      | inl ids =>
                          scanBuilds fuel job commit binary options ids
                      end
                  end
              end
          end
      end
  | None => ret None
  end.

End Commands.

Arguments world {sys} s.
Arguments force {sys} s.
Arguments EvLogSetOutput {sys} w.
Arguments EvLogPrintln {sys} msg.
Arguments EvPrintln {sys} msg.
Arguments EvCacheDownload {sys} url options forced r.
Arguments EvCopy {sys} source destination r.
Arguments EvZipExtract {sys} source destination r.
Arguments EvTarExtract {sys} url source destination r.
Arguments EvZipExtractFiles {sys} source files r.
Arguments EvTarExtractFiles {sys} url source files r.
Arguments EvInit {sys} base user token r.
Arguments EvGetJob {sys} name r.
Arguments EvInvokeSimple {sys} job params r.
Arguments EvGetQueue {sys} r.
Arguments EvGetTaskById {sys} queue id r.
Arguments EvSleep {sys} d.
Arguments EvGetAllBuildIds {sys} job r.
Arguments EvGetBuild {sys} job number r.
Arguments EvGetParameters {sys} build r.
Arguments EvIsRunning {sys} build r.
Arguments EvIsGood {sys} build r.

End main.

(** ** The reference classifier *)

Module reference.

Inductive kind : Type := Direct | ReleaseAsset.

(** Modelled from the spec: the classifier of section 4.1 is not among the
    sources, only the pattern it applies is ([ReleaseURL], github.go line
    13).  A reference is a [ReleaseAsset] when the pattern matches it and
    [Direct] otherwise. *)
Definition classify (reference : string) : kind :=
  if MatchString ReleaseURL reference then ReleaseAsset else Direct.

(** A string that decodes as exactly one rune. *)
Definition one_rune (d : string) : Prop :=
  d <> EmptyString /\ rune_size d = String.length d.

Definition newline : string := String "010"%char EmptyString.

(** The release-download URL shape, in words: somewhere in the reference
    stands [https://github], one rune that is not a newline, [com/], an
    organization, [/], a project, [/releases/download/], a tag, [/] and a
    file name, where organization, project and tag contain no [/]. *)
Definition release_download_shape (reference : string) : Prop :=
  exists before dot org project tag fileName,
    reference = before ++ "https://github" ++ dot ++ "com/" ++ org ++ "/"
                  ++ project ++ "/releases/download/" ++ tag ++ "/"
                  ++ fileName
    /\ one_rune dot /\ dot <> newline
    /\ free_of "/" org = true
    /\ free_of "/" project = true
    /\ free_of "/" tag = true.

(** The strings a pattern stands for. *)
Definition flatten (xs : list string) : string :=
  fold_right String.append EmptyString xs.

Fixpoint denotes (re : regexp) (x : string) : Prop :=
  match re with
  | Lit l => x = l
  | AnyNotNL => one_rune x /\ String.get 0 x <> Some "010"%char
  | NotByte c => one_rune x /\ String.get 0 x <> Some c
  | Seq a b => exists x1 x2, x = x1 ++ x2 /\ denotes a x1 /\ denotes b x2
  | Star a => exists xs, x = flatten xs /\ Forall (denotes a) xs
  | Group _ a => denotes a x
  end.

(** What the matcher finds at the head of a string is a string the pattern
    stands for. *)
Definition sound_at (re : regexp) : Prop :=
  forall s caps k r,
    exec re s caps k = Some r ->
    exists a s' caps', s = a ++ s' /\ denotes re a /\ k s' caps' = Some r.

(** The matcher gets through [x] when [s] follows and the rest of the
    pattern gets through [s]. *)
Definition accepts (re : regexp) (x s : string) : Prop :=
  forall k caps,
    (forall caps', k s caps' <> None) -> exec re (x ++ s) caps k <> None.

End reference.

(** ** Scripted collaborators, to run the commands on *)

Module Mock.
Import main.

(** An artifact store that answers every request with [status] and, for
    any body, the asset list [assets]; the world counts the calls. *)
Definition store (bad_url : option string) (status : Z)
           (assets : list github.asset) : github.Net :=
  {| github.World := nat;
     github.ParseURL := fun _ => bad_url;
     github.Do := fun _ w =>
       (inl {| github.StatusCode := status;
               github.Status := "status";
               github.Body := "body" |}, S w);
     github.ReadAll := fun resp w => (inl (github.Body resp), S w);
     github.Close := fun _ w => S w;
     github.Unmarshal := fun _ => inl {| github.Assets := assets |} |}.

Record Scenario : Type := {
  cached : bool;                  (* does the first cache fetch succeed *)
  source_path : string;           (* the path a successful fetch gives *)
  queued_until : nat;             (* the task leaves the queue at this time *)
  build_ids : list JobBuild;
  params_of : Z -> list parameter;
  unknown : Z -> bool;            (* builds that cannot be fetched *)
  running_until : nat;            (* builds stop running at this time *)
  good : bool;
  zip : string -> bool;
  tar : string -> bool
}.

(** The world is a clock that ticks at every call. *)
Definition system (sc : Scenario) : Sys :=
  {| World := nat;
     Job := string;
     Queue := list Z;
     Task := Z;
     Build := Z;
     cache_Download := fun _ _ _ w =>
       (if (cached sc || Nat.ltb 0 w)%bool
        then inl (source_path sc) else inr "not in the bucket", S w);
     files_Copy := fun _ _ w => (None, S w);
     IsZipArchive := zip sc;
     IsTarArchive := tar sc;
     zip_Extract := fun _ _ w => (None, S w);
     tar_Extract := fun _ _ _ w => (None, S w);
     zip_ExtractFiles := fun _ _ w => (None, S w);
     tar_ExtractFiles := fun _ _ _ w => (None, S w);
     Init := fun _ _ _ w => (None, S w);
     GetJob := fun name w => (inl name, S w);
     InvokeSimple := fun _ _ w => (inl 7%Z, S w);
     GetQueue := fun w =>
       (inl (if Nat.ltb w (queued_until sc) then [7%Z] else []), S w);
     GetTaskById := fun q id => List.find (Z.eqb id) q;
     GetAllBuildIds := fun _ w => (inl (build_ids sc), S w);
     GetBuild := fun _ n w =>
       (if unknown sc n then inr "no such build" else inl n, S w);
     GetParameters := params_of sc;
     IsRunning := fun _ w => (Nat.ltb w (running_until sc), S w);
     IsGood := fun _ w => (good sc, S w);
     Sleep := fun _ w => S w |}.

Definition no_options : Options :=
  {| AuthToken := ""; AuthTokenEnvVariable := ""; S3AccessKey := "";
     S3SecretKey := ""; Sha256 := "" |}.

Definition build (n : Z) : JobBuild := {| Number := n; BuildURL := "" |}.

Definition commit_param (c : string) : list parameter :=
  [{| Name := "COMMIT_ID"; Value := c |}].

(** Three builds: 1 is for another commit, 2 for commit [abc], 3 has no
    parameter. *)
Definition params123 (n : Z) : list parameter :=
  if Z.eqb n 1 then commit_param "fff"
  else if Z.eqb n 2 then commit_param "abc"
  else [].

Fixpoint ends_with (suffix s : string) : bool :=
  (String.eqb s suffix
   || match s with
      | EmptyString => false
      | String _ t => ends_with suffix t
      end)%bool.

Definition scenario (in_cache : bool) (ids : list Z) (is_good : bool)
  : Scenario :=
  {| cached := in_cache; source_path := "/cache/41f0";
     queued_until := 7; build_ids := map build ids;
     params_of := params123; unknown := fun _ => false;
     running_until := 14; good := is_good;
     zip := ends_with ".zip";
     tar := fun s => (ends_with ".tar" s || ends_with ".tgz" s)%bool |}.

Definition start (sc : Scenario) (f : bool) : State (system sc) :=
  {| world := 0 : World (system sc); force := f |}.

(** A system with nothing in the cache at first, and the run of [Pinata] on
    it for commit [abc] and platform [mac], with ten rounds for each wait. *)
Definition cold (ids : list Z) (is_good : bool) : Sys :=
  system (scenario false ids is_good).

Definition pinata (ids : list Z) (is_good : bool)
  : result (option string) * State (cold ids is_good)
    * list (Event (cold ids is_good)) :=
  Pinata (cold ids is_good) 10 "http://ci" "user" "token" "bucket" "abc" "mac"
         no_options {| world := 0 : World (cold ids is_good); force := false |}.

Definition binary : string :=
  "https://storage.googleapis.com/bucket/abc/docker-for-mac.iso.tgz".

(** A system with the artifacts in the cache. *)
Definition warm : Sys := system (scenario true [] true).

Definition release_url : string :=
  "https://github.com/org/tool/releases/download/v1.2/tool.zip".

(** Two assets carry the public address [release_url]. *)
Definition asset1 : github.asset :=
  {| github.Id := 1;
     github.BrowserDownloadURL :=
       "https://github.com/org/tool/releases/download/v1.2/tool.tgz";
     github.URL := "https://api.github.com/repos/org/tool/releases/assets/1" |}.

Definition asset2 : github.asset :=
  {| github.Id := 2;
     github.BrowserDownloadURL := release_url;
     github.URL := "https://api.github.com/repos/org/tool/releases/assets/2" |}.

Definition asset3 : github.asset :=
  {| github.Id := 3;
     github.BrowserDownloadURL := release_url;
     github.URL := "https://api.github.com/repos/org/tool/releases/assets/3" |}.

Definition github_store : github.Net := store None 200 [asset1; asset2; asset3].

End Mock.

(** ** Reading the events of a run *)

Module Trace.
Import main.

Section Events.
Context {sys : Sys}.

(** A fetch from the cache store. *)
Definition is_fetch (e : Event sys) : bool :=
  match e with
  | EvCacheDownload _ _ _ _ => true
  | _ => false
  end.

Definition fetches (tr : list (Event sys)) : list (Event sys) :=
  filter is_fetch tr.

(** A call to the CI system. *)
Definition is_ci (e : Event sys) : bool :=
  match e with
  | EvInit _ _ _ _ | EvGetJob _ _ | EvInvokeSimple _ _ _ | EvGetQueue _
  | EvGetTaskById _ _ _ | EvGetAllBuildIds _ _ | EvGetBuild _ _ _
  | EvGetParameters _ _ | EvIsRunning _ _ | EvIsGood _ _ => true
  | _ => false
  end.

(** What the loop waiting for the queue does. *)
Definition queue_event (e : Event sys) : bool :=
  match e with
  | EvGetQueue _ | EvGetTaskById _ _ _ | EvSleep _ => true
  | _ => false
  end.

(** What the loop waiting for the build does. *)
Definition poll_event (e : Event sys) : bool :=
  match e with
  | EvIsRunning _ _ | EvLogPrintln _ | EvSleep _ | EvGetBuild _ _ _ => true
  | _ => false
  end.

(** What happens between the failed fetch and the list of builds. *)
Definition setup_event (e : Event sys) : bool :=
  match e with
  | EvLogSetOutput _ | EvLogPrintln _ | EvInit _ _ _ _ | EvGetJob _ _
  | EvInvokeSimple _ _ _ | EvGetQueue _ | EvGetTaskById _ _ _
  | EvSleep _ | EvGetAllBuildIds _ (inr _) => true
  | _ => false
  end.

(** The [error] a Go function returns next to its result. *)
Definition error_of {A} (r : A + string) : option string :=
  match r with
  | inl _ => None
  | inr err => Some err
  end.

(** The events of one call of [Download]. *)
Definition download_events (url : string) (options : Options)
           (f : bool) (r : string + string) : list (Event sys) :=
  EvLogSetOutput Discard :: EvCacheDownload url options f r
    :: match r with
       | inl source => [EvPrintln source]
       | inr _ => []
       end.

(** The first parameter of a build is, or is not, the commit. *)
Definition for_commit (commit : string) (b : Build sys) : Prop :=
  exists p ps, GetParameters sys b = p :: ps /\ Value p = commit.

Definition other_commit (commit : string) (b : Build sys) : Prop :=
  exists p ps, GetParameters sys b = p :: ps /\ Value p <> commit.

(** The events of the scan passing over builds that are for another
    commit. *)
Definition passed_events (job : Job sys)
           (passed : list (JobBuild * Build sys)) : list (Event sys) :=
  flat_map (fun ib =>
              [EvGetBuild job (Number (fst ib)) (inl (snd ib));
               EvGetParameters (snd ib) (GetParameters sys (snd ib))])
           passed.

(** How the scan of line 156 ends, with the events after those of the
    builds it passed: the list is exhausted, a build cannot be fetched,
    a build has no parameter, or a build is for the commit and is
    followed. *)
Definition scan_end (fuel : nat) (job : Job sys)
           (commit binary : string) (options : Options) (f : bool)
           (rest : list JobBuild) (tail : list (Event sys))
           (out : result (option string)) (st' : State sys) : Prop :=
  match rest with
  | [] => tail = [] /\ out = Ok (Some "Build not found")
  | id :: _ =>
      (exists err,
          tail = [EvGetBuild job (Number id) (inr err)]
          /\ out = Ok (Some err))
      \/ (exists b,
             GetParameters sys b = []
             /\ tail = [EvGetBuild job (Number id) (inl b);
                        EvGetParameters b []]
             /\ out = Panic "runtime error: index out of range")
      \/ (exists b st1 t3,
             for_commit commit b
             /\ tail = EvGetBuild job (Number id) (inl b)
                         :: EvGetParameters b (GetParameters sys b) :: t3
             /\ force st1 = f
             /\ followBuild sys fuel job (Number id) b binary options st1
                = (out, st', t3))
  end.

(** The artifact [Pinata] asks the cache store for (line 116). *)
Definition binary_of (bucket commit platform : string) : string :=
  "https://storage.googleapis.com/" ++ bucket ++ "/" ++ commit
    ++ "/docker-for-" ++ platform ++ ".iso.tgz".

(** A command passes [options] and the variable [force] to every cache
    fetch and leaves the variable as it was. *)
Definition threads (options : Options) (c : Cmd sys (option string))
  : Prop :=
  forall st out st' tr,
    c st = (out, st', tr) ->
    force st' = force st
    /\ forall url o f r,
        In (EvCacheDownload url o f r) tr -> o = options /\ f = force st.

(** Every cache fetch among the events passes [options] and [f]. *)
Definition fetch_with (options : Options) (f : bool) (e : Event sys)
  : Prop :=
  match e with
  | EvCacheDownload _ o f' _ => o = options /\ f' = f
  | _ => True
  end.

(** Started with the variable [force] at [f], the command leaves it at
    [f] and fetches with [options] and [f] only. *)
Definition keeps (options : Options) (f : bool) {A} (c : Cmd sys A)
  : Prop :=
  forall st out st' tr,
    force st = f ->
    c st = (out, st', tr) ->
    force st' = f /\ Forall (fetch_with options f) tr.

(** Where [Extract] and [ExtractFiles] send an archive, by the answers
    of [urls.IsZipArchive] and [urls.IsTarArchive] on the reference. *)
Inductive route : Type := ToZip | ToTar | Unsupported.

Definition route_of (url : string) : route :=
  if IsZipArchive sys url then ToZip
  else if IsTarArchive sys url then ToTar
  else Unsupported.

(** The lines [ExtractFiles] logs, one per file (lines 246-248). *)
Definition files_log (url : string) (files : list ExtractedFile)
  : list (Event sys) :=
  map (fun file =>
         EvLogPrintln ("Extract " ++ Source file ++ " from " ++ url
                         ++ " to " ++ Destination file)) files.

(** The error of lines 235 and 257. *)
Definition unsupported_archive (what : string) : string :=
  "Unsupported archive: " ++ what.

(** The run of one call to the outside, from the world [w]. *)
Definition outside_run {R} (f : World sys -> R * World sys)
           (e : R -> Event sys) (g : bool) (w : World sys)
  : result R * State sys * list (Event sys) :=
  (Ok (fst (f w)), {| world := snd (f w); force := g |}, [e (fst (f w))]).

(** The worlds in which the loop of lines 140-150 comes to an end: the
    queue cannot be read, or the task has left it, or it has after one more
    second. *)
Inductive queue_clears (taskId : Z) : World sys -> Prop :=
| clears_error w err w1 :
    GetQueue sys w = (inr err, w1) -> queue_clears taskId w
| clears_now w queue w1 :
    GetQueue sys w = (inl queue, w1) ->
    GetTaskById sys queue taskId = None ->
    queue_clears taskId w
| clears_later w queue w1 task :
    GetQueue sys w = (inl queue, w1) ->
    GetTaskById sys queue taskId = Some task ->
    queue_clears taskId (Sleep sys Second w1) ->
    queue_clears taskId w.

(** The worlds in which the loop of lines 162-172 comes to an end: the build
    is not running, or it cannot be fetched again, or the build fetched five
    seconds later settles. *)
Inductive build_settles (job : Job sys) (number : Z)
  : Build sys -> World sys -> Prop :=
| settles_now b w w1 :
    IsRunning sys b w = (false, w1) -> build_settles job number b w
| settles_lost b w w1 err w2 :
    IsRunning sys b w = (true, w1) ->
    GetBuild sys job number (Sleep sys (5 * Second) w1) = (inr err, w2) ->
    build_settles job number b w
| settles_later b w w1 b' w2 :
    IsRunning sys b w = (true, w1) ->
    GetBuild sys job number (Sleep sys (5 * Second) w1) = (inl b', w2) ->
    build_settles job number b' w2 ->
    build_settles job number b w.

End Events.

Arguments route_of sys url : clear implicits.

End Trace.

(** ** The commands of [main]

    The four [RunE] closures of [main.go], lines 36-106, named after the
    command each belongs to. *)

Module cli.
Import main.

Section Cli.
Variable sys : Sys.

(** Lines 38-45. *)
Definition DownloadCmd (args : list string) (options : Options)
  : Cmd sys (option string) :=
  if Nat.ltb (List.length args) 1
  then ret (Some "An url must be provided")
  else
    url <- index_at args 0 ;;
    Download sys url options.

(** Lines 50-58. *)
Definition CopyCmd (args : list string) (options : Options)
  : Cmd sys (option string) :=
  if Nat.ltb (List.length args) 2
  then ret (Some "An url and a destination must be provided")
  else
    url <- index_at args 0 ;;
    destination <- index_at args 1 ;;
    Copy sys url options destination.

(** The loop of lines 80-85: [i] runs from 1 by steps of 2 while it is
    below [len(args)].  Each round moves [i] forward, so [len(args)] rounds
    are enough; [fuel] counts them. *)
Fixpoint collectFiles (fuel i : nat) (args : list string)
         (extractedFiles : list ExtractedFile)
  : Cmd sys (list ExtractedFile) :=
  if Nat.ltb i (List.length args) then
    match fuel with
    | O => out_of_fuel
    | S fuel' =>
        source <- index_at args i ;;
        destination <- index_at args (i + 1) ;;
        collectFiles fuel' (i + 2) args
          (extractedFiles
             ++ [{| Source := source; Destination := destination |}])%list
    end
  else ret extractedFiles.

(** Lines 64-88. *)
Definition ExtractCmd (args : list string) (options : Options)
  : Cmd sys (option string) :=
  if Nat.ltb (List.length args) 2
  then ret (Some "An url, a file name and a destination must be provided")
  else
    url <- index_at args 0 ;;
    if Nat.eqb (List.length args) 2 then
      destinationFolder <- index_at args 1 ;;
      Extract sys url options destinationFolder
    else
      extractedFiles <- collectFiles (List.length args) 1 args [] ;;
      ExtractFiles sys url options extractedFiles.

(** Lines 93-105.  [fuel] bounds the rounds of the waits of [Pinata]. *)
Definition PinataCmd (fuel : nat) (args : list string) (options : Options)
  : Cmd sys (option string) :=
  if negb (Nat.eqb (List.length args) 6)
  then ret (Some "A commit and platform must be provided")
  else
    jenkins <- index_at args 0 ;;
    user <- index_at args 1 ;;
    token <- index_at args 2 ;;
    bucket <- index_at args 3 ;;
    commit <- index_at args 4 ;;
    platform <- index_at args 5 ;;
    Pinata sys fuel jenkins user token bucket commit platform options.

End Cli.

(** The arguments after the first, two by two. *)
Fixpoint pairs (rest : list string) : list ExtractedFile :=
  match rest with
  | source :: destination :: rest' =>
      {| Source := source; Destination := destination |} :: pairs rest'
  | _ => []
  end.

End cli.

(** ** What the groups of a match hold *)

Module captured.
Import reference.

(** [chain P xs caps caps']: the pieces [xs] are read one after the other,
    each by [P], taking the groups from [caps] to [caps']. *)
Fixpoint chain (P : string -> captures -> captures -> Prop)
         (xs : list string) (caps caps' : captures) : Prop :=
  match xs with
  | [] => caps' = caps
  | x :: rest => exists mid, P x caps mid /\ chain P rest mid caps'
  end.

(** [records re x caps caps']: [x] is a string [re] stands for, and reading
    it takes the groups from [caps] to [caps']. *)
Fixpoint records (re : regexp) (x : string) (caps caps' : captures) : Prop :=
  match re with
  | Lit l => x = l /\ caps' = caps
  | AnyNotNL =>
      (one_rune x /\ String.get 0 x <> Some "010"%char) /\ caps' = caps
  | NotByte c => (one_rune x /\ String.get 0 x <> Some c) /\ caps' = caps
  | Seq a b =>
      exists x1 x2 mid,
        x = x1 ++ x2 /\ records a x1 caps mid /\ records b x2 mid caps'
  | Star a => exists xs, x = flatten xs /\ chain (records a) xs caps caps'
  | Group i a => exists mid, records a x caps mid /\ caps' = set_nth i x mid
  end.

(** The matcher reads only what the pattern stands for, and leaves the
    groups as the pattern says. *)
Definition records_at (re : regexp) : Prop :=
  forall s caps k r,
    exec re s caps k = Some r ->
    exists a s' caps',
      s = a ++ s' /\ records re a caps caps' /\ k s' caps' = Some r.

(** A reference in its plain form. *)
Definition release_reference (org project tag fileName : string) : string :=
  "https://github.com/" ++ org ++ "/" ++ project ++ "/releases/download/"
    ++ tag ++ "/" ++ fileName.

(** [s] is empty or starts with [c]. *)
Definition stops_at (c : ascii) (s : string) : Prop :=
  match s with
  | EmptyString => True
  | String x _ => x = c
  end.

(** With [s] after it, the matcher reads [x] for [re], takes the groups
    from [caps] to [caps'], and ends as the rest of the pattern does. *)
Definition reads (re : regexp) (x s : string) (caps caps' : captures)
  : Prop :=
  forall k r, k s caps' = Some r -> exec re (x ++ s) caps k = Some r.

(** A header splits into the pair [kv] at its only [=]. *)
Definition joined (header : string) (kv : string * string) : Prop :=
  header = fst kv ++ "=" ++ snd kv
  /\ free_of "=" (fst kv) = true /\ free_of "=" (snd kv) = true.

End captured.

(** ** More about the events of a run *)

Module TraceMore.
Import main Trace.

Section Events.
Context {sys : Sys}.

(** The error a call to the CI system answered with, if it did. *)
Definition ci_error (e : Event sys) : option string :=
  match e with
  | EvInit _ _ _ (Some err) => Some err
  | EvGetJob _ (inr err) => Some err
  | EvInvokeSimple _ _ (inr err) => Some err
  | EvGetQueue (inr err) => Some err
  | EvGetAllBuildIds _ (inr err) => Some err
  | EvGetBuild _ _ (inr err) => Some err
  | _ => None
  end.

(** A call that the CI system, if it is one, answered without error. *)
Definition calm (e : Event sys) : bool :=
  match ci_error e with
  | Some _ => false
  | None => true
  end.

(** A trigger of a build. *)
Definition is_trigger (e : Event sys) : bool :=
  match e with
  | EvInvokeSimple _ _ _ => true
  | _ => false
  end.

Definition not_trigger (e : Event sys) : bool := negb (is_trigger e).

(** A line on the standard output. *)
Definition is_print (e : Event sys) : bool :=
  match e with
  | EvPrintln _ => true
  | _ => false
  end.

Definition not_print (e : Event sys) : bool := negb (is_print e).

Definition not_set_output (e : Event sys) : bool :=
  match e with
  | EvLogSetOutput _ => false
  | _ => true
  end.

(** The lines [Pinata] logs (lines 120, 139 and 166). *)
Definition pinata_line (e : Event sys) : bool :=
  match e with
  | EvLogPrintln msg =>
      (String.eqb msg "Trigger jenkins build"
       || String.eqb msg "Waiting for queue"
       || String.eqb msg "Job is running, waiting...")%bool
  | _ => true
  end.

(** The call [Copy] makes to silence the log, when it makes it
    (lines 204-206). *)
Definition silence (destination : string) : list (Event sys) :=
  if String.eqb destination "-" then [EvLogSetOutput Discard] else [].

(** Every event of every run of [c] is a [p]. *)
Definition only (p : Event sys -> bool) {A} (c : Cmd sys A) : Prop :=
  forall st out st' tr, c st = (out, st', tr) -> forallb p tr = true.

(** The events [tr] and the result [out] of a run: no call to the CI system
    failed, or one did, it is the last event, and the run returned its
    error, which [err_of] reads in the result. *)
Definition halted {A} (err_of : A -> option string) (out : result A)
           (tr : list (Event sys)) : Prop :=
  forallb calm tr = true
  \/ exists before e err a,
      tr = (before ++ [e])%list
      /\ forallb calm before = true
      /\ ci_error e = Some err
      /\ out = Ok a /\ err_of a = Some err.

Definition halts {A} (err_of : A -> option string) (c : Cmd sys A) : Prop :=
  forall st out st' tr, c st = (out, st', tr) -> halted err_of out tr.

(** The events and the result of a run: [nil] after a fetch of [url] that
    gave a path and the print of that path, the only one, or something else
    than [nil] and no print. *)
Definition announced (url : string) (out : result (option string))
           (tr : list (Event sys)) : Prop :=
  (out = Ok None
   /\ exists before o f source,
       tr = (before ++ [EvCacheDownload url o f (inl source);
                        EvPrintln source])%list
       /\ forallb not_print before = true)
  \/ (out <> Ok None /\ forallb not_print tr = true).

Definition announces (url : string) (c : Cmd sys (option string)) : Prop :=
  forall st out st' tr, c st = (out, st', tr) -> announced url out tr.

(** The lines given to [log.Println], each with the writer the log has at
    that time; [w] is the writer before the events. *)
Fixpoint logged (w : Writer) (tr : list (Event sys))
  : list (Writer * string) :=
  match tr with
  | [] => []
  | EvLogSetOutput w' :: rest => logged w' rest
  | EvLogPrintln msg :: rest => (w, msg) :: logged w rest
  | _ :: rest => logged w rest
  end.

(** The writer of the log after the events. *)
Fixpoint writer_after (w : Writer) (tr : list (Event sys)) : Writer :=
  match tr with
  | [] => w
  | EvLogSetOutput w' :: rest => writer_after w' rest
  | _ :: rest => writer_after w rest
  end.

(** With the log on the standard output at the start, every line of every
    run of [c] is written there. *)
Definition loud {A} (c : Cmd sys A) : Prop :=
  forall st out st' tr,
    c st = (out, st', tr) ->
    Forall (fun l => fst l = Stdout) (logged Stdout tr).

(** A line on the standard output: one of [fmt.Println], or one of the
    log. *)
Inductive out_line : Type :=
| Printed (s : string)
| Logged (msg : string).

(** What the events write on the standard output, in order: the lines of
    [fmt.Println], and those of [log.Println] while the writer of the log is
    the standard output; [w] is the writer before the events. *)
Fixpoint standard_output (w : Writer) (tr : list (Event sys))
  : list out_line :=
  match tr with
  | [] => []
  | EvLogSetOutput w' :: rest => standard_output w' rest
  | EvLogPrintln msg :: rest =>
      match w with
      | Stdout => Logged msg :: standard_output w rest
      | Discard => standard_output w rest
      end
  | EvPrintln s :: rest => Printed s :: standard_output w rest
  | _ :: rest => standard_output w rest
  end.

(** The lines of the log that go to the standard output. *)
Definition on_stdout (l : Writer * string) : bool :=
  match fst l with
  | Stdout => true
  | Discard => false
  end.

Definition pinata_message (msg : string) : Prop :=
  msg = "Trigger jenkins build" \/ msg = "Waiting for queue"
  \/ msg = "Job is running, waiting...".

End Events.

End TraceMore.

(** ** More scripted collaborators *)

Module MockMore.
Import main.

(** The CI system of [Mock.cold], except that the job cannot be found. *)
Definition jobless : Sys :=
  let base := Mock.cold [] true in
  {| World := World base; Job := Job base; Queue := Queue base;
     Task := Task base; Build := Build base;
     cache_Download := cache_Download base;
     files_Copy := files_Copy base;
     IsZipArchive := IsZipArchive base;
     IsTarArchive := IsTarArchive base;
     zip_Extract := zip_Extract base;
     tar_Extract := tar_Extract base;
     zip_ExtractFiles := zip_ExtractFiles base;
     tar_ExtractFiles := tar_ExtractFiles base;
     Init := Init base;
     GetJob := fun _ (w : World base) =>
       (inr "no such job", S w : World base);
     InvokeSimple := InvokeSimple base;
     GetQueue := GetQueue base;
     GetTaskById := GetTaskById base;
     GetAllBuildIds := GetAllBuildIds base;
     GetBuild := GetBuild base;
     GetParameters := GetParameters base;
     IsRunning := IsRunning base;
     IsGood := IsGood base;
     Sleep := Sleep base |}.

Definition jobless_run
  : result (option string) * State jobless * list (Event jobless) :=
  Pinata jobless 10 "http://ci" "user" "token" "bucket" "abc" "mac"
         Mock.no_options {| world := 0 : World jobless; force := false |}.

(** An artifact store that answers 404. *)
Definition missing_store : github.Net := Mock.store None 404 [].

(** An artifact store that cannot be reached. *)
Definition offline : github.Net :=
  {| github.World := nat;
     github.ParseURL := fun _ => None;
     github.Do := fun _ w => (inr "no route to host", S w);
     github.ReadAll := fun resp w => (inl (github.Body resp), S w);
     github.Close := fun _ w => S w;
     github.Unmarshal := fun _ => inl {| github.Assets := [] |} |}.

(** An artifact store whose answer is not a release. *)
Definition garbled : github.Net :=
  {| github.World := nat;
     github.ParseURL := fun _ => None;
     github.Do := fun _ w =>
       (inl {| github.StatusCode := 200;
               github.Status := "status";
               github.Body := "body" |}, S w);
     github.ReadAll := fun resp w => (inl (github.Body resp), S w);
     github.Close := fun _ w => S w;
     github.Unmarshal := fun _ => inr "unexpected end of JSON input" |}.

(** The request and the answer of the scripted stores. *)
Definition tag_request : github.Request :=
  {| github.Method := "GET";
     github.RequestURL :=
       "https://api.github.com/repos/org/tool/releases/tags/v1.2";
     github.Header := [("Authorization", "token abc")] |}.

Definition answer (status : Z) : github.Response :=
  {| github.StatusCode := status;
     github.Status := "status";
     github.Body := "body" |}.

(** An artifact store in front of which [http.NewRequest] refuses an
    address with the escape [%zz]. *)
Definition strict_store : github.Net :=
  {| github.World := nat;
     github.ParseURL := fun u =>
       match String.index 0 "%zz" u with
       | Some _ => Some "invalid URL escape"
       | None => None
       end;
     github.Do := github.Do Mock.github_store;
     github.ReadAll := github.ReadAll Mock.github_store;
     github.Close := github.Close Mock.github_store;
     github.Unmarshal := github.Unmarshal Mock.github_store |}.

End MockMore.

(** ** The CI system as a run meets it *)

Module Answers.
Import main Trace.

Section Answers.
Context {sys : Sys}.

(** [queue_cleared taskId w tq w']: asked for its queue from the world [w],
    and again after each second while the task is in it, the CI system
    answers every time and the task has left the queue at last; [tq] are
    the calls made with their answers and [w'] is the world after the
    last. *)
Inductive queue_cleared (taskId : Z)
  : World sys -> list (Event sys) -> World sys -> Prop :=
| cleared_at w queue w1 :
    GetQueue sys w = (inl queue, w1) ->
    GetTaskById sys queue taskId = None ->
    queue_cleared taskId w
      [EvGetQueue (inl queue); EvGetTaskById queue taskId None] w1
| cleared_after w queue w1 task tq w' :
    GetQueue sys w = (inl queue, w1) ->
    GetTaskById sys queue taskId = Some task ->
    queue_cleared taskId (Sleep sys Second w1) tq w' ->
    queue_cleared taskId w
      (EvGetQueue (inl queue) :: EvGetTaskById queue taskId (Some task)
         :: EvSleep Second :: tq) w'.

(** [build_settled job number b w tw last w']: asked from the world [w]
    whether the build [b] is running, and again of the build fetched anew
    by its number after each five seconds while the answer is yes, the CI
    system answers every fetch and says no at last, of the build [last];
    [tw] are the calls made and [w'] is the world after the last. *)
Inductive build_settled (job : Job sys) (number : Z)
  : Build sys -> World sys -> list (Event sys) -> Build sys -> World sys
    -> Prop :=
| settled_at b w w1 :
    IsRunning sys b w = (false, w1) ->
    build_settled job number b w [EvIsRunning b false] b w1
| settled_after b w w1 b' w2 tw last w' :
    IsRunning sys b w = (true, w1) ->
    GetBuild sys job number (Sleep sys (5 * Second) w1) = (inl b', w2) ->
    build_settled job number b' w2 tw last w' ->
    build_settled job number b w
      (EvIsRunning b true :: EvLogPrintln "Job is running, waiting..."
         :: EvSleep (5 * Second) :: EvGetBuild job number (inl b') :: tw)
      last w'.

(** [builds_passed job commit ids w tp w']: fetched one after the other
    from the world [w], every build of [ids] is given by the CI system and
    has a first parameter, which is not the commit; [tp] are the calls made
    and [w'] is the world after the last. *)
Inductive builds_passed (job : Job sys) (commit : string)
  : list JobBuild -> World sys -> list (Event sys) -> World sys -> Prop :=
| passed_none w : builds_passed job commit [] w [] w
| passed_one id ids w b w1 tp w' :
    GetBuild sys job (Number id) w = (inl b, w1) ->
    other_commit commit b ->
    builds_passed job commit ids w1 tp w' ->
    builds_passed job commit (id :: ids) w
      (EvGetBuild job (Number id) (inl b)
         :: EvGetParameters b (GetParameters sys b) :: tp) w'.

(** [listed jenkins user token commit platform w job ids ts w']: from the
    world [w], the one after the failed fetch, the CI system accepts the
    connection, has the job [pinata-<platform>-iso], takes the trigger for
    the commit, lets the task leave the queue and lists the builds [ids] of
    the job; [ts] are the calls made, with the lines logged between them,
    and [w'] is the world after the last. *)
Definition listed (jenkins user token commit platform : string)
           (w : World sys) (job : Job sys) (ids : list JobBuild)
           (ts : list (Event sys)) (w' : World sys) : Prop :=
  exists w1 w2 taskId w3 tq w4,
    Init sys jenkins user token w = (None, w1)
    /\ GetJob sys ("pinata-" ++ platform ++ "-iso") w1 = (inl job, w2)
    /\ InvokeSimple sys job [("COMMIT_ID", commit)] w2 = (inl taskId, w3)
    /\ queue_cleared taskId w3 tq w4
    /\ GetAllBuildIds sys job w4 = (inl ids, w')
    /\ ts = ([EvLogSetOutput Stdout;
              EvLogPrintln "Trigger jenkins build";
              EvInit jenkins user token None;
              EvGetJob ("pinata-" ++ platform ++ "-iso") (inl job);
              EvInvokeSimple job [("COMMIT_ID", commit)] (inl taskId);
              EvLogPrintln "Waiting for queue"]
               ++ tq ++ [EvGetAllBuildIds job (inl ids)])%list.

(** The events of a run up to the choice of the build [b], listed as [id]
    after the builds that [tp] passed. *)
Definition up_to_build (binary : string) (options : Options) (f : bool)
           (err : string) (ts tp : list (Event sys)) (job : Job sys)
           (id : JobBuild) (b : Build sys) : list (Event sys) :=
  (download_events binary options f (inr err) ++ ts ++ tp
     ++ [EvGetBuild job (Number id) (inl b);
         EvGetParameters b (GetParameters sys b)])%list.

End Answers.

End Answers.

(** * Properties *)

(** ** The effect layer *)

Section EffectLaws.
Context {St Ev : Type}.

Lemma bind_ret {A B} (a : A) (f : A -> @M St Ev B) (s : St) :
  bind (ret a) f s = f a s.
Proof.
  unfold bind, ret. destruct (f a s) as [[r s2] t2]. reflexivity.
Qed.

Lemma bind_panic {A B} (msg : string) (f : A -> @M St Ev B) (s : St) :
  bind (panic msg) f s = (Panic msg, s, []).
Proof. reflexivity. Qed.

Lemma bind_emit {B} (e : Ev) (f : unit -> @M St Ev B) (s : St) :
  bind (emit e) f s = prepend [e] (f tt s).
Proof. reflexivity. Qed.

Lemma bind_gets {A B} (g : St -> A) (f : A -> @M St Ev B) (s : St) :
  bind (gets g) f s = f (g s) s.
Proof.
  unfold bind, gets. destruct (f (g s) s) as [[r s2] t2]. reflexivity.
Qed.

Lemma bind_call {R B} (c : St -> R * St) (e : R -> Ev)
      (f : R -> @M St Ev B) (s : St) :
  bind (call c e) f s
  = prepend [e (fst (c s))] (f (fst (c s)) (snd (c s))).
Proof.
  unfold bind, call. destruct (c s) as [x s1]. reflexivity.
Qed.

Lemma prepend_inv {A} (t1 : list Ev) (x : result A * St * list Ev)
      (out : result A) (s : St) (tr : list Ev) :
  prepend t1 x = (out, s, tr) ->
  exists t2, x = (out, s, t2) /\ tr = (t1 ++ t2)%list.
Proof.
  destruct x as [[r s2] t2]. intros H. injection H as <- <- <-.
  exists t2. split; reflexivity.
Qed.

Lemma bind_assoc {A B C} (m : @M St Ev A) (f : A -> M B) (g : B -> M C)
      (s : St) :
  bind (bind m f) g s = bind m (fun a => bind (f a) g) s.
Proof.
  unfold bind. destruct (m s) as [[[a | msg |] s1] t1]; try reflexivity.
  destruct (f a s1) as [[[b | msg |] s2] t2]; try reflexivity.
  destruct (g b s2) as [[r s3] t3]. rewrite app_assoc. reflexivity.
Qed.

Lemma run_eta {A} (x : result A * St * list Ev) :
  x = (fst (fst x), snd (fst x), snd x).
Proof. destruct x as [[r s] t]. reflexivity. Qed.

End EffectLaws.

(** ** Go strings *)

Module GoStringFacts.
Import reference.

Lemma prefix_byte (c a : ascii) (t : string) :
  prefix (String c EmptyString) (String a t) = Ascii.eqb a c.
Proof.
  simpl. destruct (ascii_dec c a) as [e | n].
  - subst. rewrite Ascii.eqb_refl. destruct t; reflexivity.
  - symmetry. apply Ascii.eqb_neq. congruence.
Qed.

Lemma split_go_byte_length (c : ascii) (s cur : string) :
  List.length (split_go (String c EmptyString) 0 cur s)
  = S (count_byte c s).
Proof.
  revert cur. induction s as [| a t IH]; intros cur.
  - reflexivity.
  - cbn [split_go count_byte]. rewrite prefix_byte.
    destruct (Ascii.eqb a c); cbn [List.length String.length Nat.sub];
      rewrite IH; reflexivity.
Qed.

(** [strings.Split(s, "=")] has one more piece than [s] has [=]. *)
Lemma Split_byte_length (c : ascii) (s : string) :
  List.length (Split s (String c EmptyString)) = S (count_byte c s).
Proof. apply split_go_byte_length. Qed.

Lemma append_assoc (a b c : string) : (a ++ b) ++ c = a ++ (b ++ c).
Proof. induction a as [| x a IH]; [reflexivity | cbn; rewrite IH; reflexivity]. Qed.

Lemma append_nil_r (a : string) : a ++ "" = a.
Proof. induction a as [| x a IH]; [reflexivity | cbn; rewrite IH; reflexivity]. Qed.

Lemma length_append (a b : string) :
  String.length (a ++ b) = String.length a + String.length b.
Proof. induction a as [| x a IH]; [reflexivity | cbn; rewrite IH; reflexivity]. Qed.

Lemma take_skip (n : nat) (s : string) : take n s ++ skip n s = s.
Proof.
  revert s. induction n as [| n IH]; intros s; [reflexivity |].
  destruct s as [| c t]; [reflexivity |]. cbn. rewrite IH. reflexivity.
Qed.

Lemma length_skip (n : nat) (s : string) :
  String.length (skip n s) = String.length s - n.
Proof.
  revert s. induction n as [| n IH]; intros s; [cbn; lia |].
  destruct s as [| c t]; [reflexivity |]. cbn. apply IH.
Qed.

Lemma skip_append (a s : string) : skip (String.length a) (a ++ s) = s.
Proof. induction a as [| x a IH]; [reflexivity | exact IH]. Qed.

Lemma take_append (a s : string) : take (String.length a) (a ++ s) = a.
Proof. induction a as [| x a IH]; [reflexivity | cbn; rewrite IH; reflexivity]. Qed.

Lemma skip_within (n : nat) (a s : string) :
  n <= String.length a -> skip n (a ++ s) = skip n a ++ s.
Proof.
  revert a. induction n as [| n IH]; intros a H; [reflexivity |].
  destruct a as [| x a]; [cbn in H; lia |]. cbn. apply IH. cbn in H. lia.
Qed.

Lemma strip_prefix_append (l s : string) : strip_prefix l (l ++ s) = Some s.
Proof.
  induction l as [| x l IH]; [reflexivity |]. cbn.
  rewrite Ascii.eqb_refl. exact IH.
Qed.

Lemma strip_prefix_inv (l s s' : string) :
  strip_prefix l s = Some s' -> s = l ++ s'.
Proof.
  revert s. induction l as [| x l IH]; intros s H.
  - cbn in H. injection H as ->. reflexivity.
  - destruct s as [| y s]; [discriminate |]. cbn in H.
    destruct (Ascii.eqb x y) eqn:E; [| discriminate].
    apply Ascii.eqb_eq in E. subst y. cbn. rewrite (IH _ H). reflexivity.
Qed.

(** *** Runes *)

Lemma between_cont (lo hi : N) (c : ascii) :
  (128 <= lo)%N -> (hi <= 191)%N -> between lo hi c = true -> is_cont c = true.
Proof.
  unfold is_cont, between. intros Hlo Hhi H.
  apply andb_true_iff in H. destruct H as [H1 H2].
  apply N.leb_le in H1, H2. apply andb_true_iff.
  split; apply N.leb_le; lia.
Qed.

Lemma rune_size_conts (c : ascii) (t : string) :
  conts (rune_size (String c t) - 1) t = true.
Proof.
  unfold rune_size. cbv zeta.
  destruct (N.ltb (byte c) 128); [reflexivity |].
  destruct (N.ltb (byte c) 194); [reflexivity |].
  destruct (N.ltb (byte c) 224).
  { destruct t as [| c1 t]; [reflexivity |].
    destruct (is_cont c1) eqn:E; [cbn; rewrite E; reflexivity | reflexivity]. }
  destruct (N.ltb (byte c) 240).
  { destruct t as [| c1 [| c2 t]]; try reflexivity.
    match goal with |- context [if ?b then _ else _] => destruct b eqn:E end;
      [| reflexivity].
    apply andb_true_iff in E. destruct E as [E1 E2].
    apply between_cont in E1;
      [| destruct (N.eqb (byte c) 224); lia
       | destruct (N.eqb (byte c) 237); lia].
    cbn. rewrite E1, E2. reflexivity. }
  destruct (N.ltb (byte c) 245); [| reflexivity].
  destruct t as [| c1 [| c2 [| c3 t]]]; try reflexivity.
  match goal with |- context [if ?b then _ else _] => destruct b eqn:E end;
    [| reflexivity].
  apply andb_true_iff in E. destruct E as [E E3].
  apply andb_true_iff in E. destruct E as [E1 E2].
  apply between_cont in E1;
    [| destruct (N.eqb (byte c) 240); lia
     | destruct (N.eqb (byte c) 244); lia].
  cbn. rewrite E1, E2, E3. reflexivity.
Qed.

Lemma rune_size_pos (c : ascii) (t : string) : 1 <= rune_size (String c t).
Proof.
  unfold rune_size. cbv zeta.
  repeat match goal with
         | |- context [if ?b then _ else _] => destruct b
         | |- context [match ?t with EmptyString => _ | String _ _ => _ end] =>
             destruct t
         end; lia.
Qed.

Lemma conts_length (n : nat) (s : string) :
  conts n s = true -> n <= String.length s.
Proof.
  revert s. induction n as [| n IH]; intros s H; [lia |].
  destruct s as [| c t]; [discriminate |]. cbn in H.
  apply andb_true_iff in H. destruct H as [_ H]. cbn. apply IH in H. lia.
Qed.

Lemma rune_size_le (s : string) : rune_size s <= String.length s.
Proof.
  destruct s as [| c t]; [reflexivity |].
  pose proof (rune_size_conts c t) as H. apply conts_length in H.
  pose proof (rune_size_pos c t). cbn [String.length]. lia.
Qed.

Lemma conts_within (n : nat) (a s : string) :
  next_ok s -> conts n (a ++ s) = true -> n <= String.length a.
Proof.
  intros Hs. revert a. induction n as [| n IH]; intros a H; [lia |].
  destruct a as [| x a].
  - cbn in H. destruct s as [| c t]; [discriminate |]. cbn in Hs.
    rewrite Hs in H. discriminate.
  - cbn in H. apply andb_true_iff in H. destruct H as [_ H].
    apply IH in H. cbn. lia.
Qed.

Lemma not_cont_between (lo hi : N) (c : ascii) :
  (128 <= lo)%N -> (hi <= 191)%N -> is_cont c = false -> between lo hi c = false.
Proof.
  intros Hlo Hhi H. destruct (between lo hi c) eqn:E; [| reflexivity].
  rewrite (between_cont lo hi c Hlo Hhi E) in H. discriminate.
Qed.

Lemma lo3_bound (b : N) : (128 <= (if N.eqb b 224 then 160 else 128))%N.
Proof. destruct (N.eqb b 224); lia. Qed.
Lemma hi3_bound (b : N) : ((if N.eqb b 237 then 159 else 191) <= 191)%N.
Proof. destruct (N.eqb b 237); lia. Qed.
Lemma lo4_bound (b : N) : (128 <= (if N.eqb b 240 then 144 else 128))%N.
Proof. destruct (N.eqb b 240); lia. Qed.
Lemma hi4_bound (b : N) : ((if N.eqb b 244 then 143 else 191) <= 191)%N.
Proof. destruct (N.eqb b 244); lia. Qed.

(** A rune followed by a byte that does not continue it is read alone. *)
Lemma rune_size_append (x : ascii) (t s : string) :
  rune_size (String x t) = S (String.length t) ->
  next_ok s ->
  rune_size (String x (t ++ s)) = S (String.length t).
Proof.
  unfold rune_size. cbv zeta. intros H Hs.
  destruct (N.ltb (byte x) 128);
    [destruct t; [reflexivity | cbn in H; lia] |].
  destruct (N.ltb (byte x) 194);
    [destruct t; [reflexivity | cbn in H; lia] |].
  destruct (N.ltb (byte x) 224).
  { destruct t as [| c1 t].
    - cbn. destruct s as [| c1 s]; [reflexivity |]. cbn in Hs.
      rewrite Hs. reflexivity.
    - cbn [String.append]. destruct (is_cont c1); [| cbn in H; lia].
      exact H. }
  destruct (N.ltb (byte x) 240).
  { destruct t as [| c1 [| c2 t]].
    - cbn. destruct s as [| c1 [| c2 s]]; try reflexivity. cbn in Hs.
      rewrite (not_cont_between _ _ c1 (lo3_bound _) (hi3_bound _) Hs).
      reflexivity.
    - cbn in H. lia.
    - cbn [String.append].
      match goal with |- context [if ?b then _ else _] => destruct b end;
        [exact H | cbn in H; lia]. }
  destruct (N.ltb (byte x) 245).
  { destruct t as [| c1 [| c2 [| c3 t]]].
    - cbn. destruct s as [| c1 [| c2 [| c3 s]]]; try reflexivity. cbn in Hs.
      rewrite (not_cont_between _ _ c1 (lo4_bound _) (hi4_bound _) Hs).
      reflexivity.
    - cbn in H. lia.
    - cbn in H. lia.
    - cbn [String.append].
      match goal with |- context [if ?b then _ else _] => destruct b end;
        [exact H | cbn in H; lia]. }
  destruct t; [reflexivity | cbn in H; lia].
Qed.

(** What [DecodeRuneInString] passes is one rune. *)
Lemma rune_size_take (x : ascii) (t : string) :
  rune_size (take (rune_size (String x t)) (String x t))
  = rune_size (String x t).
Proof.
  unfold rune_size at 2 3. cbv zeta.
  destruct (N.ltb (byte x) 128) eqn:E1;
    [cbn; rewrite E1; reflexivity |].
  destruct (N.ltb (byte x) 194) eqn:E2;
    [cbn; rewrite E1, E2; reflexivity |].
  destruct (N.ltb (byte x) 224) eqn:E3.
  { destruct t as [| c1 t]; [cbn; rewrite E1, E2, E3; reflexivity |].
    destruct (is_cont c1) eqn:C1; cbn; rewrite E1, E2, E3; [| reflexivity].
    rewrite C1. reflexivity. }
  destruct (N.ltb (byte x) 240) eqn:E4.
  { destruct t as [| c1 [| c2 t]];
      try (cbn; rewrite E1, E2, E3, E4; reflexivity).
    match goal with |- context [if ?b then _ else _] => destruct b eqn:C end;
      cbn; rewrite E1, E2, E3, E4; [| reflexivity].
    rewrite C. reflexivity. }
  destruct (N.ltb (byte x) 245) eqn:E5.
  { destruct t as [| c1 [| c2 [| c3 t]]];
      try (cbn; rewrite E1, E2, E3, E4, E5; reflexivity).
    match goal with |- context [if ?b then _ else _] => destruct b eqn:C end;
      cbn; rewrite E1, E2, E3, E4, E5; [| reflexivity].
    rewrite C. reflexivity. }
  cbn. rewrite E1, E2, E3, E4, E5. reflexivity.
Qed.

Lemma length_take (n : nat) (s : string) :
  n <= String.length s -> String.length (take n s) = n.
Proof.
  revert s. induction n as [| n IH]; intros s H; [reflexivity |].
  destruct s as [| c t]; [cbn in H; lia |]. cbn. rewrite IH; [reflexivity |].
  cbn in H. lia.
Qed.

Lemma one_rune_take (x : ascii) (t : string) :
  one_rune (take (rune_size (String x t)) (String x t)).
Proof.
  split.
  - pose proof (rune_size_pos x t).
    destruct (rune_size (String x t)); [lia | discriminate].
  - rewrite rune_size_take. symmetry. apply length_take, rune_size_le.
Qed.

Lemma get_take (x : ascii) (t : string) :
  String.get 0 (take (rune_size (String x t)) (String x t)) = Some x.
Proof.
  pose proof (rune_size_pos x t).
  destruct (rune_size (String x t)); [lia | reflexivity].
Qed.

End GoStringFacts.

(** ** Matching *)

Module RegexpFacts.
Import GoStringFacts reference.

(** ** The matcher finds only what the pattern stands for *)

Lemma star_sound (a : regexp) :
  sound_at a ->
  forall fuel s caps k r,
    star (exec a) fuel s caps k = Some r ->
    exists xs s' caps',
      s = flatten xs ++ s' /\ Forall (denotes a) xs /\ k s' caps' = Some r.
Proof.
  intros Ha. induction fuel as [| fuel IH]; intros s caps k r H.
  - exists [], s, caps. split; [reflexivity |]. split; [constructor | exact H].
  - cbn [star] in H.
    match type of H with
    | match ?e with _ => _ end = _ => destruct e as [r0 |] eqn:E
    end.
    + injection H as ->. apply Ha in E.
      destruct E as (x & s1 & caps1 & -> & Hx & E).
      destruct (Nat.ltb (String.length s1) (String.length (x ++ s1)));
        [| discriminate].
      apply IH in E. destruct E as (xs & s' & caps' & -> & Hxs & E).
      exists (x :: xs), s', caps'. split; [| split; [constructor; assumption | exact E]].
      cbn [flatten fold_right]. rewrite append_assoc. reflexivity.
    + exists [], s, caps.
      split; [reflexivity |]. split; [constructor | exact H].
Qed.

Lemma exec_sound (re : regexp) : sound_at re.
Proof.
  induction re as [l | | c | a IHa b IHb | a IHa | i a IHa];
    intros s caps k r H; cbn [exec] in H.
  - destruct (strip_prefix l s) as [s' |] eqn:E; [| discriminate].
    apply strip_prefix_inv in E. exists l, s', caps.
    split; [exact E |]. split; [reflexivity | exact H].
  - destruct s as [| x t]; [discriminate |].
    destruct (Ascii.eqb x "010") eqn:E; [discriminate |].
    eexists; eexists; exists caps.
    split; [symmetry; apply take_skip |]. split; [| exact H].
    split; [apply one_rune_take |]. rewrite get_take.
    apply Ascii.eqb_neq in E. congruence.
  - destruct s as [| x t]; [discriminate |].
    destruct (Ascii.eqb x c) eqn:E; [discriminate |].
    eexists; eexists; exists caps.
    split; [symmetry; apply take_skip |]. split; [| exact H].
    split; [apply one_rune_take |]. rewrite get_take.
    apply Ascii.eqb_neq in E. congruence.
  - apply IHa in H. destruct H as (x1 & s1 & caps1 & -> & H1 & H).
    apply IHb in H. destruct H as (x2 & s2 & caps2 & -> & H2 & H).
    exists (x1 ++ x2), s2, caps2. split; [symmetry; apply append_assoc |].
    split; [| exact H]. exists x1, x2. repeat split; assumption.
  - apply (star_sound a IHa) in H.
    destruct H as (xs & s' & caps' & -> & Hxs & H).
    exists (flatten xs), s', caps'. split; [reflexivity |].
    split; [| exact H]. exists xs. split; [reflexivity | exact Hxs].
  - apply IHa in H. destruct H as (x & s' & caps' & -> & Hx & H).
    eexists; eexists; eexists. split; [reflexivity |].
    split; [exact Hx | exact H].
Qed.

Lemma search_sound (re : regexp) (init : captures) (s : string) :
  forall pending r,
    search re init pending s = Some r ->
    exists before m, s = before ++ m /\ exec re m init accept = Some r.
Proof.
  induction s as [| c t IH]; intros pending r H.
  - destruct pending; [| discriminate].
    exists "", "". split; [reflexivity | exact H].
  - cbn [search] in H. destruct pending as [| p].
    + destruct (exec re (String c t) init accept) as [r0 |] eqn:E.
      * injection H as ->. exists "", (String c t).
        split; [reflexivity | exact E].
      * apply IH in H. destruct H as (before & m & -> & H).
        exists (String c before), m. split; [reflexivity | exact H].
    + apply IH in H. destruct H as (before & m & -> & H).
      exists (String c before), m. split; [reflexivity | exact H].
Qed.

(** A byte below 0x80 is none of the bytes after the first of a rune. *)
Lemma cont_not_ascii (a c : ascii) :
  (byte c < 128)%N -> is_cont a = true -> Ascii.eqb a c = false.
Proof.
  intros Hc Ha. apply Ascii.eqb_neq. intros ->.
  unfold is_cont, between in Ha. apply andb_true_iff in Ha.
  destruct Ha as [Ha _]. apply N.leb_le in Ha. lia.
Qed.

Lemma conts_free_of (c : ascii) (t : string) :
  (byte c < 128)%N -> conts (String.length t) t = true -> free_of c t = true.
Proof.
  intros Hc. induction t as [| a t IH]; [reflexivity |].
  cbn. intros H. apply andb_true_iff in H. destruct H as [Ha Ht].
  rewrite (cont_not_ascii a c Hc Ha), (IH Ht). reflexivity.
Qed.

Lemma free_of_append (c : ascii) (a b : string) :
  free_of c (a ++ b) = (free_of c a && free_of c b)%bool.
Proof.
  induction a as [| x a IH]; [reflexivity |]. cbn. rewrite IH.
  apply andb_assoc.
Qed.

Lemma rune_free_of (c : ascii) (d : string) :
  (byte c < 128)%N -> one_rune d -> String.get 0 d <> Some c ->
  free_of c d = true.
Proof.
  intros Hc [Hd Hsize] Hget. destruct d as [| x t]; [congruence |].
  cbn in Hget. cbn [free_of].
  replace (Ascii.eqb x c) with false
    by (symmetry; apply Ascii.eqb_neq; congruence).
  cbn [negb andb]. apply conts_free_of; [exact Hc |].
  pose proof (rune_size_conts x t) as H. rewrite Hsize in H.
  cbn [String.length] in H. rewrite Nat.sub_1_r in H. exact H.
Qed.

Lemma star_not_byte_free (c : ascii) (x : string) :
  (byte c < 128)%N -> denotes (Star (NotByte c)) x -> free_of c x = true.
Proof.
  intros Hc (xs & -> & Hxs). induction Hxs as [| d xs [Hd Hget] _ IH];
    [reflexivity |].
  cbn [flatten fold_right]. rewrite free_of_append.
  fold (flatten xs). rewrite IH, (rune_free_of c d Hc Hd Hget). reflexivity.
Qed.

(** ** The matcher finds what [ReleaseURL] stands for *)

Lemma accepts_Lit (l s : string) : accepts (Lit l) l s.
Proof.
  intros k caps Hk. cbn [exec]. rewrite strip_prefix_append. apply Hk.
Qed.

Lemma accepts_Seq (a b : regexp) (x1 x2 s : string) :
  accepts a x1 (x2 ++ s) -> accepts b x2 s ->
  accepts (Seq a b) (x1 ++ x2) s.
Proof.
  intros Ha Hb k caps Hk. cbn [exec]. rewrite append_assoc.
  apply Ha. intros caps'. apply Hb, Hk.
Qed.

Lemma accepts_Group (i : nat) (a : regexp) (x s : string) :
  accepts a x s -> accepts (Group i a) x s.
Proof.
  intros Ha k caps Hk. cbn [exec]. apply Ha. intros caps'. apply Hk.
Qed.

Lemma accepts_rune (d s : string) (c : ascii) :
  one_rune d -> String.get 0 d <> Some c -> next_ok s ->
  forall (k : cont) (caps : captures),
    (forall caps', k s caps' <> None) ->
    match d ++ s with
    | EmptyString => None
    | String x _ =>
        if Ascii.eqb x c then None
        else k (skip (rune_size (d ++ s)) (d ++ s)) caps
    end <> None.
Proof.
  intros [Hd Hsize] Hget Hs k caps Hk.
  destruct d as [| x t]; [congruence |]. cbn [String.append].
  cbn in Hget.
  replace (Ascii.eqb x c) with false
    by (symmetry; apply Ascii.eqb_neq; congruence).
  rewrite (rune_size_append x t s Hsize Hs).
  change (String x (t ++ s)) with (String x t ++ s).
  change (S (String.length t)) with (String.length (String x t)).
  rewrite skip_append. apply Hk.
Qed.

Lemma accepts_AnyNotNL (d s : string) :
  one_rune d -> String.get 0 d <> Some "010"%char -> next_ok s ->
  accepts AnyNotNL d s.
Proof. intros Hd Hget Hs k caps Hk. cbn [exec]. apply accepts_rune; assumption. Qed.

Lemma star_falls_back (step : string -> captures -> cont -> option captures)
      (fuel : nat) (s : string) (caps : captures) (k : cont) :
  k s caps <> None -> star step fuel s caps k <> None.
Proof.
  intros Hk. destruct fuel as [| fuel]; [exact Hk |]. cbn [star].
  match goal with |- match ?e with _ => _ end <> _ => destruct e end;
    [discriminate | exact Hk].
Qed.

Lemma accepts_Star_empty (a : regexp) (s : string) : accepts (Star a) "" s.
Proof. intros k caps Hk. cbn [exec String.append]. apply star_falls_back, Hk. Qed.

Lemma free_of_skip (c : ascii) (n : nat) (a : string) :
  free_of c a = true -> free_of c (skip n a) = true.
Proof.
  revert a. induction n as [| n IH]; intros a H; [exact H |].
  destruct a as [| x a]; [reflexivity |]. cbn in H.
  apply andb_true_iff in H. destruct H as [_ H]. cbn. apply IH, H.
Qed.

Lemma star_not_byte (c : ascii) (s : string) (k : cont) :
  next_ok s ->
  (forall caps', k s caps' <> None) ->
  forall fuel a caps,
    String.length a < fuel ->
    free_of c a = true ->
    star (exec (NotByte c)) fuel (a ++ s) caps k <> None.
Proof.
  intros Hs Hk. induction fuel as [| fuel IH]; intros a caps Hlen Hfree;
    [lia |].
  destruct a as [| x a].
  - apply star_falls_back, Hk.
  - cbn [star].
    match goal with |- match ?e with _ => _ end <> _ => assert (He : e <> None) end.
    { cbn [exec String.append]. cbn in Hfree.
      apply andb_true_iff in Hfree. destruct Hfree as [Hx Hfree].
      apply negb_true_iff in Hx. rewrite Hx.
      pose proof (rune_size_pos x (a ++ s)) as Hpos.
      pose proof (rune_size_conts x (a ++ s)) as Hconts.
      apply (conts_within _ _ _ Hs) in Hconts.
      destruct (rune_size (String x (a ++ s))) as [| n]; [lia |].
      cbn [skip]. cbn in Hconts. rewrite Nat.sub_0_r in Hconts.
      rewrite (skip_within n a s Hconts).
      replace (Nat.ltb (String.length (skip n a ++ s))
                       (String.length (String x (a ++ s)))) with true.
      - apply IH; [| apply free_of_skip, Hfree].
        rewrite length_skip. cbn in Hlen. lia.
      - symmetry. apply Nat.ltb_lt.
        cbn [String.length]. rewrite !length_append, length_skip. lia. }
    match goal with |- match ?e with _ => _ end <> _ => destruct e end;
      [discriminate | congruence].
Qed.

Lemma accepts_Star_NotByte (c : ascii) (a s : string) :
  free_of c a = true -> next_ok s -> accepts (Star (NotByte c)) a s.
Proof.
  intros Hfree Hs k caps Hk. cbn [exec].
  apply star_not_byte; try assumption. rewrite length_append. lia.
Qed.

Lemma search_complete (re : regexp) (init : captures) (h : ascii)
      (t : string) :
  is_cont h = false ->
  exec re (String h t) init accept <> None ->
  forall before pending,
    conts pending (before ++ String h t) = true ->
    search re init pending (before ++ String h t) <> None.
Proof.
  intros Hh Hm. induction before as [| c before IH]; intros pending Hp.
  - cbn [String.append] in *. destruct pending as [| p].
    + cbn [search]. destruct (exec re (String h t) init accept);
        [discriminate | congruence].
    + cbn in Hp. rewrite Hh in Hp. discriminate.
  - cbn [String.append search]. destruct pending as [| p].
    + destruct (exec re (String c (before ++ String h t)) init accept);
        [discriminate |].
      apply IH, rune_size_conts.
    + apply IH. cbn in Hp. apply andb_true_iff in Hp. apply Hp.
Qed.

Lemma MatchString_shape (reference : string) :
  MatchString ReleaseURL reference = true -> release_download_shape reference.
Proof.
  unfold MatchString. intros H.
  destruct (search (Group 0 ReleaseURL)
                   (repeat "" (S (NumSubexp ReleaseURL))) 0 reference)
    as [r |] eqn:E; [clear H | discriminate].
  apply search_sound in E. destruct E as (before & m & -> & E).
  apply exec_sound in E. destruct E as (a & s' & _ & -> & Ha & _).
  cbn [denotes ReleaseURL sequence fold_right] in Ha.
  destruct Ha as (x1 & r1 & -> & -> & dot & r2 & -> & [Hdot Hget]
                  & x2 & r3 & -> & -> & org & r4 & -> & Horg
                  & x3 & r5 & -> & -> & project & r6 & -> & Hproject
                  & x4 & r7 & -> & -> & tag & r8 & -> & Htag
                  & x5 & r9 & -> & -> & file & r10 & -> & _ & ->).
  exists before, dot, org, project, tag, (file ++ "" ++ s').
  split; [rewrite !append_assoc; reflexivity |].
  split; [exact Hdot |].
  split; [intros ->; apply Hget; reflexivity |].
  repeat split; apply star_not_byte_free; try assumption; reflexivity.
Qed.

Lemma shape_MatchString (reference : string) :
  release_download_shape reference -> MatchString ReleaseURL reference = true.
Proof.
  intros (before & dot & org & project & tag & fileName
          & -> & Hdot & Hnl & Horg & Hproject & Htag).
  assert (Hget : String.get 0 dot <> Some "010"%char).
  { destruct Hdot as [Hd Hsize]. destruct dot as [| x t]; [congruence |].
    cbn. intros E. injection E as ->. apply Hnl.
    unfold rune_size in Hsize. cbn in Hsize. destruct t; [reflexivity |].
    cbn in Hsize. lia. }
  assert (Hexec : forall caps,
             exec (Group 0 ReleaseURL)
                  ("https://github" ++ dot ++ "com/" ++ org ++ "/" ++ project
                     ++ "/releases/download/" ++ tag ++ "/" ++ fileName)
                  caps accept <> None).
  { intros caps.
    assert (Hacc : accepts (Group 0 ReleaseURL)
                     ("https://github" ++ dot ++ "com/" ++ org ++ "/"
                        ++ project ++ "/releases/download/" ++ tag ++ "/"
                        ++ "" ++ "") fileName).
    { apply accepts_Group. unfold ReleaseURL.
      cbn [sequence fold_right].
      apply accepts_Seq; [apply accepts_Lit |].
      apply accepts_Seq;
        [apply accepts_AnyNotNL; [exact Hdot | exact Hget | reflexivity] |].
      apply accepts_Seq; [apply accepts_Lit |].
      apply accepts_Seq;
        [apply accepts_Group, accepts_Star_NotByte;
         [exact Horg | reflexivity] |].
      apply accepts_Seq; [apply accepts_Lit |].
      apply accepts_Seq;
        [apply accepts_Group, accepts_Star_NotByte;
         [exact Hproject | reflexivity] |].
      apply accepts_Seq; [apply accepts_Lit |].
      apply accepts_Seq;
        [apply accepts_Group, accepts_Star_NotByte;
         [exact Htag | reflexivity] |].
      apply accepts_Seq; [apply accepts_Lit |].
      apply accepts_Seq;
        [apply accepts_Group, accepts_Star_empty | apply accepts_Lit]. }
    specialize (Hacc accept caps (fun _ => ltac:(discriminate))).
    rewrite !append_assoc in Hacc. exact Hacc. }
  unfold MatchString.
  match goal with
  | |- match ?e with _ => _ end = _ => assert (Hs : e <> None)
  end.
  { apply (search_complete (Group 0 ReleaseURL) _ "h"%char
             ("ttps://github" ++ dot ++ "com/" ++ org ++ "/" ++ project
                ++ "/releases/download/" ++ tag ++ "/" ++ fileName));
      [reflexivity | apply Hexec | reflexivity]. }
  match goal with
  | |- match ?e with _ => _ end = _ => destruct e
  end; [reflexivity | congruence].
Qed.

End RegexpFacts.

(** ** The reference classifier *)

Module referenceClaims.
Import GoStringFacts RegexpFacts reference.

(** C7.  [classify] returns [ReleaseAsset] exactly on the references that
    have the release-download shape, and [Direct] exactly on all the
    others. *)
Theorem classify_release_asset_iff_shape (reference : string) :
  (classify reference = ReleaseAsset <-> release_download_shape reference)
  /\ (classify reference = Direct <-> ~ release_download_shape reference).
Proof.
  unfold classify. split; split.
  - intros H. apply MatchString_shape.
    destruct (MatchString ReleaseURL reference); [reflexivity | discriminate].
  - intros H. rewrite (shape_MatchString _ H). reflexivity.
  - intros H Hshape. rewrite (shape_MatchString _ Hshape) in H. discriminate.
  - intros H. destruct (MatchString ReleaseURL reference) eqn:E;
      [| reflexivity].
    exfalso. apply H, MatchString_shape, E.
Qed.

End referenceClaims.

(** ** github/github.go *)

Module githubFacts.
Import github GoStringFacts.

Lemma addHeaders_stops_at_first_invalid
      (good : list string) (bad : string) (rest : list string) :
  Forall well_formed good ->
  ~ well_formed bad ->
  forall req,
    snd (addHeaders (good ++ bad :: rest) req) = Some (invalid_header bad).
Proof.
  unfold well_formed. intros Hgood Hbad.
  induction Hgood as [| h good Hh _ IH]; intros req.
  - cbn [app addHeaders]. rewrite Split_byte_length.
    destruct (Nat.eqb (S (count_byte "=" bad)) 2) eqn:E.
    + apply Nat.eqb_eq in E. exfalso. apply Hbad. lia.
    + reflexivity.
  - cbn [app addHeaders]. rewrite Split_byte_length, Hh. cbn [Nat.eqb negb].
    apply IH.
Qed.

(** A list with an entry that is not well formed has a first such entry. *)
Lemma first_invalid_header (headers : list string) :
  Exists (fun h => ~ well_formed h) headers ->
  exists good bad rest,
    headers = (good ++ bad :: rest)%list
    /\ Forall well_formed good
    /\ ~ well_formed bad.
Proof.
  induction headers as [| h headers IH]; intros H; [inversion H |].
  destruct (Nat.eq_dec (count_byte "=" h) 1) as [Hh | Hh].
  - destruct IH as (good & bad & rest & -> & Hgood & Hbad).
    + inversion H as [? ? Hn | ? ? Ht]; subst; [contradiction | exact Ht].
    + exists (h :: good), bad, rest.
      split; [reflexivity |]. split; [constructor; assumption | exact Hbad].
  - exists [], h, headers.
    split; [reflexivity |]. split; [constructor | exact Hh].
Qed.

Lemma findAsset_find (url : string) (assets : list asset) :
  findAsset url assets =
  match List.find (fun a => String.eqb (BrowserDownloadURL a) url) assets
  with
  | Some a => (URL a, None)
  | None => ("", Some ("Unable to find this release: " ++ url))
  end.
Proof.
  induction assets as [| a rest IH]; cbn [findAsset List.find].
  - reflexivity.
  - destruct (String.eqb (BrowserDownloadURL a) url); [reflexivity | apply IH].
Qed.

(** Once the pattern has matched, [AssetUrl] is what follows line 30. *)
Lemma AssetUrl_matched (net : Net) (url : string) (headers : list string)
      (whole org project tag file : string) (w : World net) :
  FindStringSubmatch ReleaseURL url = [whole; org; project; tag; file] ->
  AssetUrl net url headers w =
  match NewRequest net "GET" (assetsUrl org project tag) with
  | inr err => (Ok ("", Some err), w, [])
  | inl req0 =>
      match addHeaders headers req0 with
      | (_, Some err) => (Ok ("", Some err), w, [])
      | (req, None) =>
          match Do net req w with
          | (inr err, w1) => (Ok ("", Some err), w1, [EvDo req (inr err)])
          | (inl resp, w1) =>
              if Z.geb (StatusCode resp) StatusBadRequest
              then (Ok ("", Some (Status resp)), Close net resp w1,
                    [EvDo req (inl resp); EvClose resp])
              else
                match ReadAll net resp w1 with
                | (inr err, w2) =>
                    (Ok ("", Some err), Close net resp w2,
                     [EvDo req (inl resp); EvReadAll resp (inr err);
                      EvClose resp])
                | (inl body, w2) =>
                    (Ok (match Unmarshal net body with
                         | inr err => ("", Some err)
                         | inl rel => findAsset url (Assets rel)
                         end), Close net resp w2,
                     [EvDo req (inl resp); EvReadAll resp (inl body);
                      EvClose resp])
                end
          end
      end
  end.
Proof.
  intros Hparts. unfold AssetUrl. rewrite Hparts.
  cbn [index_at nth_error]. rewrite !bind_ret.
  fold (assetsUrl org project tag).
  destruct (NewRequest net "GET" (assetsUrl org project tag)) as [req0 | err];
    [| reflexivity].
  destruct (addHeaders headers req0) as [req [err |]]; [reflexivity |].
  rewrite bind_call.
  destruct (Do net req w) as [[resp | err] w1]; cbn [fst snd];
    [| reflexivity].
  destruct (Z.geb (StatusCode resp) StatusBadRequest).
  - reflexivity.
  - rewrite bind_assoc, bind_call.
    destruct (ReadAll net resp w1) as [[body | err] w2]; cbn [fst snd];
      [| reflexivity].
    destruct (Unmarshal net body) as [rel | err]; reflexivity.
Qed.

End githubFacts.

Module githubClaims.
Import github githubFacts.

Lemma AssetUrl_unmatched (net : Net) (url : string) (headers : list string)
      (w : World net) :
  FindStringSubmatch ReleaseURL url = [] ->
  AssetUrl net url headers w
  = (Panic "runtime error: index out of range", w, []).
Proof. intros H. unfold AssetUrl. rewrite H. reflexivity. Qed.

Lemma unmatched_is_nil (re : regexp) (s : string) :
  MatchString re s = false -> FindStringSubmatch re s = [].
Proof.
  unfold MatchString, FindStringSubmatch.
  destruct (search (Group 0 re) (repeat "" (S (NumSubexp re))) 0 s);
    [discriminate | reflexivity].
Qed.

(** C1.  On every reference that does not have the release-download shape
    [AssetUrl] panics: there is no check of the match, [FindStringSubmatch]
    returns the nil slice, and reading [parts[1]] of it is an index out of
    range.  No error is returned, no header is read and no request is made.
    The specification asks for an error there. *)
Theorem AssetUrl_panics_on_malformed_reference
        (net : Net) (url : string) (headers : list string) (w : World net) :
  ~ reference.release_download_shape url ->
  AssetUrl net url headers w
  = (Panic "runtime error: index out of range", w, []).
Proof.
  intros H. apply AssetUrl_unmatched, unmatched_is_nil.
  destruct (MatchString ReleaseURL url) eqn:E; [| reflexivity].
  exfalso. apply H, RegexpFacts.MatchString_shape, E.
Qed.

Lemma AssetUrl_panics_on_malformed_reference_witness :
  ~ reference.release_download_shape "http://example.com/file.zip"
  /\ AssetUrl Mock.github_store "http://example.com/file.zip"
              ["Accept=application/json"]
              (0 : World Mock.github_store)
     = (Panic "runtime error: index out of range", 0, []).
Proof.
  assert (H : ~ reference.release_download_shape "http://example.com/file.zip").
  { intros H. apply RegexpFacts.shape_MatchString in H.
    vm_compute in H. discriminate. }
  split; [exact H |].
  exact (AssetUrl_panics_on_malformed_reference Mock.github_store
           "http://example.com/file.zip" ["Accept=application/json"] 0 H).
Defined.

Lemma findAsset_first (url : string) (before : list asset) (a : asset)
      (after : list asset) :
  Forall (fun x => BrowserDownloadURL x <> url) before ->
  BrowserDownloadURL a = url ->
  findAsset url (before ++ a :: after) = (URL a, None).
Proof.
  intros Hb Ha. induction Hb as [| x before Hx _ IH]; cbn [app findAsset].
  - rewrite Ha, String.eqb_refl. reflexivity.
  - apply String.eqb_neq in Hx. rewrite Hx. exact IH.
Qed.

Lemma findAsset_none (url : string) (assets : list asset) :
  Forall (fun x => BrowserDownloadURL x <> url) assets ->
  findAsset url assets = ("", Some (release_not_found url)).
Proof.
  intros H. induction H as [| x l Hx _ IH]; cbn [findAsset].
  - reflexivity.
  - apply String.eqb_neq in Hx. rewrite Hx. exact IH.
Qed.

(** C4.  When the reference matches, the request is built, the headers
    are accepted and the store answers below 400 with a body that parses
    as [rel]: [AssetUrl] returns the [url] field of the first asset, in
    the order of the answer, whose [browser_download_url] is the
    reference, and the error [Unable to find this release: <reference>]
    when no asset has it. *)
Theorem AssetUrl_first_exact_match
        (net : Net) (url : string) (headers : list string)
        (whole org project tag file : string) (req0 req : Request)
        (resp : Response) (body : string) (rel : release)
        (w w1 w2 : World net) :
  FindStringSubmatch ReleaseURL url = [whole; org; project; tag; file] ->
  NewRequest net "GET" (assetsUrl org project tag) = inl req0 ->
  addHeaders headers req0 = (req, None) ->
  Do net req w = (inl resp, w1) ->
  (StatusCode resp < StatusBadRequest)%Z ->
  ReadAll net resp w1 = (inl body, w2) ->
  Unmarshal net body = inl rel ->
  let events := [EvDo req (inl resp); EvReadAll resp (inl body);
                 EvClose resp] in
  (forall before a after,
      Assets rel = (before ++ a :: after)%list ->
      Forall (fun x => BrowserDownloadURL x <> url) before ->
      BrowserDownloadURL a = url ->
      AssetUrl net url headers w
      = (Ok (URL a, None), Close net resp w2, events))
  /\ (Forall (fun x => BrowserDownloadURL x <> url) (Assets rel) ->
      AssetUrl net url headers w
      = (Ok ("", Some (release_not_found url)), Close net resp w2, events)).
Proof.
  intros Hparts Hreq Hhead Hdo Hstatus Hread Hjson events.
  assert (Hrun : AssetUrl net url headers w
                 = (Ok (findAsset url (Assets rel)), Close net resp w2,
                    events)).
  { rewrite (AssetUrl_matched net url headers _ _ _ _ _ w Hparts).
    rewrite Hreq, Hhead, Hdo.
    replace (Z.geb (StatusCode resp) StatusBadRequest) with false
      by (symmetry; rewrite Z.geb_leb; apply Z.leb_gt; exact Hstatus).
    rewrite Hread, Hjson. reflexivity. }
  split.
  - intros before a after Hassets Hbefore Ha.
    rewrite Hrun, Hassets, (findAsset_first url before a after Hbefore Ha).
    reflexivity.
  - intros Hnone. rewrite Hrun, (findAsset_none url _ Hnone). reflexivity.
Qed.

Lemma AssetUrl_first_exact_match_witness :
  FindStringSubmatch ReleaseURL Mock.release_url
  = [Mock.release_url; "org"; "tool"; "v1.2"; "tool.zip"]
  /\ AssetUrl Mock.github_store Mock.release_url ["Authorization=token abc"]
              (0 : World Mock.github_store)
     = (Ok ("https://api.github.com/repos/org/tool/releases/assets/2", None),
        3,
        [EvDo {| Method := "GET";
                 RequestURL :=
                   "https://api.github.com/repos/org/tool/releases/tags/v1.2";
                 Header := [("Authorization", "token abc")] |}
              (inl {| StatusCode := 200; Status := "status";
                      Body := "body" |});
         EvReadAll {| StatusCode := 200; Status := "status"; Body := "body" |}
                   (inl "body");
         EvClose {| StatusCode := 200; Status := "status"; Body := "body" |}]).
Proof.
  assert (Hparts : FindStringSubmatch ReleaseURL Mock.release_url
                   = [Mock.release_url; "org"; "tool"; "v1.2"; "tool.zip"])
    by (vm_compute; reflexivity).
  split; [exact Hparts |].
  edestruct (AssetUrl_first_exact_match
               Mock.github_store Mock.release_url ["Authorization=token abc"])
    as [Hfirst _];
    [exact Hparts | reflexivity | reflexivity | reflexivity | reflexivity
     | reflexivity | reflexivity |].
  apply (Hfirst [Mock.asset1] Mock.asset2 [Mock.asset3]).
  - reflexivity.
  - constructor; [vm_compute; discriminate | constructor].
  - reflexivity.
Defined.

(** A header with no [=] at all is refused as well. *)
Example header_without_separator :
  AssetUrl Mock.github_store Mock.release_url ["abc"]
           (0 : World Mock.github_store)
  = (Ok ("", Some "Invalid header [abc]. Should be [key=value]"), 0, []).
Proof. vm_compute. reflexivity. Qed.

End githubClaims.

(** ** main.go *)

Module mainFacts.
Import main Trace.

(** Peel the recorded events off a run. *)
Ltac unprepend H :=
  repeat (apply prepend_inv in H;
          let t := fresh "t" in destruct H as (t & H & ->));
  cbn [world force] in *.

(** A run that has ended. *)
Ltac finished H := injection H as <- <- <-.

Section MainFacts.
Variable sys : Sys.

Lemma bind_outside {R B} (f : World sys -> R * World sys)
      (e : R -> Event sys) (k : R -> Cmd sys B) (st : State sys) :
  bind (outside sys f e) k st
  = prepend [e (fst (f (world st)))]
      (k (fst (f (world st)))
         {| world := snd (f (world st)); force := force st |}).
Proof.
  unfold outside. rewrite bind_call.
  destruct (f (world st)) as [x w]. reflexivity.
Qed.

Lemma bind_inspect {R B} (r : R) (e : R -> Event sys)
      (k : R -> Cmd sys B) (st : State sys) :
  bind (inspect sys r e) k st = prepend [e r] (k r st).
Proof.
  unfold inspect. rewrite bind_assoc, bind_emit, bind_ret. reflexivity.
Qed.

Lemma bind_sleep {B} (d : Z) (k : unit -> Cmd sys B) (st : State sys) :
  bind (sleep sys d) k st
  = prepend [EvSleep d]
      (k tt {| world := Sleep sys d (world st); force := force st |}).
Proof. unfold sleep. rewrite bind_outside. reflexivity. Qed.

Lemma Download_run (url : string) (options : Options) (st : State sys) :
  Download sys url options st =
  match cache_Download sys url options (force st) (world st) with
  | (r, w) =>
      (Ok (error_of r), {| world := w; force := force st |},
       download_events url options (force st) r)
  end.
Proof.
  unfold Download. rewrite bind_emit, bind_gets, bind_outside.
  destruct (cache_Download sys url options (force st) (world st))
    as [[source | err] w]; cbn [fst snd]; reflexivity.
Qed.

Lemma waitQueue_inv (fuel : nat) (taskId : Z) (st : State sys)
      (out : result (option string)) (st' : State sys)
      (tr : list (Event sys)) :
  waitQueue sys fuel taskId st = (out, st', tr) ->
  forallb queue_event tr = true
  /\ force st' = force st
  /\ forall msg, out <> Panic msg.
Proof.
  revert st out st' tr.
  induction fuel as [| fuel IH]; intros st out st' tr H.
  - finished H. repeat split; discriminate.
  - cbn [waitQueue] in H. rewrite bind_outside in H. unprepend H.
    destruct (GetQueue sys (world st)) as [[queue | err] w];
      cbn [fst snd] in H.
    + rewrite bind_inspect in H. unprepend H.
      destruct (GetTaskById sys queue taskId) as [task |].
      * rewrite bind_sleep in H. unprepend H.
        apply IH in H. destruct H as (Ht & Hf & Hp).
        cbn [app forallb queue_event andb]. repeat split; assumption.
      * finished H. repeat split; discriminate.
    + finished H. repeat split; discriminate.
Qed.

Lemma waitBuild_inv (fuel : nat) (job : Job sys) (number : Z)
      (b : Build sys) (st : State sys)
      (out : result (Build sys + string)) (st' : State sys)
      (tr : list (Event sys)) :
  waitBuild sys fuel job number b st = (out, st', tr) ->
  forallb poll_event tr = true
  /\ force st' = force st
  /\ (forall msg, out <> Panic msg)
  /\ forall b', out = Ok (inl b') ->
                exists tw, tr = (tw ++ [EvIsRunning b' false])%list.
Proof.
  revert b st out st' tr.
  induction fuel as [| fuel IH]; intros b st out st' tr H.
  - finished H. repeat split; discriminate.
  - cbn [waitBuild] in H. rewrite bind_outside in H. unprepend H.
    destruct (IsRunning sys b (world st)) as [[|] w]; cbn [fst snd negb] in H.
    + rewrite bind_emit, bind_sleep, bind_outside in H. unprepend H.
      cbn [world force] in H.
      destruct (GetBuild sys job number _) as [[b' | err] w2];
        cbn [fst snd] in H.
      * apply IH in H. destruct H as (Ht & Hf & Hp & Hlast).
        cbn [app forallb poll_event andb].
        split; [assumption |]. split; [assumption |].
        split; [assumption |].
        intros b0 E. destruct (Hlast b0 E) as (tw & ->).
        eexists. rewrite !app_comm_cons. reflexivity.
      * finished H. repeat split; discriminate.
    + finished H. repeat split; try discriminate.
      intros b0 E. injection E as ->. exists []. reflexivity.
Qed.

Lemma bind_inv {A B} (m : Cmd sys A) (k : A -> Cmd sys B) (st : State sys)
      (out : result B) (st' : State sys) (tr : list (Event sys)) :
  bind m k st = (out, st', tr) ->
  exists o1 s1 t1,
    m st = (o1, s1, t1)
    /\ match o1 with
       | Ok a => exists t2, k a s1 = (out, st', t2) /\ tr = (t1 ++ t2)%list
       | Panic msg => out = Panic msg /\ st' = s1 /\ tr = t1
       | OutOfFuel => out = OutOfFuel /\ st' = s1 /\ tr = t1
       end.
Proof.
  unfold bind. destruct (m st) as [[[a | msg |] s1] t1]; intros H.
  - exists (Ok a), s1, t1. split; [reflexivity |].
    destruct (k a s1) as [[r s2] t2]. finished H.
    exists t2. split; reflexivity.
  - finished H. exists (Panic msg), s1, t1. repeat split.
  - finished H. exists OutOfFuel, s1, t1. repeat split.
Qed.

Lemma followBuild_inv (fuel : nat) (job : Job sys) (number : Z)
      (b : Build sys) (binary : string) (options : Options)
      (st : State sys) (out : result (option string)) (st' : State sys)
      (tr : list (Event sys)) :
  followBuild sys fuel job number b binary options st = (out, st', tr) ->
  force st' = force st
  /\ exists tw,
      forallb poll_event tw = true
      /\ ((tr = tw /\ (out = OutOfFuel \/ exists err, out = Ok (Some err)))
          \/ (exists b' tw',
                 tw = (tw' ++ [EvIsRunning b' false])%list
                 /\ tr = (tw ++ [EvIsGood b' false])%list
                 /\ out = Ok (Some "Build failed"))
          \/ (exists b' tw' r,
                 tw = (tw' ++ [EvIsRunning b' false])%list
                 /\ tr = (tw ++ EvIsGood b' true
                             :: download_events binary options (force st) r)%list
                 /\ out = Ok (error_of r))).
Proof.
  unfold followBuild. intros H. apply bind_inv in H.
  destruct H as (o1 & s1 & t1 & Hw & H).
  apply waitBuild_inv in Hw. destruct Hw as (Ht & Hf & Hp & Hlast).
  destruct o1 as [[b' | err] | msg |].
  - destruct (Hlast b' eq_refl) as (tw' & Htw').
    destruct H as (t2 & H & ->). rewrite bind_outside in H. unprepend H.
    destruct (IsGood sys b' (world s1)) as [[|] w]; cbn [fst snd] in H.
    + rewrite Download_run in H. cbn [world force] in H.
      destruct (cache_Download sys binary options (force s1) w) as [r w2].
      finished H. cbn [force]. split; [exact Hf |].
      exists t1. split; [exact Ht |]. right. right. exists b', tw', r.
      rewrite Hf. split; [exact Htw' |]. split; reflexivity.
    + finished H. cbn [force]. split; [exact Hf |].
      exists t1. split; [exact Ht |]. right. left. exists b', tw'.
      split; [exact Htw' |]. split; reflexivity.
  - destruct H as (t2 & H & ->). finished H.
    split; [exact Hf |]. exists t1. split; [exact Ht |]. left.
    rewrite app_nil_r. split; [reflexivity | right; eexists; reflexivity].
  - exfalso. exact (Hp msg eq_refl).
  - destruct H as (-> & -> & ->). split; [exact Hf |].
    exists t1. split; [exact Ht |]. left.
    split; [reflexivity | left; reflexivity].
Qed.

Lemma scanBuilds_inv (fuel : nat) (job : Job sys) (commit binary : string)
      (options : Options) (ids : list JobBuild) (st : State sys)
      (out : result (option string)) (st' : State sys)
      (tr : list (Event sys)) :
  scanBuilds sys fuel job commit binary options ids st = (out, st', tr) ->
  exists passed rest tail,
    ids = (map fst passed ++ rest)%list
    /\ tr = (passed_events job passed ++ tail)%list
    /\ Forall (fun ib => other_commit commit (snd ib)) passed
    /\ scan_end fuel job commit binary options (force st) rest tail out st'.
Proof.
  revert st out st' tr.
  induction ids as [| id ids IH]; intros st out st' tr H.
  - finished H. exists [], [], [].
    repeat split; constructor.
  - cbn [scanBuilds] in H. rewrite bind_outside in H. unprepend H.
    destruct (GetBuild sys job (Number id) (world st)) as [[b | err] w];
      cbn [fst snd] in H.
    + rewrite bind_inspect in H. unprepend H.
      destruct (GetParameters sys b) as [| p ps] eqn:Hp.
      * cbn [index_at nth_error] in H. rewrite bind_panic in H.
        finished H. exists [], (id :: ids); eexists.
        split; [reflexivity |]. split; [reflexivity |].
        split; [constructor |]. right. left. exists b.
        split; [exact Hp |]. split; reflexivity.
      * cbn [index_at nth_error] in H. rewrite bind_ret in H.
        destruct (String.eqb (Value p) commit) eqn:E.
        -- exists [], (id :: ids); eexists.
           split; [reflexivity |]. split; [reflexivity |].
           split; [constructor |]. right. right.
           exists b, {| world := w; force := force st |}; eexists.
           split; [exists p, ps; split;
                   [exact Hp | apply String.eqb_eq; exact E] |].
           rewrite Hp. split; [reflexivity |].
           split; [reflexivity | exact H].
        -- apply IH in H.
           destruct H as (passed & rest & tail & Hi & Ht & Hf & He).
           exists ((id, b) :: passed), rest, tail.
           split; [cbn [map fst app]; rewrite Hi; reflexivity |].
           split; [cbn [passed_events flat_map fst snd app];
                   rewrite Hp, Ht; reflexivity |].
           split; [| exact He].
           constructor; [| exact Hf].
           exists p, ps. split; [exact Hp | apply String.eqb_neq; exact E].
    + finished H. exists [], (id :: ids); eexists.
      split; [reflexivity |]. split; [reflexivity |].
      split; [constructor |]. left. exists err. split; reflexivity.
Qed.

Lemma queue_is_setup (tq : list (Event sys)) :
  forallb queue_event tq = true -> forallb setup_event tq = true.
Proof.
  induction tq as [| e tq IH]; [reflexivity |].
  cbn [forallb]. intros H. apply andb_true_iff in H. destruct H as [He Ht].
  rewrite (IH Ht), andb_true_r. destruct e; try discriminate; reflexivity.
Qed.

Lemma Pinata_inv (fuel : nat)
      (jenkins user token bucket commit platform : string)
      (options : Options) (st : State sys)
      (out : result (option string)) (st' : State sys)
      (tr : list (Event sys)) :
  Pinata sys fuel jenkins user token bucket commit platform options st
  = (out, st', tr) ->
  let binary := binary_of bucket commit platform in
  (exists source,
      tr = download_events binary options (force st) (inl source)
      /\ out = Ok None)
  \/ exists err setup,
      forallb setup_event setup = true
      /\ ((tr = (download_events binary options (force st) (inr err)
                  ++ setup)%list
           /\ forall msg, out <> Panic msg)
          \/ exists job ids st1 tr2,
              tr = (download_events binary options (force st) (inr err)
                      ++ setup ++ EvGetAllBuildIds job (inl ids) :: tr2)%list
              /\ force st1 = force st
              /\ scanBuilds sys fuel job commit binary options ids st1
                 = (out, st', tr2)).
Proof.
  intros H binary. unfold Pinata in H.
  fold (binary_of bucket commit platform) in H. fold binary in H.
  apply bind_inv in H. destruct H as (o1 & s1 & t1 & Hd & H).
  rewrite Download_run in Hd.
  destruct (cache_Download sys binary options (force st) (world st))
    as [r w].
  finished Hd. destruct H as (t2 & H & ->).
  destruct r as [source | err]; cbn [error_of] in H.
  - finished H. left. exists source.
    rewrite app_nil_r. split; reflexivity.
  - right. exists err.
    rewrite !bind_emit, bind_outside in H. unprepend H.
    cbn [world force] in H.
    destruct (Init sys jenkins user token w) as [[e |] w1];
      cbn [fst snd] in H.
    { finished H. eexists. split; [| left; split;
        [reflexivity | discriminate]]. reflexivity. }
    rewrite bind_outside in H. unprepend H. cbn [world force] in H.
    destruct (GetJob sys _ w1) as [[job | e] w2]; cbn [fst snd] in H.
    2:{ finished H. eexists. split; [| left; split;
        [reflexivity | discriminate]]. reflexivity. }
    rewrite bind_outside in H. unprepend H. cbn [world force] in H.
    destruct (InvokeSimple sys job _ w2) as [[taskId | e] w3];
      cbn [fst snd] in H.
    2:{ finished H. eexists. split; [| left; split;
        [reflexivity | discriminate]]. reflexivity. }
    rewrite bind_emit in H. unprepend H.
    apply bind_inv in H. destruct H as (o2 & s2 & tq & Hq & H).
    apply waitQueue_inv in Hq. destruct Hq as (Htq & Hfq & Hpq).
    apply queue_is_setup in Htq. cbn [force] in Hfq.
    destruct o2 as [[e |] | msg |].
    + destruct H as (t2 & H & ->). finished H.
      eexists. split; [| left; split; [reflexivity | discriminate]].
      cbn [app forallb setup_event andb]. rewrite forallb_app, Htq.
      reflexivity.
    + destruct H as (t2 & H & ->). rewrite bind_outside in H. unprepend H.
      destruct (GetAllBuildIds sys job (world s2)) as [[ids | e] w5];
        cbn [fst snd] in H.
      * exists ([EvLogSetOutput Stdout] ++ [EvLogPrintln "Trigger jenkins build"]
                  ++ [EvInit jenkins user token None]
                  ++ [EvGetJob ("pinata-" ++ platform ++ "-iso") (inl job)]
                  ++ [EvInvokeSimple job [("COMMIT_ID", commit)] (inl taskId)]
                  ++ [EvLogPrintln "Waiting for queue"] ++ tq)%list.
        split; [cbn [app forallb setup_event andb]; exact Htq |]. right.
        exists job, ids, {| world := w5; force := force s2 |}; eexists.
        split; [| split; [exact Hfq | exact H]].
        reflexivity.
      * finished H.
        exists ([EvLogSetOutput Stdout] ++ [EvLogPrintln "Trigger jenkins build"]
                  ++ [EvInit jenkins user token None]
                  ++ [EvGetJob ("pinata-" ++ platform ++ "-iso") (inl job)]
                  ++ [EvInvokeSimple job [("COMMIT_ID", commit)] (inl taskId)]
                  ++ [EvLogPrintln "Waiting for queue"] ++ tq
                  ++ [EvGetAllBuildIds job (inr e)])%list.
        split.
        -- cbn [app forallb setup_event andb]. rewrite forallb_app, Htq.
           reflexivity.
        -- left. split; [reflexivity | discriminate].
    + exfalso. exact (Hpq msg eq_refl).
    + destruct H as (-> & -> & ->).
      eexists. split; [| left; split; [reflexivity | discriminate]].
      cbn [app forallb setup_event andb]. exact Htq.
Qed.

End MainFacts.

(** *** The bound on the rounds *)

Section Fuel.
Variable sys : Sys.

Lemma prepend_eq {A} (t1 : list (Event sys))
      (x y : result A * State sys * list (Event sys)) :
  x = y -> prepend t1 x = prepend t1 y.
Proof. intros ->. reflexivity. Qed.

Lemma bind_more {A B} (m1 m2 : Cmd sys A) (k1 k2 : A -> Cmd sys B)
      (st : State sys) (out : result B) (st' : State sys)
      (tr : list (Event sys)) :
  (forall o s t, m1 st = (o, s, t) -> o <> OutOfFuel -> m2 st = (o, s, t)) ->
  (forall a s o' s' t', k1 a s = (o', s', t') -> o' <> OutOfFuel ->
                        k2 a s = (o', s', t')) ->
  bind m1 k1 st = (out, st', tr) -> out <> OutOfFuel ->
  bind m2 k2 st = (out, st', tr).
Proof.
  intros Hm Hk H Hout. apply bind_inv in H.
  destruct H as (o1 & s1 & t1 & H1 & H). unfold bind.
  destruct o1 as [a | msg |].
  - rewrite (Hm _ _ _ H1 ltac:(discriminate)).
    destruct H as (t2 & H2 & ->). rewrite (Hk _ _ _ _ _ H2 Hout). reflexivity.
  - rewrite (Hm _ _ _ H1 ltac:(discriminate)).
    destruct H as (-> & -> & ->). reflexivity.
  - destruct H as (-> & _). congruence.
Qed.

(** More rounds do not change a run that ended within its rounds. *)
Lemma waitQueue_more_fuel (n m : nat) (taskId : Z) (st : State sys)
      (out : result (option string)) (st' : State sys)
      (tr : list (Event sys)) :
  waitQueue sys n taskId st = (out, st', tr) -> out <> OutOfFuel -> n <= m ->
  waitQueue sys m taskId st = (out, st', tr).
Proof.
  revert m st out st' tr.
  induction n as [| n IH]; intros m st out st' tr H Hout Hle.
  - finished H. congruence.
  - destruct m as [| m]; [lia |]. cbn [waitQueue] in H |- *.
    revert H Hout. apply bind_more; [intros; assumption |].
    intros [queue | err] s o' s' t'; [| intros; assumption].
    apply bind_more; [intros; assumption |].
    intros [task |] s0 o0 s0' t0; [| intros; assumption].
    apply bind_more; [intros; assumption |].
    intros _ s1 o1 s1' t1 H Hout. apply IH; [assumption | assumption | lia].
Qed.

Lemma waitBuild_more_fuel (n m : nat) (job : Job sys) (number : Z)
      (b : Build sys) (st : State sys)
      (out : result (Build sys + string)) (st' : State sys)
      (tr : list (Event sys)) :
  waitBuild sys n job number b st = (out, st', tr) -> out <> OutOfFuel ->
  n <= m ->
  waitBuild sys m job number b st = (out, st', tr).
Proof.
  revert m b st out st' tr.
  induction n as [| n IH]; intros m b st out st' tr H Hout Hle.
  - finished H. congruence.
  - destruct m as [| m]; [lia |]. cbn [waitBuild] in H |- *.
    revert H Hout. apply bind_more; [intros; assumption |].
    intros running s o' s' t'. destruct (negb running); [intros; assumption |].
    apply bind_more; [intros; assumption |]. intros _ s0 o0 s0' t0.
    apply bind_more; [intros; assumption |]. intros _ s1 o1 s1' t1.
    apply bind_more; [intros; assumption |].
    intros [b' | err] s2 o2 s2' t2; [| intros; assumption].
    intros H Hout. apply IH; [assumption | assumption | lia].
Qed.

Lemma followBuild_more_fuel (n m : nat) (job : Job sys) (number : Z)
      (b : Build sys) (binary : string) (options : Options) (st : State sys)
      (out : result (option string)) (st' : State sys)
      (tr : list (Event sys)) :
  followBuild sys n job number b binary options st = (out, st', tr) ->
  out <> OutOfFuel -> n <= m ->
  followBuild sys m job number b binary options st = (out, st', tr).
Proof.
  intros H Hout Hle. unfold followBuild in *. revert H Hout.
  apply bind_more; [| intros; assumption].
  intros o s t H Ho. apply (waitBuild_more_fuel n); assumption.
Qed.

Lemma scanBuilds_more_fuel (n m : nat) (job : Job sys)
      (commit binary : string) (options : Options) (ids : list JobBuild)
      (st : State sys) (out : result (option string)) (st' : State sys)
      (tr : list (Event sys)) :
  scanBuilds sys n job commit binary options ids st = (out, st', tr) ->
  out <> OutOfFuel -> n <= m ->
  scanBuilds sys m job commit binary options ids st = (out, st', tr).
Proof.
  intros H Hout Hle. revert st out st' tr H Hout.
  induction ids as [| id ids IH]; intros st out st' tr; [intros; assumption |].
  cbn [scanBuilds]. apply bind_more; [intros; assumption |].
  intros [b | err] s o' s' t'; [| intros; assumption].
  apply bind_more; [intros; assumption |]. intros params s0 o0 s0' t0.
  apply bind_more; [intros; assumption |]. intros p0 s1 o1 s1' t1.
  destruct (String.eqb (Value p0) commit); [| apply IH].
  intros H Hout. apply (followBuild_more_fuel n); assumption.
Qed.

(** A run of [Pinata] that ends within the rounds it was allowed is the run
    for any larger allowance: the bound on the rounds only cuts off runs
    that are still waiting. *)
Lemma Pinata_more_fuel (n m : nat)
      (jenkins user token bucket commit platform : string)
      (options : Options) (st : State sys)
      (out : result (option string)) (st' : State sys)
      (tr : list (Event sys)) :
  Pinata sys n jenkins user token bucket commit platform options st
  = (out, st', tr) ->
  out <> OutOfFuel -> n <= m ->
  Pinata sys m jenkins user token bucket commit platform options st
  = (out, st', tr).
Proof.
  intros H Hout Hle. unfold Pinata in *. revert H Hout.
  apply bind_more; [intros; assumption |].
  intros [e |] ? ? ? ?; [| intros; assumption].
  apply bind_more; [intros; assumption |]. intros _ ? ? ? ?.
  apply bind_more; [intros; assumption |]. intros _ ? ? ? ?.
  apply bind_more; [intros; assumption |].
  intros [e1 |] ? ? ? ?; [intros; assumption |].
  apply bind_more; [intros; assumption |].
  intros [job | e2] ? ? ? ?; [| intros; assumption].
  apply bind_more; [intros; assumption |].
  intros [taskId | e3] ? ? ? ?; [| intros; assumption].
  apply bind_more; [intros; assumption |]. intros _ ? ? ? ?.
  apply bind_more.
  - intros ? ? ? H Ho. apply (waitQueue_more_fuel n); assumption.
  - intros [e4 |] ? ? ? ?; [intros; assumption |].
    apply bind_more; [intros; assumption |].
    intros [ids | e5] ? ? ? ?; [| intros; assumption].
    intros H Hout. apply (scanBuilds_more_fuel n); assumption.
Qed.

Lemma prepend_out {A} (t1 : list (Event sys))
      (x : result A * State sys * list (Event sys)) :
  fst (fst (prepend t1 x)) = fst (fst x).
Proof. destruct x as [[r s] t]. reflexivity. Qed.

(** The wait for the queue ends, given rounds enough, in every world in
    which the task leaves the queue. *)
Lemma waitQueue_ends (taskId : Z) (w : World sys) :
  queue_clears taskId w ->
  exists n, forall m f,
      n <= m ->
      fst (fst (waitQueue sys m taskId {| world := w; force := f |}))
      <> OutOfFuel.
Proof.
  induction 1 as [w err w1 Hq | w queue w1 Hq Ht
                  | w queue w1 task Hq Ht _ (n & IH)].
  - exists 1. intros [| m] f Hm; [lia |]. cbn [waitQueue].
    rewrite bind_outside, prepend_out. cbn [world]. rewrite Hq. discriminate.
  - exists 1. intros [| m] f Hm; [lia |]. cbn [waitQueue].
    rewrite bind_outside, prepend_out. cbn [world]. rewrite Hq. cbn [fst snd].
    rewrite bind_inspect, prepend_out, Ht. discriminate.
  - exists (S n). intros [| m] f Hm; [lia |]. cbn [waitQueue].
    rewrite bind_outside, prepend_out. cbn [world]. rewrite Hq. cbn [fst snd].
    rewrite bind_inspect, prepend_out, Ht, bind_sleep, prepend_out.
    apply IH. lia.
Qed.

(** The wait for the build ends, given rounds enough, in every world in
    which the build stops running. *)
Lemma waitBuild_ends (job : Job sys) (number : Z) (b : Build sys)
      (w : World sys) :
  build_settles job number b w ->
  exists n, forall m f,
      n <= m ->
      fst (fst (waitBuild sys m job number b {| world := w; force := f |}))
      <> OutOfFuel.
Proof.
  induction 1 as [b w w1 Hr | b w w1 err w2 Hr Hb
                  | b w w1 b' w2 Hr Hb _ (n & IH)].
  - exists 1. intros [| m] f Hm; [lia |]. cbn [waitBuild].
    rewrite bind_outside, prepend_out. cbn [world]. rewrite Hr. discriminate.
  - exists 1. intros [| m] f Hm; [lia |]. cbn [waitBuild].
    rewrite bind_outside, prepend_out. cbn [world]. rewrite Hr.
    cbn [fst snd negb].
    rewrite bind_emit, prepend_out, bind_sleep, prepend_out, bind_outside,
      prepend_out.
    cbn [world]. rewrite Hb. discriminate.
  - exists (S n). intros [| m] f Hm; [lia |]. cbn [waitBuild].
    rewrite bind_outside, prepend_out. cbn [world]. rewrite Hr.
    cbn [fst snd negb].
    rewrite bind_emit, prepend_out, bind_sleep, prepend_out, bind_outside,
      prepend_out.
    cbn [world]. rewrite Hb. cbn [fst snd force]. apply IH. lia.
Qed.

End Fuel.

End mainFacts.

Module mainClaims.
Import main Trace mainFacts.

Section MainClaims.
Variable sys : Sys.

Lemma bind_Download {B} (url : string) (options : Options)
      (k : option string -> Cmd sys B) (st : State sys) :
  bind (Download sys url options) k st
  = match cache_Download sys url options (force st) (world st) with
    | (r, w) =>
        prepend (download_events url options (force st) r)
                (k (error_of r) {| world := w; force := force st |})
    end.
Proof.
  unfold bind at 1. rewrite Download_run.
  destruct (cache_Download sys url options (force st) (world st))
    as [r w].
  reflexivity.
Qed.

(** Events of one kind are not of another. *)
Lemma none_of (p q : Event sys -> bool) (tr : list (Event sys)) :
  (forall e, p e = true -> q e = false) ->
  forallb p tr = true -> filter q tr = [].
Proof.
  intros Hpq. induction tr as [| e tr IH]; [reflexivity |].
  cbn [forallb filter]. intros H. apply andb_true_iff in H.
  destruct H as [He Ht]. rewrite (Hpq e He). exact (IH Ht).
Qed.

Lemma not_among (p : Event sys -> bool) (tr : list (Event sys))
      (e : Event sys) :
  forallb p tr = true -> p e = false -> ~ In e tr.
Proof.
  intros H He Hin. rewrite forallb_forall in H.
  rewrite (H e Hin) in He. discriminate.
Qed.

Lemma setup_no_fetch (tr : list (Event sys)) :
  forallb setup_event tr = true -> fetches tr = [].
Proof.
  apply none_of. intros e; destruct e; try discriminate; reflexivity.
Qed.

Lemma poll_no_fetch (tr : list (Event sys)) :
  forallb poll_event tr = true -> fetches tr = [].
Proof.
  apply none_of. intros e; destruct e; try discriminate; reflexivity.
Qed.

Lemma passed_no_fetch (job : Job sys) (passed : list (JobBuild * Build sys)) :
  fetches (passed_events job passed) = [].
Proof.
  induction passed as [| ib passed IH]; [reflexivity | exact IH].
Qed.

Lemma fetches_download (url : string) (options : Options) (f : bool)
      (r : string + string) :
  fetches (sys := sys) (download_events url options f r)
  = [EvCacheDownload url options f r].
Proof. destruct r; reflexivity. Qed.

Lemma fetches_app (a b : list (Event sys)) :
  fetches (a ++ b) = (fetches a ++ fetches b)%list.
Proof. apply filter_app. Qed.

Lemma fetches_other (e : Event sys) (tr : list (Event sys)) :
  is_fetch e = false -> fetches (e :: tr) = fetches tr.
Proof. intros H. unfold fetches. cbn [filter]. rewrite H. reflexivity. Qed.

(** C6.  When the first cache fetch succeeds, [Pinata] returns [nil] after
    the three events of [Download]: the log is silenced, the cache store is
    asked once, the path is printed.  None of them is a call to the CI
    system, whatever the number of rounds allowed to the waits. *)
Theorem Pinata_cache_hit
        (fuel : nat) (jenkins user token bucket commit platform : string)
        (options : Options) (st : State sys) (source : string)
        (w : World sys) :
  cache_Download sys (binary_of bucket commit platform) options (force st)
                 (world st) = (inl source, w) ->
  let tr := [EvLogSetOutput Discard;
             EvCacheDownload (binary_of bucket commit platform) options
                             (force st) (inl source);
             EvPrintln source] in
  Pinata sys fuel jenkins user token bucket commit platform options st
  = (Ok None, {| world := w; force := force st |}, tr)
  /\ forallb (fun e => negb (is_ci e)) tr = true.
Proof.
  intros H tr. split; [| reflexivity].
  unfold Pinata. fold (binary_of bucket commit platform).
  rewrite bind_Download, H. reflexivity.
Qed.

Section Keeps.
Variable options : Options.
Variable f : bool.

Lemma keeps_ret {A} (a : A) : keeps options f (ret a : Cmd sys A).
Proof. intros st out st' tr Hf H. finished H. split; [exact Hf | constructor]. Qed.

Lemma keeps_panic {A} (msg : string) :
  keeps options f (panic msg : Cmd sys A).
Proof. intros st out st' tr Hf H. finished H. split; [exact Hf | constructor]. Qed.

Lemma keeps_out_of_fuel {A} : keeps options f (out_of_fuel : Cmd sys A).
Proof. intros st out st' tr Hf H. finished H. split; [exact Hf | constructor]. Qed.

Lemma keeps_bind {A B} (m : Cmd sys A) (k : A -> Cmd sys B) :
  keeps options f m -> (forall a, keeps options f (k a)) ->
  keeps options f (bind m k).
Proof.
  intros Hm Hk st out st' tr Hf H. apply bind_inv in H.
  destruct H as (o1 & s1 & t1 & H1 & H).
  destruct (Hm _ _ _ _ Hf H1) as (Hf1 & Ht1).
  destruct o1 as [a | msg |].
  - destruct H as (t2 & H2 & ->).
    destruct (Hk a _ _ _ _ Hf1 H2) as (Hf2 & Ht2).
    split; [exact Hf2 | apply Forall_app; split; assumption].
  - destruct H as (_ & -> & ->). split; assumption.
  - destruct H as (_ & -> & ->). split; assumption.
Qed.

Lemma keeps_emit (e : Event sys) :
  fetch_with options f e -> keeps options f (emit e : Cmd sys unit).
Proof.
  intros He st out st' tr Hf H. finished H.
  split; [exact Hf | repeat constructor; exact He].
Qed.

Lemma keeps_outside {R} (c : World sys -> R * World sys)
      (e : R -> Event sys) :
  (forall r, fetch_with options f (e r)) ->
  keeps options f (outside sys c e).
Proof.
  intros He st out st' tr Hf H. unfold outside, call in H.
  destruct (c (world st)) as [r w]. finished H.
  split; [exact Hf | repeat constructor; apply He].
Qed.

Lemma keeps_inspect {R} (r : R) (e : R -> Event sys) :
  fetch_with options f (e r) -> keeps options f (inspect sys r e).
Proof.
  intros He. unfold inspect. apply keeps_bind;
    [apply keeps_emit, He | intros _; apply keeps_ret].
Qed.

Lemma keeps_index_at {A} (xs : list A) (i : nat) :
  keeps options f (index_at xs i : Cmd sys A).
Proof.
  unfold index_at. destruct (nth_error xs i);
    [apply keeps_ret | apply keeps_panic].
Qed.

(** The fetch all commands start from: the variable is read, and passed
    on with the options. *)
Lemma keeps_fetch {B} (url : string) (k : string + string -> Cmd sys B) :
  (forall r, keeps options f (k r)) ->
  keeps options f
    (g <- gets force ;;
     r <- outside sys (cache_Download sys url options g)
                  (EvCacheDownload url options g) ;;
     k r).
Proof.
  intros Hk st out st' tr Hf H. rewrite bind_gets in H. revert H.
  apply keeps_bind; [| exact Hk | exact Hf].
  apply keeps_outside. intros r. rewrite Hf. split; reflexivity.
Qed.

Ltac keeps_step :=
  first [ apply keeps_ret | apply keeps_panic | apply keeps_out_of_fuel
        | apply keeps_index_at
        | apply keeps_emit; exact I
        | apply keeps_outside; intros ?; exact I
        | apply keeps_inspect; exact I
        | apply keeps_fetch; intros ?
        | solve [auto]
        | match goal with
          | |- keeps _ _ (match ?x with _ => _ end) => destruct x
          | |- keeps _ _ (bind _ _) => apply keeps_bind; [| intros ?]
          end ].

Lemma keeps_Download (url : string) :
  keeps options f (Download sys url options).
Proof. unfold Download. repeat keeps_step. Qed.

Lemma keeps_Copy (url destination : string) :
  keeps options f (Copy sys url options destination).
Proof. unfold Copy. repeat keeps_step. Qed.

Lemma keeps_Extract (url destinationDirectory : string) :
  keeps options f (Extract sys url options destinationDirectory).
Proof. unfold Extract. repeat keeps_step. Qed.

Lemma keeps_logFiles (url : string) (files : list ExtractedFile) :
  keeps options f (logFiles sys url files).
Proof.
  induction files as [| file files IH]; cbn [logFiles]; repeat keeps_step.
Qed.

Lemma keeps_ExtractFiles (url : string) (files : list ExtractedFile) :
  keeps options f (ExtractFiles sys url options files).
Proof.
  pose proof keeps_logFiles. unfold ExtractFiles. repeat keeps_step.
Qed.

Lemma keeps_waitQueue (fuel : nat) (taskId : Z) :
  keeps options f (waitQueue sys fuel taskId).
Proof.
  induction fuel as [| fuel IH]; cbn [waitQueue]; unfold sleep;
    repeat keeps_step.
Qed.

Lemma keeps_waitBuild (fuel : nat) (job : Job sys) (number : Z)
      (b : Build sys) :
  keeps options f (waitBuild sys fuel job number b).
Proof.
  revert b. induction fuel as [| fuel IH]; intros b; cbn [waitBuild];
    unfold sleep; repeat keeps_step.
Qed.

Lemma keeps_followBuild (fuel : nat) (job : Job sys) (number : Z)
      (b : Build sys) (binary : string) :
  keeps options f (followBuild sys fuel job number b binary options).
Proof.
  pose proof keeps_waitBuild. pose proof keeps_Download.
  unfold followBuild. repeat keeps_step.
Qed.

Lemma keeps_scanBuilds (fuel : nat) (job : Job sys)
      (commit binary : string) (ids : list JobBuild) :
  keeps options f (scanBuilds sys fuel job commit binary options ids).
Proof.
  pose proof keeps_followBuild.
  induction ids as [| id ids IH]; cbn [scanBuilds]; repeat keeps_step.
Qed.

Lemma keeps_Pinata (fuel : nat)
      (jenkins user token bucket commit platform : string) :
  keeps options f
    (Pinata sys fuel jenkins user token bucket commit platform options).
Proof.
  pose proof keeps_Download. pose proof keeps_waitQueue.
  pose proof keeps_scanBuilds.
  unfold Pinata. repeat keeps_step.
Qed.

End Keeps.

Lemma keeps_threads (options : Options) (c : Cmd sys (option string)) :
  (forall f, keeps options f c) -> threads options c.
Proof.
  intros H st out st' tr Hrun.
  destruct (H (force st) st out st' tr eq_refl Hrun) as (Hf & Ht).
  split; [exact Hf |]. intros url o g r Hin.
  rewrite Forall_forall in Ht. exact (Ht _ Hin).
Qed.

(** C8, amended.  [Download], [Copy], [Extract], [ExtractFiles] and
    [Pinata] pass the options they were given, unchanged, to every cache
    fetch; the flag of every fetch is the value the package-level variable
    [force] has when the command starts, and no command writes that
    variable. *)
Theorem commands_thread_options_and_force (options : Options) :
  (forall url, threads options (Download sys url options))
  /\ (forall url destination,
         threads options (Copy sys url options destination))
  /\ (forall url directory,
         threads options (Extract sys url options directory))
  /\ (forall url files,
         threads options (ExtractFiles sys url options files))
  /\ (forall fuel jenkins user token bucket commit platform,
         threads options
           (Pinata sys fuel jenkins user token bucket commit platform
                   options)).
Proof.
  split; [| split; [| split; [| split]]]; intros;
    apply keeps_threads; intros f.
  - apply keeps_Download.
  - apply keeps_Copy.
  - apply keeps_Extract.
  - apply keeps_ExtractFiles.
  - apply keeps_Pinata.
Qed.


Lemma logFiles_run (url : string) (files : list ExtractedFile)
      (st : State sys) :
  logFiles sys url files st = (Ok tt, st, files_log url files).
Proof.
  induction files as [| file files IH]; [reflexivity |].
  cbn [logFiles files_log map]. rewrite bind_emit, IH. reflexivity.
Qed.

Lemma bind_fetch {B} (url : string) (options : Options)
      (k : string + string -> Cmd sys B) (st : State sys) :
  (g <- gets force ;;
   r <- outside sys (cache_Download sys url options g)
                (EvCacheDownload url options g) ;;
   k r) st
  = match cache_Download sys url options (force st) (world st) with
    | (r, w) => prepend [EvCacheDownload url options (force st) r]
                        (k r {| world := w; force := force st |})
    end.
Proof.
  rewrite bind_gets, bind_outside.
  destruct (cache_Download sys url options (force st) (world st)) as [r w].
  reflexivity.
Qed.

Lemma outside_is_run {R} (c : World sys -> R * World sys)
      (e : R -> Event sys) (st : State sys) :
  outside sys c e st = outside_run c e (force st) (world st).
Proof.
  unfold outside, call, outside_run.
  destruct (c (world st)) as [r w]. reflexivity.
Qed.

(** C9, amended.  After a cache fetch that gives the local path [source],
    [Extract] and [ExtractFiles] choose by the reference alone: the zip
    implementation when [urls.IsZipArchive] accepts the reference, else the
    tar implementation when [urls.IsTarArchive] accepts it, and else they
    return the error [Unsupported archive: <source>], which carries the
    local path, without calling either implementation. *)
Theorem Extract_routes_by_reference
        (url : string) (options : Options) (st : State sys)
        (source : string) (w : World sys) :
  cache_Download sys url options (force st) (world st) = (inl source, w) ->
  let fetched := EvCacheDownload url options (force st) (inl source) in
  (forall directory,
      Extract sys url options directory st
      = prepend [fetched;
                 EvLogPrintln ("Extract " ++ url ++ " to " ++ directory)]
          match route_of sys url with
          | ToZip =>
              outside_run (zip_Extract sys source directory)
                          (EvZipExtract source directory) (force st) w
          | ToTar =>
              outside_run (tar_Extract sys url source directory)
                          (EvTarExtract url source directory) (force st) w
          | Unsupported =>
              (Ok (Some (unsupported_archive source)),
               {| world := w; force := force st |}, [])
          end)
  /\ (forall files,
         ExtractFiles sys url options files st
         = prepend (fetched :: files_log url files)
             match route_of sys url with
             | ToZip =>
                 outside_run (zip_ExtractFiles sys source files)
                             (EvZipExtractFiles source files) (force st) w
             | ToTar =>
                 outside_run (tar_ExtractFiles sys url source files)
                             (EvTarExtractFiles url source files)
                             (force st) w
             | Unsupported =>
                 (Ok (Some (unsupported_archive source)),
                  {| world := w; force := force st |}, [])
             end).
Proof.
  intros H fetched. split.
  - intros directory. unfold Extract. rewrite bind_fetch, H, bind_emit.
    unfold route_of.
    destruct (IsZipArchive sys url);
      [rewrite outside_is_run; reflexivity |].
    destruct (IsTarArchive sys url);
      [rewrite outside_is_run; reflexivity | reflexivity].
  - intros files. unfold ExtractFiles. rewrite bind_fetch, H.
    unfold bind at 1. rewrite logFiles_run. unfold route_of.
    destruct (IsZipArchive sys url);
      [rewrite outside_is_run; reflexivity |].
    destruct (IsTarArchive sys url);
      [rewrite outside_is_run; reflexivity | reflexivity].
Qed.

End MainClaims.

(** Membership in the events of a computed run. *)
Ltac among := vm_compute; repeat (first [left; reflexivity | right]).

Lemma Pinata_cache_hit_witness :
  cache_Download Mock.warm Mock.binary Mock.no_options false 0
  = (inl "/cache/41f0", 1)
  /\ Pinata Mock.warm 10 "http://ci" "user" "token" "bucket" "abc" "mac"
            Mock.no_options (Mock.start _ false)
     = (Ok None, {| world := 1 : World Mock.warm; force := false |},
        [EvLogSetOutput Discard;
         EvCacheDownload Mock.binary Mock.no_options false (inl "/cache/41f0");
         EvPrintln "/cache/41f0"]).
Proof.
  split; [reflexivity |].
  apply (Pinata_cache_hit Mock.warm 10 "http://ci" "user" "token" "bucket"
           "abc" "mac" Mock.no_options (Mock.start _ false) "/cache/41f0" 1).
  reflexivity.
Defined.

Lemma Extract_routes_by_reference_witness :
  cache_Download Mock.warm "https://example.com/tool.bin" Mock.no_options
                 false 0 = (inl "/cache/41f0", 1)
  /\ Extract Mock.warm "https://example.com/tool.bin" Mock.no_options "/opt"
             (Mock.start _ false)
     = (Ok (Some "Unsupported archive: /cache/41f0"),
        {| world := 1 : World Mock.warm; force := false |},
        [EvCacheDownload "https://example.com/tool.bin" Mock.no_options false
                         (inl "/cache/41f0");
         EvLogPrintln "Extract https://example.com/tool.bin to /opt"]).
Proof.
  split; [reflexivity |].
  exact (proj1 (Extract_routes_by_reference Mock.warm
                  "https://example.com/tool.bin" Mock.no_options
                  (Mock.start _ false) "/cache/41f0" 1 eq_refl) "/opt").
Defined.

(** C9, as stated, fails: for a reference that is neither zip nor tar the
    error of [Extract] carries the path in the cache, not the reference;
    and when the cache fetch fails the error is that of the fetch. *)
Lemma Extract_unsupported_names_the_cached_path :
  IsZipArchive Mock.warm "https://example.com/tool.bin" = false
  /\ IsTarArchive Mock.warm "https://example.com/tool.bin" = false
  /\ fst (fst (Extract Mock.warm "https://example.com/tool.bin"
                       Mock.no_options "/opt" (Mock.start _ false)))
     = Ok (Some "Unsupported archive: /cache/41f0")
  /\ fst (fst (Extract Mock.warm "https://example.com/tool.bin"
                       Mock.no_options "/opt" (Mock.start _ false)))
     <> Ok (Some (unsupported_archive "https://example.com/tool.bin"))
  /\ fst (fst (Extract (Mock.cold [] true) "https://example.com/tool.bin"
                       Mock.no_options "/opt" (Mock.start _ false)))
     = Ok (Some "not in the bucket").
Proof.
  split; [reflexivity |]. split; [reflexivity |]. split; [reflexivity |].
  split; [vm_compute; discriminate | reflexivity].
Qed.

(** C8, as stated, fails: with the same reference and the same options,
    [Download] asks the cache store for something else when the variable
    [force] differs, so one input of the fetch is read from the process. *)
Lemma Download_reads_the_force_variable :
  snd (Download Mock.warm Mock.binary Mock.no_options
                {| world := 0 : World Mock.warm; force := true |})
  <> snd (Download Mock.warm Mock.binary Mock.no_options
                   {| world := 0 : World Mock.warm; force := false |}).
Proof. vm_compute. discriminate. Qed.

Lemma commands_thread_options_and_force_witness :
  force (snd (fst (Mock.pinata [1; 2; 3]%Z true))) = false
  /\ forall url o f r,
      In (EvCacheDownload url o f r) (snd (Mock.pinata [1; 2; 3]%Z true)) ->
      o = Mock.no_options /\ f = false.
Proof.
  exact (proj2 (proj2 (proj2 (proj2
           (commands_thread_options_and_force
              (Mock.cold [1; 2; 3]%Z true) Mock.no_options))))
           10 "http://ci" "user" "token" "bucket" "abc" "mac" _ _ _ _
           (run_eta (Mock.pinata [1; 2; 3]%Z true))).
Defined.

End mainClaims.

(** ** The runs of [Pinata] against a CI system that answers *)

Module mainRuns.
Import main Trace Answers mainFacts mainClaims.

Section Runs.
Variable sys : Sys.

Lemma waitQueue_cleared (taskId : Z) (w : World sys) (tq : list (Event sys))
      (w' : World sys) :
  queue_cleared taskId w tq w' ->
  exists n, forall fuel f,
      n <= fuel ->
      waitQueue sys fuel taskId {| world := w; force := f |}
      = (Ok None, {| world := w'; force := f |}, tq).
Proof.
  induction 1 as [w queue w1 Hq Ht | w queue w1 task tq w' Hq Ht _ IH].
  - exists 1. intros [| fuel] f Hfuel; [lia |]. cbn [waitQueue].
    rewrite bind_outside. cbn [world force]. rewrite Hq. cbn [fst snd].
    rewrite bind_inspect, Ht. reflexivity.
  - destruct IH as (n & IH). exists (S n).
    intros [| fuel] f Hfuel; [lia |]. cbn [waitQueue].
    rewrite bind_outside. cbn [world force]. rewrite Hq. cbn [fst snd].
    rewrite bind_inspect, Ht, bind_sleep. cbn [world force].
    rewrite (IH fuel f) by lia. reflexivity.
Qed.

Lemma waitBuild_settled (job : Job sys) (number : Z) (b : Build sys)
      (w : World sys) (tw : list (Event sys)) (last : Build sys)
      (w' : World sys) :
  build_settled job number b w tw last w' ->
  exists n, forall fuel f,
      n <= fuel ->
      waitBuild sys fuel job number b {| world := w; force := f |}
      = (Ok (inl last), {| world := w'; force := f |}, tw).
Proof.
  induction 1 as [b w w1 Hr | b w w1 b' w2 tw last w' Hr Hb _ IH].
  - exists 1. intros [| fuel] f Hfuel; [lia |]. cbn [waitBuild].
    rewrite bind_outside. cbn [world force]. rewrite Hr. reflexivity.
  - destruct IH as (n & IH). exists (S n).
    intros [| fuel] f Hfuel; [lia |]. cbn [waitBuild].
    rewrite bind_outside. cbn [world force]. rewrite Hr. cbn [fst snd negb].
    rewrite bind_emit, bind_sleep. cbn [world force].
    rewrite bind_outside. cbn [world force]. rewrite Hb. cbn [fst snd].
    rewrite (IH fuel f) by lia. reflexivity.
Qed.

Lemma scanBuilds_passed (job : Job sys) (commit : string)
      (passed : list JobBuild) (w : World sys) (tp : list (Event sys))
      (w' : World sys) :
  builds_passed job commit passed w tp w' ->
  forall fuel binary options rest f,
    scanBuilds sys fuel job commit binary options (passed ++ rest)
               {| world := w; force := f |}
    = prepend tp (scanBuilds sys fuel job commit binary options rest
                             {| world := w'; force := f |}).
Proof.
  induction 1 as [w | id ids w b w1 tp w' Hb Hother _ IH];
    intros fuel binary options rest f.
  - cbn [app]. unfold prepend.
    destruct (scanBuilds _ _ _ _ _ _ _ _) as [[r s] t]. reflexivity.
  - cbn [app scanBuilds]. rewrite bind_outside. cbn [world force].
    rewrite Hb. cbn [fst snd]. rewrite bind_inspect.
    destruct Hother as (p & ps & Hp & Hv). rewrite Hp.
    unfold index_at at 1. cbn [nth_error]. rewrite bind_ret.
    apply String.eqb_neq in Hv. rewrite Hv. rewrite IH.
    destruct (scanBuilds _ _ _ _ _ _ rest _) as [[r s] t]. reflexivity.
Qed.

Lemma Pinata_listed
      (jenkins user token bucket commit platform : string)
      (options : Options) (st : State sys) (err : string) (w0 : World sys)
      (job : Job sys) (ids : list JobBuild) (ts : list (Event sys))
      (w1 : World sys) :
  cache_Download sys (binary_of bucket commit platform) options (force st)
                 (world st) = (inr err, w0) ->
  listed jenkins user token commit platform w0 job ids ts w1 ->
  exists n, forall fuel,
      n <= fuel ->
      Pinata sys fuel jenkins user token bucket commit platform options st
      = prepend (download_events (binary_of bucket commit platform) options
                                 (force st) (inr err) ++ ts)
          (scanBuilds sys fuel job commit (binary_of bucket commit platform)
                      options ids {| world := w1; force := force st |}).
Proof.
  intros Hfetch (v1 & v2 & taskId & v3 & tq & v4 & Hinit & Hjob & Hinvoke
                 & Hqueue & Hids & ->).
  destruct (waitQueue_cleared _ _ _ _ Hqueue) as (n & Hn).
  exists n. intros fuel Hfuel. unfold Pinata.
  fold (binary_of bucket commit platform).
  rewrite bind_Download, Hfetch. cbn [error_of].
  rewrite !bind_emit, bind_outside. cbn [world force].
  rewrite Hinit. cbn [fst snd].
  rewrite bind_outside. cbn [world force]. rewrite Hjob. cbn [fst snd].
  rewrite bind_outside. cbn [world force]. rewrite Hinvoke. cbn [fst snd].
  rewrite bind_emit. unfold bind at 1. rewrite (Hn fuel (force st) Hfuel).
  rewrite bind_outside. cbn [world force]. rewrite Hids. cbn [fst snd].
  destruct (scanBuilds _ _ _ _ _ _ _ _) as [[r s] t].
  cbn [prepend download_events app]. rewrite <- !app_assoc. reflexivity.
Qed.

Lemma Pinata_reaches
      (jenkins user token bucket commit platform : string)
      (options : Options) (st : State sys) (err : string) (w0 : World sys)
      (job : Job sys) (ids : list JobBuild) (ts : list (Event sys))
      (w1 : World sys) (passed rest : list JobBuild)
      (tp : list (Event sys)) (w2 : World sys) :
  cache_Download sys (binary_of bucket commit platform) options (force st)
                 (world st) = (inr err, w0) ->
  listed jenkins user token commit platform w0 job ids ts w1 ->
  ids = (passed ++ rest)%list ->
  builds_passed job commit passed w1 tp w2 ->
  exists n, forall fuel,
      n <= fuel ->
      Pinata sys fuel jenkins user token bucket commit platform options st
      = prepend (download_events (binary_of bucket commit platform) options
                                 (force st) (inr err) ++ ts ++ tp)
          (scanBuilds sys fuel job commit (binary_of bucket commit platform)
                      options rest {| world := w2; force := force st |}).
Proof.
  intros Hfetch Hlisted -> Hpassed.
  destruct (Pinata_listed _ _ _ _ _ _ _ _ _ _ _ _ _ _ Hfetch Hlisted)
    as (n & Hn).
  exists n. intros fuel Hfuel. rewrite (Hn fuel Hfuel).
  rewrite (scanBuilds_passed _ _ _ _ _ _ Hpassed).
  destruct (scanBuilds _ _ _ _ _ _ rest _) as [[r s] t].
  cbn [prepend]. rewrite <- !app_assoc. reflexivity.
Qed.

Lemma scanBuilds_follows (fuel : nat) (job : Job sys)
      (commit binary : string) (options : Options) (id : JobBuild)
      (rest : list JobBuild) (w : World sys) (f : bool) (b : Build sys)
      (w' : World sys) :
  GetBuild sys job (Number id) w = (inl b, w') ->
  for_commit commit b ->
  scanBuilds sys fuel job commit binary options (id :: rest)
             {| world := w; force := f |}
  = prepend [EvGetBuild job (Number id) (inl b);
             EvGetParameters b (GetParameters sys b)]
      (followBuild sys fuel job (Number id) b binary options
                   {| world := w'; force := f |}).
Proof.
  intros Hb (p & ps & Hp & Hv). cbn [scanBuilds].
  rewrite bind_outside. cbn [world force]. rewrite Hb. cbn [fst snd].
  rewrite bind_inspect. rewrite Hp. unfold index_at at 1. cbn [nth_error].
  rewrite bind_ret. rewrite <- Hv, String.eqb_refl.
  destruct (followBuild _ _ _ _ _ _ _ _) as [[r s] t]. reflexivity.
Qed.

Lemma followBuild_settled (job : Job sys) (number : Z) (b : Build sys)
      (w : World sys) (tw : list (Event sys)) (last : Build sys)
      (w' : World sys) (g : bool) (w'' : World sys) :
  build_settled job number b w tw last w' ->
  IsGood sys last w' = (g, w'') ->
  exists n, forall fuel binary options f,
      n <= fuel ->
      followBuild sys fuel job number b binary options
                  {| world := w; force := f |}
      = prepend (tw ++ [EvIsGood last g])
          (if g
           then Download sys binary options {| world := w''; force := f |}
           else (Ok (Some "Build failed"),
                 {| world := w''; force := f |}, [])).
Proof.
  intros Hsettled Hgood.
  destruct (waitBuild_settled _ _ _ _ _ _ _ Hsettled) as (n & Hn).
  exists n. intros fuel binary options f Hfuel. unfold followBuild.
  unfold bind at 1. rewrite (Hn fuel f Hfuel).
  rewrite bind_outside. cbn [world force]. rewrite Hgood. cbn [fst snd].
  destruct g.
  - destruct (Download _ _ _ _) as [[r s] t]. cbn [prepend].
    rewrite <- app_assoc. reflexivity.
  - cbn [prepend]. rewrite !app_nil_r. reflexivity.
Qed.

Lemma queue_cleared_no_fetch (taskId : Z) (w : World sys)
      (tq : list (Event sys)) (w' : World sys) :
  queue_cleared taskId w tq w' -> fetches tq = [].
Proof. induction 1; [reflexivity | assumption]. Qed.

Lemma build_settled_no_fetch (job : Job sys) (number : Z) (b : Build sys)
      (w : World sys) (tw : list (Event sys)) (last : Build sys)
      (w' : World sys) :
  build_settled job number b w tw last w' -> fetches tw = [].
Proof. induction 1; [reflexivity | assumption]. Qed.

Lemma builds_passed_no_fetch (job : Job sys) (commit : string)
      (ids : list JobBuild) (w : World sys) (tp : list (Event sys))
      (w' : World sys) :
  builds_passed job commit ids w tp w' -> fetches tp = [].
Proof. induction 1; [reflexivity | assumption]. Qed.

Lemma listed_no_fetch (jenkins user token commit platform : string)
      (w : World sys) (job : Job sys) (ids : list JobBuild)
      (ts : list (Event sys)) (w' : World sys) :
  listed jenkins user token commit platform w job ids ts w' ->
  fetches ts = [].
Proof.
  intros (v1 & v2 & taskId & v3 & tq & v4 & _ & _ & _ & Hq & _ & ->).
  cbn [app]. rewrite !fetches_other by reflexivity.
  rewrite fetches_app, (queue_cleared_no_fetch _ _ _ _ Hq). reflexivity.
Qed.

(** C3, amended.  After the first cache fetch has failed and the CI system
    has listed the builds [ids], [Pinata] fetches them in the order of the
    list.  While the builds are given and have a first parameter other than
    the commit it goes on; it follows the first build that has the commit
    as first parameter, and does not fetch the builds listed after it; when
    every build of the list is given and has a first parameter other than
    the commit it returns the error [Build not found]; a build that the CI
    system does not give ends the run with the error of the fetch. *)
Theorem Pinata_locates_build
        (jenkins user token bucket commit platform : string)
        (options : Options) (st : State sys) (err : string)
        (w0 : World sys) (job : Job sys) (ids : list JobBuild)
        (ts : list (Event sys)) (w1 : World sys) :
  let binary := binary_of bucket commit platform in
  let failed := download_events binary options (force st) (inr err) in
  cache_Download sys binary options (force st) (world st) = (inr err, w0) ->
  listed jenkins user token commit platform w0 job ids ts w1 ->
  (forall passed id rest tp w2 b w3,
      ids = (passed ++ id :: rest)%list ->
      builds_passed job commit passed w1 tp w2 ->
      GetBuild sys job (Number id) w2 = (inl b, w3) ->
      for_commit commit b ->
      exists n, forall fuel,
          n <= fuel ->
          Pinata sys fuel jenkins user token bucket commit platform options st
          = prepend (up_to_build binary options (force st) err ts tp job id b)
              (followBuild sys fuel job (Number id) b binary options
                           {| world := w3; force := force st |}))
  /\ (forall tp w2,
         builds_passed job commit ids w1 tp w2 ->
         exists n, forall fuel,
             n <= fuel ->
             Pinata sys fuel jenkins user token bucket commit platform
                    options st
             = (Ok (Some "Build not found"),
                {| world := w2; force := force st |},
                (failed ++ ts ++ tp)%list))
  /\ (forall passed id rest tp w2 e w3,
         ids = (passed ++ id :: rest)%list ->
         builds_passed job commit passed w1 tp w2 ->
         GetBuild sys job (Number id) w2 = (inr e, w3) ->
         exists n, forall fuel,
             n <= fuel ->
             Pinata sys fuel jenkins user token bucket commit platform
                    options st
             = (Ok (Some e), {| world := w3; force := force st |},
                (failed ++ ts ++ tp
                   ++ [EvGetBuild job (Number id) (inr e)])%list)).
Proof.
  intros binary failed Hfetch Hlisted. split; [| split].
  - intros passed id rest tp w2 b w3 Hids Hpassed Hb Hfor.
    destruct (Pinata_reaches _ _ _ _ _ _ _ _ _ _ _ _ _ _ _ _ _ _
                Hfetch Hlisted Hids Hpassed) as (n & Hn).
    exists n. intros fuel Hfuel. rewrite (Hn fuel Hfuel).
    rewrite (scanBuilds_follows _ _ _ _ _ _ _ _ _ _ _ Hb Hfor).
    unfold up_to_build. fold binary.
    destruct (followBuild _ _ _ _ _ _ _ _) as [[r s] t].
    cbn [prepend]. rewrite <- !app_assoc. reflexivity.
  - intros tp w2 Hpassed.
    destruct (Pinata_reaches _ _ _ _ _ _ _ _ _ _ _ _ _ _ ids [] _ _
                Hfetch Hlisted (eq_sym (app_nil_r ids)) Hpassed) as (n & Hn).
    exists n. intros fuel Hfuel. rewrite (Hn fuel Hfuel).
    cbn [scanBuilds ret prepend]. rewrite app_nil_r. reflexivity.
  - intros passed id rest tp w2 e w3 Hids Hpassed Hb.
    destruct (Pinata_reaches _ _ _ _ _ _ _ _ _ _ _ _ _ _ _ _ _ _
                Hfetch Hlisted Hids Hpassed) as (n & Hn).
    exists n. intros fuel Hfuel. rewrite (Hn fuel Hfuel).
    cbn [scanBuilds]. rewrite bind_outside. cbn [world force].
    rewrite Hb. cbn [fst snd ret prepend]. rewrite app_nil_r.
    rewrite <- !app_assoc. reflexivity.
Qed.

(** C10, amended.  After the first cache fetch has failed and the CI system
    has listed the builds [ids]: when every build listed before [id] is
    given and has a first parameter other than the commit, and the build
    listed as [id] is given and has no parameter, [Pinata] panics on reading
    [GetParameters()[0]], which is its last event.  The builds listed after
    it are not fetched. *)
Theorem Pinata_crashes_on_empty_parameters
        (jenkins user token bucket commit platform : string)
        (options : Options) (st : State sys) (err : string)
        (w0 : World sys) (job : Job sys) (ids : list JobBuild)
        (ts : list (Event sys)) (w1 : World sys)
        (passed : list JobBuild) (id : JobBuild) (rest : list JobBuild)
        (tp : list (Event sys)) (w2 : World sys) (b : Build sys)
        (w3 : World sys) :
  let binary := binary_of bucket commit platform in
  cache_Download sys binary options (force st) (world st) = (inr err, w0) ->
  listed jenkins user token commit platform w0 job ids ts w1 ->
  ids = (passed ++ id :: rest)%list ->
  builds_passed job commit passed w1 tp w2 ->
  GetBuild sys job (Number id) w2 = (inl b, w3) ->
  GetParameters sys b = [] ->
  exists n, forall fuel,
      n <= fuel ->
      Pinata sys fuel jenkins user token bucket commit platform options st
      = (Panic "runtime error: index out of range",
         {| world := w3; force := force st |},
         (download_events binary options (force st) (inr err) ++ ts ++ tp
            ++ [EvGetBuild job (Number id) (inl b);
                EvGetParameters b []])%list).
Proof.
  intros binary Hfetch Hlisted Hids Hpassed Hb Hempty.
  destruct (Pinata_reaches _ _ _ _ _ _ _ _ _ _ _ _ _ _ _ _ _ _
              Hfetch Hlisted Hids Hpassed) as (n & Hn).
  exists n. intros fuel Hfuel. rewrite (Hn fuel Hfuel).
  cbn [scanBuilds]. rewrite bind_outside. cbn [world force].
  rewrite Hb. cbn [fst snd]. rewrite bind_inspect, Hempty.
  unfold index_at at 1. cbn [nth_error]. rewrite bind_panic.
  cbn [prepend]. rewrite <- !app_assoc. reflexivity.
Qed.

(** C2, amended.  After the first cache fetch has failed: when the CI
    system accepts the connection, has the job, takes the trigger, lets the
    task leave the queue and lists the builds [ids]; when every build listed
    before [id] is given and has a first parameter other than the commit,
    and the build listed as [id] is given and has the commit as first
    parameter; and when that build, polled every five seconds, stops running
    as [last], of which [IsGood] says [g]: then, with enough rounds for the
    two waits, the run of [Pinata] is these calls, in this order, and after
    them, if [g] is [true], one more [Download] of the same artifact with
    the same options and [force], whose result, success or error, is the
    result of [Pinata], two cache fetches in all; if [g] is [false], nothing
    more: the error [Build failed], and the failed fetch is the only
    one. *)
Theorem Pinata_after_build
        (jenkins user token bucket commit platform : string)
        (options : Options) (st : State sys) (err : string)
        (w0 : World sys) (job : Job sys) (ids : list JobBuild)
        (ts : list (Event sys)) (w1 : World sys)
        (passed : list JobBuild) (id : JobBuild) (rest : list JobBuild)
        (tp : list (Event sys)) (w2 : World sys) (b : Build sys)
        (w3 : World sys) (tw : list (Event sys)) (last : Build sys)
        (w4 : World sys) (g : bool) (w5 : World sys) :
  let binary := binary_of bucket commit platform in
  let fetch := EvCacheDownload binary options (force st) in
  let before :=
    (up_to_build binary options (force st) err ts tp job id b
       ++ tw ++ [EvIsGood last g])%list in
  let second := cache_Download sys binary options (force st) w5 in
  cache_Download sys binary options (force st) (world st) = (inr err, w0) ->
  listed jenkins user token commit platform w0 job ids ts w1 ->
  ids = (passed ++ id :: rest)%list ->
  builds_passed job commit passed w1 tp w2 ->
  GetBuild sys job (Number id) w2 = (inl b, w3) ->
  for_commit commit b ->
  build_settled job (Number id) b w3 tw last w4 ->
  IsGood sys last w4 = (g, w5) ->
  exists n, forall fuel,
      n <= fuel ->
      let run :=
        Pinata sys fuel jenkins user token bucket commit platform options st
      in
      if g
      then run = (Ok (error_of (fst second)),
                  {| world := snd second; force := force st |},
                  (before ++ download_events binary options (force st)
                                             (fst second))%list)
           /\ fetches (snd run) = [fetch (inr err); fetch (fst second)]
      else run = (Ok (Some "Build failed"),
                  {| world := w5; force := force st |}, before)
           /\ fetches (snd run) = [fetch (inr err)].
Proof.
  intros binary fetch before second Hfetch Hlisted Hids Hpassed Hb Hfor
         Hsettled Hgood.
  destruct (Pinata_reaches _ _ _ _ _ _ _ _ _ _ _ _ _ _ _ _ _ _
              Hfetch Hlisted Hids Hpassed) as (n1 & Hn1).
  destruct (followBuild_settled _ _ _ _ _ _ _ _ _ Hsettled Hgood)
    as (n2 & Hn2).
  assert (Hbefore : fetches before = [fetch (inr err)]).
  { unfold before, up_to_build. rewrite !fetches_app.
    rewrite (listed_no_fetch _ _ _ _ _ _ _ _ _ _ Hlisted).
    rewrite (builds_passed_no_fetch _ _ _ _ _ _ Hpassed).
    rewrite (build_settled_no_fetch _ _ _ _ _ _ _ Hsettled).
    reflexivity. }
  exists (Nat.max n1 n2). intros fuel Hfuel. cbv zeta.
  rewrite (Hn1 fuel) by lia.
  rewrite (scanBuilds_follows _ _ _ _ _ _ _ _ _ _ _ Hb Hfor).
  rewrite (Hn2 fuel) by lia. fold binary.
  destruct g.
  - rewrite Download_run. cbn [world force]. unfold second.
    destruct (cache_Download sys binary options (force st) w5) as [r w6].
    cbn [fst snd prepend].
    assert (E : ((download_events binary options (force st) (inr err)
                    ++ ts ++ tp)
                   ++ [EvGetBuild job (Number id) (inl b);
                       EvGetParameters b (GetParameters sys b)]
                   ++ (tw ++ [EvIsGood last true])
                   ++ download_events binary options (force st) r)%list
                = (before ++ download_events binary options (force st) r)%list).
    { unfold before, up_to_build. rewrite <- !app_assoc. reflexivity. }
    rewrite E. split; [reflexivity |].
    rewrite fetches_app, Hbefore, fetches_download. reflexivity.
  - cbn [prepend snd].
    assert (E : ((download_events binary options (force st) (inr err)
                    ++ ts ++ tp)
                   ++ [EvGetBuild job (Number id) (inl b);
                       EvGetParameters b (GetParameters sys b)]
                   ++ (tw ++ [EvIsGood last false]) ++ [])%list
                = before).
    { unfold before, up_to_build. rewrite <- !app_assoc, app_nil_r.
      reflexivity. }
    rewrite E. split; [reflexivity | exact Hbefore].
Qed.

End Runs.

(** *** The scripted CI system, step by step *)

Ltac clear_queue :=
  repeat first [ eapply cleared_at; [reflexivity | reflexivity]
               | eapply cleared_after; [reflexivity | reflexivity |] ].

Ltac settle_build :=
  repeat first [ eapply settled_at; reflexivity
               | eapply settled_after; [reflexivity | reflexivity |] ].

Ltac pass_builds :=
  repeat first [ eapply passed_none
               | eapply passed_one;
                 [reflexivity
                 | do 2 eexists; split; [reflexivity | discriminate] |] ].

Lemma cold_lists (ids : list Z) (g : bool) :
  exists ts,
    listed (sys := Mock.cold ids g) "http://ci" "user" "token" "abc" "mac"
           (1 : World (Mock.cold ids g)) "pinata-mac-iso"
           (map Mock.build ids) ts (10 : World (Mock.cold ids g)).
Proof.
  eexists. exists 2, 3, 7%Z, 4. eexists. exists 9.
  split; [reflexivity |]. split; [reflexivity |]. split; [reflexivity |].
  split; [clear_queue |]. split; reflexivity.
Qed.

Lemma cold_passes_1 (ids : list Z) (g : bool) :
  exists tp,
    builds_passed (sys := Mock.cold ids g) "pinata-mac-iso" "abc"
                  [Mock.build 1] (10 : World (Mock.cold ids g)) tp
                  (11 : World (Mock.cold ids g)).
Proof. eexists. pass_builds. Qed.

Lemma cold_passes_1_1 (g : bool) :
  exists tp,
    builds_passed (sys := Mock.cold [1; 1]%Z g) "pinata-mac-iso" "abc"
                  (map Mock.build [1; 1]%Z)
                  (10 : World (Mock.cold [1; 1]%Z g)) tp
                  (12 : World (Mock.cold [1; 1]%Z g)).
Proof. eexists. cbn [map]. pass_builds. Qed.

Lemma cold_settles_2 (ids : list Z) (g : bool) :
  exists tw,
    build_settled (sys := Mock.cold ids g) "pinata-mac-iso" 2 2%Z
                  (12 : World (Mock.cold ids g)) tw 2%Z
                  (16 : World (Mock.cold ids g)).
Proof. eexists. settle_build. Qed.

Lemma cold_2_is_for_abc (ids : list Z) (g : bool) :
  for_commit (sys := Mock.cold ids g) "abc" 2%Z.
Proof. do 2 eexists. split; reflexivity. Qed.

Lemma Pinata_after_build_witness :
  exists n, forall fuel,
      n <= fuel ->
      exists before,
        Pinata (Mock.cold [1; 2; 3]%Z true) fuel "http://ci" "user" "token"
               "bucket" "abc" "mac" Mock.no_options (Mock.start _ false)
        = (Ok None,
           {| world := 18 : World (Mock.cold [1; 2; 3]%Z true);
              force := false |},
           (before
              ++ [EvIsGood (sys := Mock.cold [1; 2; 3]%Z true) 2%Z true;
                  EvLogSetOutput Discard;
                  EvCacheDownload Mock.binary Mock.no_options false
                                  (inl "/cache/41f0");
                  EvPrintln "/cache/41f0"])%list)
        /\ fetches (snd (Pinata (Mock.cold [1; 2; 3]%Z true) fuel "http://ci"
                                "user" "token" "bucket" "abc" "mac"
                                Mock.no_options (Mock.start _ false)))
           = [EvCacheDownload Mock.binary Mock.no_options false
                              (inr "not in the bucket");
              EvCacheDownload Mock.binary Mock.no_options false
                              (inl "/cache/41f0")].
Proof.
  destruct (cold_lists [1; 2; 3]%Z true) as (ts & Hlisted).
  destruct (cold_passes_1 [1; 2; 3]%Z true) as (tp & Hpassed).
  destruct (cold_settles_2 [1; 2; 3]%Z true) as (tw & Hsettled).
  destruct (Pinata_after_build
              (Mock.cold [1; 2; 3]%Z true) "http://ci" "user" "token" "bucket"
              "abc" "mac" Mock.no_options (Mock.start _ false)
              "not in the bucket" 1 "pinata-mac-iso" _ ts 10
              [Mock.build 1] (Mock.build 2) [Mock.build 3] tp 11 2%Z 12
              tw 2%Z 16 true 17
              eq_refl Hlisted eq_refl Hpassed eq_refl
              (cold_2_is_for_abc _ _) Hsettled eq_refl) as (n & Hn).
  exists n. intros fuel Hfuel. pose proof (Hn fuel Hfuel) as H.
  cbv zeta in H. destruct H as (Hrun & Hfetches).
  exists (up_to_build Mock.binary Mock.no_options false "not in the bucket"
                      ts tp "pinata-mac-iso" (Mock.build 2) 2%Z ++ tw)%list.
  split; [| rewrite Hfetches; reflexivity].
  rewrite Hrun. rewrite <- !app_assoc. reflexivity.
Defined.

Lemma Pinata_locates_build_witness :
  (exists n, forall fuel,
        n <= fuel ->
        exists before,
          Pinata (Mock.cold [1; 2; 3]%Z true) fuel "http://ci" "user" "token"
                 "bucket" "abc" "mac" Mock.no_options (Mock.start _ false)
          = prepend (before
                       ++ [EvGetBuild (sys := Mock.cold [1; 2; 3]%Z true)
                                      "pinata-mac-iso" 2 (inl 2%Z);
                           EvGetParameters
                             (sys := Mock.cold [1; 2; 3]%Z true) 2%Z
                             (Mock.commit_param "abc")])
              (followBuild (Mock.cold [1; 2; 3]%Z true) fuel "pinata-mac-iso"
                           2 2%Z Mock.binary Mock.no_options
                           {| world := 12 : World (Mock.cold [1; 2; 3]%Z true);
                              force := false |}))
  /\ exists n, forall fuel,
        n <= fuel ->
        fst (fst (Pinata (Mock.cold [1; 1]%Z true) fuel "http://ci" "user"
                         "token" "bucket" "abc" "mac" Mock.no_options
                         (Mock.start _ false)))
        = Ok (Some "Build not found").
Proof.
  split.
  - destruct (cold_lists [1; 2; 3]%Z true) as (ts & Hlisted).
    destruct (cold_passes_1 [1; 2; 3]%Z true) as (tp & Hpassed).
    destruct (proj1 (Pinata_locates_build
                       (Mock.cold [1; 2; 3]%Z true) "http://ci" "user" "token"
                       "bucket" "abc" "mac" Mock.no_options
                       (Mock.start _ false) "not in the bucket" 1
                       "pinata-mac-iso" _ ts 10 eq_refl Hlisted)
                    [Mock.build 1] (Mock.build 2) [Mock.build 3]
                    tp 11 2%Z 12 eq_refl Hpassed
                    eq_refl (cold_2_is_for_abc _ _)) as (n & Hn).
    exists n. intros fuel Hfuel.
    exists (download_events Mock.binary Mock.no_options false
                            (inr "not in the bucket") ++ ts ++ tp)%list.
    rewrite (Hn fuel Hfuel). unfold up_to_build.
    rewrite <- !app_assoc. reflexivity.
  - destruct (cold_lists [1; 1]%Z true) as (ts & Hlisted).
    destruct (cold_passes_1_1 true) as (tp & Hpassed).
    destruct (proj1 (proj2 (Pinata_locates_build
                              (Mock.cold [1; 1]%Z true) "http://ci" "user"
                              "token" "bucket" "abc" "mac" Mock.no_options
                              (Mock.start _ false) "not in the bucket" 1
                              "pinata-mac-iso" _ ts 10 eq_refl Hlisted))
                    tp 12 Hpassed) as (n & Hn).
    exists n. intros fuel Hfuel. rewrite (Hn fuel Hfuel). reflexivity.
Defined.

Lemma Pinata_crashes_on_empty_parameters_witness :
  GetParameters (Mock.cold [1; 3; 2]%Z true) 3%Z = []
  /\ exists n, forall fuel,
        n <= fuel ->
        exists before,
          Pinata (Mock.cold [1; 3; 2]%Z true) fuel "http://ci" "user" "token"
                 "bucket" "abc" "mac" Mock.no_options (Mock.start _ false)
          = (Panic "runtime error: index out of range",
             {| world := 12 : World (Mock.cold [1; 3; 2]%Z true);
                force := false |},
             (before ++ [EvGetBuild (sys := Mock.cold [1; 3; 2]%Z true)
                                    "pinata-mac-iso" 3 (inl 3%Z);
                         EvGetParameters
                           (sys := Mock.cold [1; 3; 2]%Z true) 3%Z []])%list).
Proof.
  split; [reflexivity |].
  destruct (cold_lists [1; 3; 2]%Z true) as (ts & Hlisted).
  destruct (cold_passes_1 [1; 3; 2]%Z true) as (tp & Hpassed).
  destruct (Pinata_crashes_on_empty_parameters
              (Mock.cold [1; 3; 2]%Z true) "http://ci" "user" "token" "bucket"
              "abc" "mac" Mock.no_options (Mock.start _ false)
              "not in the bucket" 1 "pinata-mac-iso" _ ts 10
              [Mock.build 1] (Mock.build 3) [Mock.build 2] tp 11 3%Z 12
              eq_refl Hlisted eq_refl Hpassed eq_refl eq_refl) as (n & Hn).
  exists n. intros fuel Hfuel.
  exists (download_events Mock.binary Mock.no_options false
                          (inr "not in the bucket") ++ ts ++ tp)%list.
  rewrite (Hn fuel Hfuel). rewrite <- !app_assoc. reflexivity.
Defined.

(** C2, as stated, fails: a build whose first parameter is the commit is in
    the list, has stopped running and is good, and the run makes no second
    fetch: the build listed before it has no parameter, and the run panics
    there. *)
Lemma Pinata_may_never_reach_the_build :
  In (Mock.build 2) (map Mock.build [3; 2]%Z)
  /\ for_commit (sys := Mock.cold [3; 2]%Z true) "abc" 2%Z
  /\ (forall w, 14 <= w ->
                IsRunning (Mock.cold [3; 2]%Z true) 2%Z w = (false, S w))
  /\ (forall w, IsGood (Mock.cold [3; 2]%Z true) 2%Z w = (true, S w))
  /\ fst (fst (Mock.pinata [3; 2]%Z true))
     = Panic "runtime error: index out of range"
  /\ fetches (snd (Mock.pinata [3; 2]%Z true))
     = [EvCacheDownload Mock.binary Mock.no_options false
                        (inr "not in the bucket")].
Proof.
  split; [right; left; reflexivity |].
  split; [do 2 eexists; split; reflexivity |].
  split.
  { intros w Hw. unfold Mock.cold, Mock.system, IsRunning.
    cbn [Mock.running_until Mock.scenario].
    replace (Nat.ltb w 14) with false
      by (symmetry; apply Nat.ltb_ge; exact Hw).
    reflexivity. }
  split; [reflexivity |].
  split; vm_compute; reflexivity.
Qed.

(** C3, as stated, fails: no build of the list has the commit as first
    parameter, and the run does not end with [Build not found]: the second
    build has no parameter, and the run panics. *)
Lemma Pinata_panics_where_no_build_matches :
  (forall n, In n [1; 3]%Z ->
             ~ for_commit (sys := Mock.cold [1; 3]%Z true) "abc" n)
  /\ fst (fst (Mock.pinata [1; 3]%Z true))
     = Panic "runtime error: index out of range"
  /\ fst (fst (Mock.pinata [1; 3]%Z true)) <> Ok (Some "Build not found").
Proof.
  split; [| split; [vm_compute; reflexivity | vm_compute; discriminate]].
  intros n [<- | [<- | []]] (p & ps & Hp & Hv).
  - injection Hp as <- _. discriminate Hv.
  - discriminate Hp.
Qed.

(** C10, as stated, fails: a build of the list has no parameter, and the
    run does not crash: the build is listed after the one for the commit
    and is never fetched. *)
Lemma Pinata_never_reads_the_builds_after_the_match :
  In (Mock.build 3) (map Mock.build [2; 3]%Z)
  /\ GetParameters (Mock.cold [2; 3]%Z true) 3%Z = []
  /\ fst (fst (Mock.pinata [2; 3]%Z true)) = Ok None.
Proof.
  split; [right; left; reflexivity |].
  split; [reflexivity | vm_compute; reflexivity].
Qed.

End mainRuns.


(** ** More about github/github.go *)

Module githubExtras.
Import GoString Regexp github GoStringFacts RegexpFacts githubFacts.
Import reference captured.

(** *** Splitting a header *)

Lemma rev_string_acc (cur acc : string) :
  rev_string acc cur = rev_string "" cur ++ acc.
Proof.
  revert acc. induction cur as [| a cur IH]; intros acc; [reflexivity |].
  cbn [rev_string]. rewrite (IH (String a acc)), (IH (String a "")).
  rewrite append_assoc. reflexivity.
Qed.

Lemma count_zero_free (c : ascii) (s : string) :
  count_byte c s = 0 -> free_of c s = true.
Proof.
  induction s as [| a t IH]; [reflexivity |]. cbn.
  destruct (Ascii.eqb a c); [discriminate |]. intros H. apply IH, H.
Qed.

Lemma split_go_free (c : ascii) (s cur : string) :
  free_of c s = true ->
  split_go (String c "") 0 cur s = [rev_string "" cur ++ s].
Proof.
  revert cur. induction s as [| a t IH]; intros cur H.
  - cbn. rewrite append_nil_r. reflexivity.
  - cbn [split_go]. rewrite prefix_byte. cbn in H.
    apply andb_true_iff in H. destruct H as [Ha Ht].
    apply negb_true_iff in Ha. rewrite Ha, (IH _ Ht).
    cbn [rev_string]. rewrite (rev_string_acc cur), append_assoc.
    reflexivity.
Qed.

Lemma split_go_once (c : ascii) (s cur : string) :
  count_byte c s = 1 ->
  exists k v,
    s = k ++ String c v
    /\ free_of c k = true /\ free_of c v = true
    /\ split_go (String c "") 0 cur s = [rev_string "" cur ++ k; v].
Proof.
  revert cur. induction s as [| a t IH]; intros cur H; [discriminate |].
  cbn [split_go]. rewrite prefix_byte. cbn [count_byte] in H.
  destruct (Ascii.eqb a c) eqn:E.
  - apply Ascii.eqb_eq in E. subst a. exists "", t.
    assert (Ht : free_of c t = true) by (apply count_zero_free; lia).
    split; [reflexivity |]. split; [reflexivity |]. split; [exact Ht |].
    cbn [String.length Nat.sub]. rewrite (split_go_free c t "" Ht).
    rewrite append_nil_r. reflexivity.
  - destruct (IH (String a cur) H) as (k & v & -> & Hk & Hv & Hs).
    exists (String a k), v. split; [reflexivity |].
    split; [cbn; rewrite E, Hk; reflexivity |]. split; [exact Hv |].
    rewrite Hs. cbn [rev_string]. rewrite (rev_string_acc cur), append_assoc.
    reflexivity.
Qed.

(** A header with exactly one [=] splits into its key and its value. *)
Lemma Split_well_formed (header : string) :
  well_formed header ->
  exists key value,
    Split header "=" = [key; value]
    /\ header = key ++ "=" ++ value
    /\ free_of "=" key = true /\ free_of "=" value = true.
Proof.
  intros H. destruct (split_go_once "=" header "" H)
    as (k & v & Hh & Hk & Hv & Hs).
  exists k, v. split; [exact Hs |]. split; [exact Hh |]. split; assumption.
Qed.

(** *** What the groups of a match hold *)

Lemma chain_sound (a : regexp) :
  records_at a ->
  forall fuel s caps k r,
    star (exec a) fuel s caps k = Some r ->
    exists xs s' caps',
      s = flatten xs ++ s' /\ chain (records a) xs caps caps'
      /\ k s' caps' = Some r.
Proof.
  intros Ha. induction fuel as [| fuel IH]; intros s caps k r H.
  - exists [], s, caps. split; [reflexivity |]. split; [reflexivity | exact H].
  - cbn [star] in H.
    match type of H with
    | match ?e with _ => _ end = _ => destruct e as [r0 |] eqn:E
    end.
    + injection H as ->. apply Ha in E.
      destruct E as (x & s1 & caps1 & -> & Hx & E).
      destruct (Nat.ltb (String.length s1) (String.length (x ++ s1)));
        [| discriminate].
      apply IH in E. destruct E as (xs & s' & caps' & -> & Hxs & E).
      exists (x :: xs), s', caps'.
      split; [cbn [flatten fold_right]; rewrite append_assoc; reflexivity |].
      split; [exists caps1; split; assumption | exact E].
    + exists [], s, caps.
      split; [reflexivity |]. split; [reflexivity | exact H].
Qed.

Lemma take_all_but (a s' : string) :
  take (String.length (a ++ s') - String.length s') (a ++ s') = a.
Proof.
  rewrite length_append.
  replace (String.length a + String.length s' - String.length s')
    with (String.length a) by lia.
  apply take_append.
Qed.

Lemma exec_records (re : regexp) : records_at re.
Proof.
  induction re as [l | | c | a IHa b IHb | a IHa | i a IHa];
    intros s caps k r H; cbn [exec] in H.
  - destruct (strip_prefix l s) as [s' |] eqn:E; [| discriminate].
    apply strip_prefix_inv in E. exists l, s', caps.
    split; [exact E |]. split; [split; reflexivity | exact H].
  - destruct s as [| x t]; [discriminate |].
    destruct (Ascii.eqb x "010") eqn:E; [discriminate |].
    eexists; eexists; exists caps.
    split; [symmetry; apply take_skip |]. split; [| exact H].
    split; [| reflexivity].
    split; [apply one_rune_take |]. rewrite get_take.
    apply Ascii.eqb_neq in E. congruence.
  - destruct s as [| x t]; [discriminate |].
    destruct (Ascii.eqb x c) eqn:E; [discriminate |].
    eexists; eexists; exists caps.
    split; [symmetry; apply take_skip |]. split; [| exact H].
    split; [| reflexivity].
    split; [apply one_rune_take |]. rewrite get_take.
    apply Ascii.eqb_neq in E. congruence.
  - apply IHa in H. destruct H as (x1 & s1 & caps1 & -> & H1 & H).
    apply IHb in H. destruct H as (x2 & s2 & caps2 & -> & H2 & H).
    exists (x1 ++ x2), s2, caps2. split; [symmetry; apply append_assoc |].
    split; [| exact H]. exists x1, x2, caps1. repeat split; assumption.
  - apply (chain_sound a IHa) in H.
    destruct H as (xs & s' & caps' & -> & Hxs & H).
    exists (flatten xs), s', caps'. split; [reflexivity |].
    split; [| exact H]. exists xs. split; [reflexivity | exact Hxs].
  - apply IHa in H. destruct H as (x & s' & caps' & -> & Hx & H).
    rewrite take_all_but in H.
    exists x, s', (set_nth i x caps'). split; [reflexivity |].
    split; [| exact H]. exists caps'. split; [exact Hx | reflexivity].
Qed.

(** A run of runes none of which starts with [c] leaves the groups alone
    and holds no [c], for [c] below 0x80. *)
Lemma chain_class (c : ascii) (P : string -> Prop) (xs : list string)
      (caps caps' : captures) :
  chain (fun x caps0 caps1 => P x /\ caps1 = caps0) xs caps caps' ->
  caps' = caps /\ Forall P xs.
Proof.
  revert caps. induction xs as [| x xs IH]; intros caps H.
  - cbn in H. split; [exact H | constructor].
  - cbn in H. destruct H as (mid & [Hx ->] & H).
    destruct (IH _ H) as [-> Hxs]. split; [reflexivity |].
    constructor; assumption.
Qed.

Lemma records_star_not_byte (c : ascii) (x : string) (caps caps' : captures) :
  (byte c < 128)%N ->
  records (Star (NotByte c)) x caps caps' ->
  caps' = caps /\ free_of c x = true.
Proof.
  intros Hc (xs & -> & H). cbn [records] in H.
  apply (chain_class c (fun x => one_rune x /\ String.get 0 x <> Some c))
    in H.
  destruct H as [-> Hxs]. split; [reflexivity |].
  apply star_not_byte_free; [exact Hc |]. exists xs.
  split; [reflexivity | exact Hxs].
Qed.

Lemma records_star_any (x : string) (caps caps' : captures) :
  records (Star AnyNotNL) x caps caps' ->
  caps' = caps /\ free_of "010" x = true.
Proof.
  intros (xs & -> & H). cbn [records] in H.
  apply (chain_class "010"%char
           (fun x => one_rune x /\ String.get 0 x <> Some "010"%char)) in H.
  destruct H as [-> Hxs]. split; [reflexivity |].
  apply (star_not_byte_free "010"%char); [reflexivity |]. exists xs.
  split; [reflexivity | exact Hxs].
Qed.

(** X1.  What [ReleaseURL.FindStringSubmatch] gives for any reference: the
    nil slice, or five strings, the match and the four groups.  The match
    occurs in the reference, which may have text before and after it, and is
    [https://github], one character that is not a newline (the dot of the
    pattern is not escaped), [com/], the first group, [/], the second,
    [/releases/download/], the third, [/] and the fourth.  The first three
    groups hold no [/] and the fourth no newline. *)
Theorem FindStringSubmatch_groups (url : string) :
  FindStringSubmatch ReleaseURL url = []
  \/ exists before whole dot org project tag fileName after,
      FindStringSubmatch ReleaseURL url = [whole; org; project; tag; fileName]
      /\ url = before ++ whole ++ after
      /\ whole = "https://github" ++ dot ++ "com/" ++ org ++ "/" ++ project
                   ++ "/releases/download/" ++ tag ++ "/" ++ fileName
      /\ one_rune dot /\ dot <> newline
      /\ free_of "/" org = true
      /\ free_of "/" project = true
      /\ free_of "/" tag = true
      /\ free_of "010" fileName = true.
Proof.
  unfold FindStringSubmatch.
  destruct (search (Group 0 ReleaseURL)
                   (repeat "" (S (NumSubexp ReleaseURL))) 0 url)
    as [r |] eqn:E; [right | left; reflexivity].
  apply search_sound in E. destruct E as (before & m & -> & E).
  apply exec_records in E. destruct E as (a & after & caps' & -> & Ha & E).
  injection E as <-.
  cbn [records ReleaseURL sequence fold_right] in Ha.
  destruct Ha as (c0 & (x1 & r1 & m1 & -> & [-> ->]
                  & dot & r2 & m2 & -> & [[Hdot Hget] ->]
                  & x2 & r3 & m3 & -> & [-> ->]
                  & org & r4 & m4 & -> & (n4 & Horg & ->)
                  & x3 & r5 & m5 & -> & [-> ->]
                  & project & r6 & m6 & -> & (n6 & Hproject & ->)
                  & x4 & r7 & m7 & -> & [-> ->]
                  & tag & r8 & m8 & -> & (n8 & Htag & ->)
                  & x5 & r9 & m9 & -> & [-> ->]
                  & file & r10 & m10 & -> & (n10 & Hfile & ->)
                  & -> & ->) & ->).
  apply (records_star_not_byte "/"%char) in Horg; [| reflexivity].
  apply (records_star_not_byte "/"%char) in Hproject; [| reflexivity].
  apply (records_star_not_byte "/"%char) in Htag; [| reflexivity].
  apply records_star_any in Hfile.
  destruct Horg as [-> Horg]. destruct Hproject as [-> Hproject].
  destruct Htag as [-> Htag]. destruct Hfile as [-> Hfile].
  exists before, ("https://github" ++ dot ++ "com/" ++ org ++ "/" ++ project
                    ++ "/releases/download/" ++ tag ++ "/" ++ file),
    dot, org, project, tag, file, after.
  rewrite !append_nil_r.
  split; [reflexivity |]. split; [reflexivity |]. split; [reflexivity |].
  split; [exact Hdot |]. split; [intros ->; apply Hget; reflexivity |].
  repeat split; assumption.
Qed.

(** *** Reading a reference in its plain form *)

Lemma reads_Lit (l s : string) (caps : captures) : reads (Lit l) l s caps caps.
Proof.
  intros k r Hk. cbn [exec]. rewrite strip_prefix_append. exact Hk.
Qed.

Lemma reads_Seq (a b : regexp) (x1 x2 s : string) (caps mid caps' : captures) :
  reads a x1 (x2 ++ s) caps mid -> reads b x2 s mid caps' ->
  reads (Seq a b) (x1 ++ x2) s caps caps'.
Proof.
  intros Ha Hb k r Hk. cbn [exec]. rewrite append_assoc.
  apply Ha. apply Hb, Hk.
Qed.

Lemma reads_Group (i : nat) (a : regexp) (x s : string)
      (caps mid : captures) :
  reads a x s caps mid -> reads (Group i a) x s caps (set_nth i x mid).
Proof.
  intros Ha k r Hk. cbn [exec]. apply Ha. rewrite take_all_but. exact Hk.
Qed.

Lemma reads_rune (c : ascii) (d s : string) (caps : captures) :
  one_rune d -> String.get 0 d <> Some c -> next_ok s ->
  reads (NotByte c) d s caps caps.
Proof.
  intros [Hd Hsize] Hget Hs k r Hk. cbn [exec].
  destruct d as [| x t]; [congruence |]. cbn [String.append].
  cbn in Hget.
  replace (Ascii.eqb x c) with false
    by (symmetry; apply Ascii.eqb_neq; congruence).
  rewrite (rune_size_append x t s Hsize Hs).
  change (String x (t ++ s)) with (String x t ++ s).
  change (S (String.length t)) with (String.length (String x t)).
  rewrite skip_append. exact Hk.
Qed.

Lemma stops_next_ok (c : ascii) (s : string) :
  (byte c < 128)%N -> stops_at c s -> next_ok s.
Proof.
  intros Hc Hs. destruct s as [| x t]; [exact I |]. cbn in *. subst x.
  unfold is_cont, between. apply andb_false_iff. left.
  apply N.leb_gt. exact Hc.
Qed.

Lemma star_class_exact (c : ascii) (s : string) (k : cont)
      (caps : captures) (r : captures) :
  (byte c < 128)%N -> stops_at c s ->
  k s caps = Some r ->
  forall fuel a,
    String.length a < fuel ->
    free_of c a = true ->
    star (exec (NotByte c)) fuel (a ++ s) caps k = Some r.
Proof.
  intros Hc Hs Hk. pose proof (stops_next_ok c s Hc Hs) as Hok.
  induction fuel as [| fuel IH]; intros a Hlen Hfree; [lia |].
  cbn [star]. destruct a as [| x a].
  - cbn [String.append].
    replace (exec (NotByte c) s caps _) with (@None captures); [exact Hk |].
    symmetry. cbn [exec]. destruct s as [| y t]; [reflexivity |].
    cbn in Hs. subst y. rewrite Ascii.eqb_refl. reflexivity.
  - match goal with
    | |- match ?e with _ => _ end = _ => replace e with (Some r)
    end; [reflexivity |].
    symmetry. cbn [exec String.append]. cbn in Hfree.
    apply andb_true_iff in Hfree. destruct Hfree as [Hx Hfree].
    apply negb_true_iff in Hx. rewrite Hx.
    pose proof (rune_size_pos x (a ++ s)) as Hpos.
    pose proof (rune_size_conts x (a ++ s)) as Hconts.
    apply (conts_within _ _ _ Hok) in Hconts.
    destruct (rune_size (String x (a ++ s))) as [| n]; [lia |].
    cbn [skip]. cbn in Hconts. rewrite Nat.sub_0_r in Hconts.
    rewrite (skip_within n a s Hconts).
    replace (Nat.ltb (String.length (skip n a ++ s))
                     (String.length (String x (a ++ s)))) with true.
    + apply IH; [| apply free_of_skip, Hfree].
      rewrite length_skip. cbn in Hlen. lia.
    + symmetry. apply Nat.ltb_lt.
      cbn [String.length]. rewrite !length_append, length_skip. lia.
Qed.

Lemma reads_star_class (c : ascii) (a s : string) (caps : captures) :
  (byte c < 128)%N -> free_of c a = true -> stops_at c s ->
  reads (Star (NotByte c)) a s caps caps.
Proof.
  intros Hc Hfree Hs k r Hk. cbn [exec].
  apply star_class_exact; try assumption. rewrite length_append. lia.
Qed.

Lemma reads_star_any (a s : string) (caps : captures) :
  free_of "010" a = true -> stops_at "010" s ->
  reads (Star AnyNotNL) a s caps caps.
Proof.
  intros Hfree Hs k r Hk.
  change (exec (Star AnyNotNL) (a ++ s) caps k)
    with (exec (Star (NotByte "010")) (a ++ s) caps k).
  apply (reads_star_class "010"%char); try assumption. reflexivity.
Qed.

Lemma FindStringSubmatch_here (re : regexp) (s : string) (c : ascii)
      (t : string) (r : captures) :
  s = String c t ->
  exec (Group 0 re) s (repeat "" (S (NumSubexp re))) accept = Some r ->
  FindStringSubmatch re s = r.
Proof.
  intros -> H. unfold FindStringSubmatch. cbn [search]. rewrite H.
  reflexivity.
Qed.

Lemma release_reference_match (org project tag fileName : string) :
  free_of "/" org = true ->
  free_of "/" project = true ->
  free_of "/" tag = true ->
  free_of "010" fileName = true ->
  exec (Group 0 ReleaseURL) (release_reference org project tag fileName)
       (repeat "" 5) accept
  = Some [release_reference org project tag fileName;
          org; project; tag; fileName].
Proof.
  intros Horg Hproject Htag Hfile.
  assert (Hreads :
            reads (Group 0 ReleaseURL)
                  ("https://github" ++ "." ++ "com/" ++ org ++ "/" ++ project
                     ++ "/releases/download/" ++ tag ++ "/" ++ fileName ++ "")
                  "" (repeat "" 5)
                  [ "https://github" ++ "." ++ "com/" ++ org ++ "/" ++ project
                      ++ "/releases/download/" ++ tag ++ "/" ++ fileName ++ "";
                    org; project; tag; fileName ]).
  { apply (reads_Group 0 _ _ _ _ ["" ; org; project; tag; fileName]).
    unfold ReleaseURL. cbn [sequence fold_right].
    apply (reads_Seq _ _ _ _ _ _ (repeat "" 5)); [apply reads_Lit |].
    apply (reads_Seq _ _ _ _ _ _ (repeat "" 5)).
    { apply (reads_rune "010"%char);
        [split; [discriminate | reflexivity] | discriminate | reflexivity]. }
    apply (reads_Seq _ _ _ _ _ _ (repeat "" 5)); [apply reads_Lit |].
    apply (reads_Seq _ _ _ _ _ _ (set_nth 1 org (repeat "" 5))).
    { apply reads_Group, reads_star_class;
        [reflexivity | exact Horg | reflexivity]. }
    apply (reads_Seq _ _ _ _ _ _ (set_nth 1 org (repeat "" 5)));
      [apply reads_Lit |].
    apply (reads_Seq _ _ _ _ _ _
             (set_nth 2 project (set_nth 1 org (repeat "" 5)))).
    { apply reads_Group, reads_star_class;
        [reflexivity | exact Hproject | reflexivity]. }
    apply (reads_Seq _ _ _ _ _ _
             (set_nth 2 project (set_nth 1 org (repeat "" 5))));
      [apply reads_Lit |].
    apply (reads_Seq _ _ _ _ _ _
             (set_nth 3 tag
                (set_nth 2 project (set_nth 1 org (repeat "" 5))))).
    { apply reads_Group, reads_star_class;
        [reflexivity | exact Htag | reflexivity]. }
    apply (reads_Seq _ _ _ _ _ _
             (set_nth 3 tag
                (set_nth 2 project (set_nth 1 org (repeat "" 5)))));
      [apply reads_Lit |].
    apply (reads_Seq _ _ _ _ _ _ ["" ; org; project; tag; fileName]).
    { apply (reads_Group 4 _ _ _ _
               (set_nth 3 tag
                  (set_nth 2 project (set_nth 1 org (repeat "" 5))))).
      apply reads_star_any; [exact Hfile | exact I]. }
    apply reads_Lit. }
  specialize (Hreads accept _ eq_refl).
  rewrite !append_nil_r in Hreads.
  assert (Heq : "https://github" ++ "." ++ "com/" ++ org ++ "/" ++ project
                  ++ "/releases/download/" ++ tag ++ "/" ++ fileName
                = release_reference org project tag fileName)
    by reflexivity.
  rewrite Heq in Hreads.
  exact Hreads.
Qed.

(** X2.  A reference in the plain form
    [https://github.com/<org>/<project>/releases/download/<tag>/<fileName>],
    with no [/] in the organisation, the project and the tag and no newline
    in the file name, is matched as a whole, and the four groups are its
    four parts, in this order. *)
Theorem FindStringSubmatch_release_reference
        (org project tag fileName : string) :
  free_of "/" org = true ->
  free_of "/" project = true ->
  free_of "/" tag = true ->
  free_of "010" fileName = true ->
  FindStringSubmatch ReleaseURL (release_reference org project tag fileName)
  = [release_reference org project tag fileName; org; project; tag; fileName].
Proof.
  intros Horg Hproject Htag Hfile.
  apply (FindStringSubmatch_here ReleaseURL _ "h"%char
           ("ttps://github.com/" ++ org ++ "/" ++ project
              ++ "/releases/download/" ++ tag ++ "/" ++ fileName));
    [reflexivity |].
  apply release_reference_match; assumption.
Qed.

(** *** The headers, the request and its answer *)

Lemma request_eta (req : Request) :
  req = {| Method := Method req; RequestURL := RequestURL req;
           Header := (Header req ++ [])%list |}.
Proof. destruct req. cbn. rewrite app_nil_r. reflexivity. Qed.

(** The headers with one [=] at the head of the list are added, and
    [addHeaders] goes on with the rest. *)
Lemma addHeaders_prefix (good rest : list string) (req : Request) :
  Forall well_formed good ->
  exists pairs,
    Forall2 joined good pairs
    /\ addHeaders (good ++ rest) req
       = addHeaders rest
           {| Method := Method req; RequestURL := RequestURL req;
              Header := (Header req ++ pairs)%list |}.
Proof.
  intros H. revert req. induction H as [| h good Hh _ IH]; intros req.
  - exists []. split; [constructor |]. cbn [app].
    rewrite <- request_eta. reflexivity.
  - destruct (Split_well_formed h Hh) as (k & v & Hs & Hj & Hk & Hv).
    destruct (IH (HeaderAdd k v req)) as (pairs & Hpairs & Hrun).
    exists ((k, v) :: pairs).
    split; [constructor; [repeat split; assumption | exact Hpairs] |].
    cbn [app addHeaders]. rewrite Hs. cbn [List.length Nat.eqb negb nth].
    rewrite Hrun. cbn [HeaderAdd Method RequestURL Header].
    rewrite <- app_assoc. reflexivity.
Qed.

(** X3.  When every header has exactly one [=], [addHeaders] returns no
    error and has called [req.Header.Add] once per header, in the order of
    the list and after what the request already had, with the text before
    the [=] as key and the text after it as value. *)
Theorem addHeaders_adds_each_pair (headers : list string) (req : Request) :
  Forall well_formed headers ->
  exists pairs,
    Forall2 joined headers pairs
    /\ addHeaders headers req
       = ({| Method := Method req; RequestURL := RequestURL req;
             Header := (Header req ++ pairs)%list |}, None).
Proof.
  intros H.
  destruct (addHeaders_prefix headers [] req H) as (pairs & Hpairs & Hrun).
  exists pairs. split; [exact Hpairs |].
  rewrite app_nil_r in Hrun. rewrite Hrun. reflexivity.
Qed.

(** X4.  [addHeaders] works on the request in place: when it stops at the
    first header [bad] without exactly one [=], the headers before [bad]
    have been added to the request, those after it have not, and the error
    names [bad]. *)
Theorem addHeaders_keeps_what_it_added
        (good : list string) (bad : string) (rest : list string)
        (req : Request) :
  Forall well_formed good ->
  ~ well_formed bad ->
  exists pairs,
    Forall2 joined good pairs
    /\ addHeaders (good ++ bad :: rest) req
       = ({| Method := Method req; RequestURL := RequestURL req;
             Header := (Header req ++ pairs)%list |},
          Some (invalid_header bad)).
Proof.
  intros Hgood Hbad.
  destruct (addHeaders_prefix good (bad :: rest) req Hgood)
    as (pairs & Hpairs & Hrun).
  exists pairs. split; [exact Hpairs |].
  rewrite Hrun. cbn [addHeaders]. rewrite Split_byte_length.
  destruct (Nat.eqb (S (count_byte "=" bad)) 2) eqn:E; [| reflexivity].
  apply Nat.eqb_eq in E. exfalso. apply Hbad. unfold well_formed. lia.
Qed.


(** The calls of [Header.Add], one after the other. *)
Lemma fold_HeaderAdd (pairs : list (string * string)) (req : Request) :
  fold_left (fun r kv => HeaderAdd (fst kv) (snd kv) r) pairs req
  = {| Method := Method req; RequestURL := RequestURL req;
       Header := (Header req ++ pairs)%list |}.
Proof.
  revert req. induction pairs as [| kv pairs IH]; intros req.
  - cbn [fold_left]. apply request_eta.
  - cbn [fold_left]. rewrite IH. cbn [HeaderAdd Method RequestURL Header].
    rewrite <- app_assoc. destruct kv. reflexivity.
Qed.

(** X5.  For a reference in the plain form and headers that all have
    exactly one [=], when [http.NewRequest] accepts the address: the first
    thing [AssetUrl] does on the network is one call of [Do], with the
    [GET] request for
    [https://api.github.com/repos/<org>/<project>/releases/tags/<tag>] on
    which [req.Header.Add] has been called once per header, in the order
    of the list, with the text before the [=] and the text after it. *)
Theorem AssetUrl_asks_for_the_release_of_the_tag
        (net : Net) (org project tag fileName : string)
        (headers : list string) (w : World net) :
  free_of "/" org = true ->
  free_of "/" project = true ->
  free_of "/" tag = true ->
  free_of "010" fileName = true ->
  Forall well_formed headers ->
  ParseURL net (assetsUrl org project tag) = None ->
  exists pairs out w' rest,
    Forall2 joined headers pairs
    /\ let req :=
         fold_left (fun r kv => HeaderAdd (fst kv) (snd kv) r) pairs
                   {| Method := "GET";
                      RequestURL := assetsUrl org project tag;
                      Header := [] |} in
       AssetUrl net (release_reference org project tag fileName) headers w
       = (out, w', EvDo req (fst (Do net req w)) :: rest).
Proof.
  intros Horg Hproject Htag Hfile Hheaders Hparse.
  pose proof (FindStringSubmatch_here ReleaseURL
                (release_reference org project tag fileName) "h"%char
                ("ttps://github.com/" ++ org ++ "/" ++ project
                   ++ "/releases/download/" ++ tag ++ "/" ++ fileName)
                _ eq_refl
                (release_reference_match org project tag fileName
                   Horg Hproject Htag Hfile)) as Hparts.
  destruct (addHeaders_prefix headers []
              {| Method := "GET"; RequestURL := assetsUrl org project tag;
                 Header := [] |} Hheaders) as (pairs & Hpairs & Hadd).
  rewrite app_nil_r in Hadd.
  cbn [Method RequestURL Header app addHeaders] in Hadd.
  exists pairs. rewrite fold_HeaderAdd. cbn [Method RequestURL Header app].
  rewrite (AssetUrl_matched net _ headers _ _ _ _ _ w Hparts).
  unfold NewRequest. rewrite Hparse, Hadd.
  destruct (Do net _ w) as [[resp | err] w1]; cbn [fst].
  - destruct (Z.geb (StatusCode resp) StatusBadRequest);
      [do 3 eexists; split; [exact Hpairs | reflexivity] |].
    destruct (ReadAll net resp w1) as [[body | err] w2];
      [| do 3 eexists; split; [exact Hpairs | reflexivity]].
    destruct (Unmarshal net body) as [rel | err];
      do 3 eexists; (split; [exact Hpairs | reflexivity]).
  - do 3 eexists. split; [exact Hpairs | reflexivity].
Qed.

(** X6.  When [http.DefaultClient.Do] fails, [AssetUrl] returns the empty
    string and that error; the request is the only event: there is no
    response, nothing is read and nothing is closed. *)
Theorem AssetUrl_transport_error
        (net : Net) (url : string) (headers : list string)
        (whole org project tag file : string) (req0 req : Request)
        (err : string) (w w1 : World net) :
  FindStringSubmatch ReleaseURL url = [whole; org; project; tag; file] ->
  NewRequest net "GET" (assetsUrl org project tag) = inl req0 ->
  addHeaders headers req0 = (req, None) ->
  Do net req w = (inr err, w1) ->
  AssetUrl net url headers w = (Ok ("", Some err), w1, [EvDo req (inr err)]).
Proof.
  intros Hparts Hreq Hhead Hdo.
  rewrite (AssetUrl_matched net url headers _ _ _ _ _ w Hparts).
  rewrite Hreq, Hhead, Hdo. reflexivity.
Qed.


(** X7.  When the store answers with a status code of 400 or more,
    [AssetUrl] returns the empty string and an error whose text is the
    status line of the answer; the body is not read, and it is closed. *)
Theorem AssetUrl_remote_error
        (net : Net) (url : string) (headers : list string)
        (whole org project tag file : string) (req0 req : Request)
        (resp : Response) (w w1 : World net) :
  FindStringSubmatch ReleaseURL url = [whole; org; project; tag; file] ->
  NewRequest net "GET" (assetsUrl org project tag) = inl req0 ->
  addHeaders headers req0 = (req, None) ->
  Do net req w = (inl resp, w1) ->
  (StatusBadRequest <= StatusCode resp)%Z ->
  AssetUrl net url headers w
  = (Ok ("", Some (Status resp)), Close net resp w1,
     [EvDo req (inl resp); EvClose resp]).
Proof.
  intros Hparts Hreq Hhead Hdo Hstatus.
  rewrite (AssetUrl_matched net url headers _ _ _ _ _ w Hparts).
  rewrite Hreq, Hhead, Hdo.
  replace (Z.geb (StatusCode resp) StatusBadRequest) with true
    by (symmetry; rewrite Z.geb_leb; apply Z.leb_le; exact Hstatus).
  reflexivity.
Qed.


(** X8.  When the store answers below 400 and the body cannot be read, or
    is read and is not the JSON of a release, [AssetUrl] returns the empty
    string and the error of [ioutil.ReadAll] or of [json.Unmarshal], and
    the body is closed after the read. *)
Theorem AssetUrl_unreadable_answer
        (net : Net) (url : string) (headers : list string)
        (whole org project tag file : string) (req0 req : Request)
        (resp : Response) (err : string) (w w1 w2 : World net) :
  FindStringSubmatch ReleaseURL url = [whole; org; project; tag; file] ->
  NewRequest net "GET" (assetsUrl org project tag) = inl req0 ->
  addHeaders headers req0 = (req, None) ->
  Do net req w = (inl resp, w1) ->
  (StatusCode resp < StatusBadRequest)%Z ->
  ReadAll net resp w1 = (inr err, w2)
  \/ (exists body,
         ReadAll net resp w1 = (inl body, w2)
         /\ Unmarshal net body = inr err) ->
  AssetUrl net url headers w
  = (Ok ("", Some err), Close net resp w2,
     [EvDo req (inl resp); EvReadAll resp (fst (ReadAll net resp w1));
      EvClose resp]).
Proof.
  intros Hparts Hreq Hhead Hdo Hstatus Hbody.
  rewrite (AssetUrl_matched net url headers _ _ _ _ _ w Hparts).
  rewrite Hreq, Hhead, Hdo.
  replace (Z.geb (StatusCode resp) StatusBadRequest) with false
    by (symmetry; rewrite Z.geb_leb; apply Z.leb_gt; exact Hstatus).
  destruct Hbody as [Hread | (body & Hread & Hparse)]; rewrite Hread.
  - reflexivity.
  - rewrite Hparse. reflexivity.
Qed.

(** X9.  Every run of [AssetUrl], whatever the reference, the headers and
    the store: it does nothing on the network, or makes one request that
    fails and returns its error, or makes one request and closes the body
    of its answer as the last thing it does (the deferred call of line 45),
    after reading the body at most once. *)
Theorem AssetUrl_one_request_one_close
        (net : Net) (url : string) (headers : list string) (w : World net)
        (out : result (string * option string)) (w' : World net)
        (tr : list NetEvent) :
  AssetUrl net url headers w = (out, w', tr) ->
  (tr = [] /\ w' = w)
  \/ (exists req err,
         tr = [EvDo req (inr err)] /\ out = Ok ("", Some err))
  \/ (exists req resp,
         tr = [EvDo req (inl resp); EvClose resp]
         /\ out = Ok ("", Some (Status resp)))
  \/ (exists req resp r,
         tr = [EvDo req (inl resp); EvReadAll resp r; EvClose resp]).
Proof.
  unfold AssetUrl. intros H.
  destruct (nth_error (FindStringSubmatch ReleaseURL url) 1) as [org |] eqn:E1;
    unfold index_at in H; rewrite E1 in H;
    [rewrite bind_ret in H
    | rewrite bind_panic in H; injection H as <- <- <-; left; split;
      reflexivity].
  destruct (nth_error (FindStringSubmatch ReleaseURL url) 2) as [project |];
    [rewrite bind_ret in H
    | rewrite bind_panic in H; injection H as <- <- <-; left; split;
      reflexivity].
  destruct (nth_error (FindStringSubmatch ReleaseURL url) 3) as [tag |];
    [rewrite bind_ret in H
    | rewrite bind_panic in H; injection H as <- <- <-; left; split;
      reflexivity].
  destruct (NewRequest net "GET" _) as [req0 | err];
    [| injection H as <- <- <-; left; split; reflexivity].
  destruct (addHeaders headers req0) as [req [err |]];
    [injection H as <- <- <-; left; split; reflexivity |].
  rewrite bind_call in H.
  destruct (Do net req w) as [[resp | err] w1]; cbn [fst snd] in H.
  - right. right. destruct (Z.geb (StatusCode resp) StatusBadRequest).
    + injection H as <- <- <-. left. exists req, resp. split; reflexivity.
    + right. rewrite bind_assoc, bind_call in H.
      destruct (ReadAll net resp w1) as [[body | err] w2]; cbn [fst snd] in H.
      * destruct (Unmarshal net body) as [rel | err];
          injection H as <- <- <-; exists req, resp, (inl body); reflexivity.
      * injection H as <- <- <-. exists req, resp, (inr err). reflexivity.
  - injection H as <- <- <-. right. left. exists req, err. split; reflexivity.
Qed.

(** *** The theorems above, on the scripted stores *)

Lemma FindStringSubmatch_release_reference_witness :
  free_of "/" "v1.2" = true
  /\ FindStringSubmatch ReleaseURL
                        (release_reference "org" "tool" "v1.2" "tool.zip")
     = [release_reference "org" "tool" "v1.2" "tool.zip";
        "org"; "tool"; "v1.2"; "tool.zip"].
Proof.
  split; [reflexivity |].
  apply (FindStringSubmatch_release_reference "org" "tool" "v1.2" "tool.zip");
    reflexivity.
Defined.

Lemma addHeaders_adds_each_pair_witness :
  Forall well_formed ["Accept=application/json"; "Authorization=token abc"]
  /\ exists pairs,
      Forall2 joined ["Accept=application/json"; "Authorization=token abc"]
              pairs
      /\ addHeaders ["Accept=application/json"; "Authorization=token abc"]
                    {| Method := "GET"; RequestURL := "https://example.com";
                       Header := [("User-Agent", "getme")] |}
         = ({| Method := "GET"; RequestURL := "https://example.com";
               Header := ([("User-Agent", "getme")] ++ pairs)%list |}, None).
Proof.
  assert (H : Forall well_formed
                     ["Accept=application/json"; "Authorization=token abc"])
    by (repeat constructor).
  split; [exact H |].
  exact (addHeaders_adds_each_pair
           _ {| Method := "GET"; RequestURL := "https://example.com";
                Header := [("User-Agent", "getme")] |} H).
Defined.

Lemma addHeaders_keeps_what_it_added_witness :
  ~ well_formed "k=v=w"
  /\ exists pairs,
      Forall2 joined ["Accept=application/json"] pairs
      /\ addHeaders (["Accept=application/json"] ++ "k=v=w" :: ["abc"])
                    {| Method := "GET"; RequestURL := "https://example.com";
                       Header := [] |}
         = ({| Method := "GET"; RequestURL := "https://example.com";
               Header := ([] ++ pairs)%list |},
            Some (invalid_header "k=v=w")).
Proof.
  assert (Hbad : ~ well_formed "k=v=w") by (vm_compute; discriminate).
  split; [exact Hbad |].
  apply (addHeaders_keeps_what_it_added
           ["Accept=application/json"] "k=v=w" ["abc"]
           {| Method := "GET"; RequestURL := "https://example.com";
              Header := [] |});
    [repeat constructor | exact Hbad].
Defined.

Lemma AssetUrl_asks_for_the_release_of_the_tag_witness :
  exists pairs out w' rest,
    Forall2 joined ["Authorization=token abc"] pairs
    /\ let req :=
         fold_left (fun r kv => HeaderAdd (fst kv) (snd kv) r) pairs
                   {| Method := "GET";
                      RequestURL := assetsUrl "org" "tool" "v1.2";
                      Header := [] |} in
       AssetUrl Mock.github_store
                (release_reference "org" "tool" "v1.2" "tool.zip")
                ["Authorization=token abc"] (0 : World Mock.github_store)
       = (out, w', EvDo req (fst (Do Mock.github_store req 0)) :: rest).
Proof.
  apply (AssetUrl_asks_for_the_release_of_the_tag
           Mock.github_store "org" "tool" "v1.2" "tool.zip"
           ["Authorization=token abc"] 0);
    try reflexivity.
  repeat constructor.
Defined.

Lemma AssetUrl_transport_error_witness :
  Do MockMore.offline MockMore.tag_request 0 = (inr "no route to host", 1)
  /\ AssetUrl MockMore.offline Mock.release_url ["Authorization=token abc"]
              (0 : World MockMore.offline)
     = (Ok ("", Some "no route to host"), 1,
        [EvDo MockMore.tag_request (inr "no route to host")]).
Proof.
  split; [reflexivity |].
  apply (AssetUrl_transport_error
           MockMore.offline Mock.release_url ["Authorization=token abc"]
           Mock.release_url "org" "tool" "v1.2" "tool.zip"
           {| Method := "GET";
              RequestURL := assetsUrl "org" "tool" "v1.2";
              Header := [] |}).
  - vm_compute. reflexivity.
  - reflexivity.
  - reflexivity.
  - reflexivity.
Defined.

Lemma AssetUrl_remote_error_witness :
  (StatusBadRequest <= StatusCode (MockMore.answer 404))%Z
  /\ AssetUrl MockMore.missing_store Mock.release_url
              ["Authorization=token abc"] (0 : World MockMore.missing_store)
     = (Ok ("", Some "status"), 2,
        [EvDo MockMore.tag_request (inl (MockMore.answer 404));
         EvClose (MockMore.answer 404)]).
Proof.
  assert (H : (StatusBadRequest <= StatusCode (MockMore.answer 404))%Z)
    by (vm_compute; discriminate).
  split; [exact H |].
  apply (AssetUrl_remote_error
           MockMore.missing_store Mock.release_url ["Authorization=token abc"]
           Mock.release_url "org" "tool" "v1.2" "tool.zip"
           {| Method := "GET";
              RequestURL := assetsUrl "org" "tool" "v1.2";
              Header := [] |}
           MockMore.tag_request (MockMore.answer 404) 0 1).
  - vm_compute. reflexivity.
  - reflexivity.
  - reflexivity.
  - reflexivity.
  - exact H.
Defined.

Lemma AssetUrl_unreadable_answer_witness :
  Unmarshal MockMore.garbled "body" = inr "unexpected end of JSON input"
  /\ AssetUrl MockMore.garbled Mock.release_url ["Authorization=token abc"]
              (0 : World MockMore.garbled)
     = (Ok ("", Some "unexpected end of JSON input"), 3,
        [EvDo MockMore.tag_request (inl (MockMore.answer 200));
         EvReadAll (MockMore.answer 200) (inl "body");
         EvClose (MockMore.answer 200)]).
Proof.
  split; [reflexivity |].
  apply (AssetUrl_unreadable_answer
           MockMore.garbled Mock.release_url ["Authorization=token abc"]
           Mock.release_url "org" "tool" "v1.2" "tool.zip"
           {| Method := "GET";
              RequestURL := assetsUrl "org" "tool" "v1.2";
              Header := [] |}
           MockMore.tag_request (MockMore.answer 200)
           "unexpected end of JSON input" 0 1 2).
  - vm_compute. reflexivity.
  - reflexivity.
  - reflexivity.
  - reflexivity.
  - reflexivity.
  - right. exists "body". split; reflexivity.
Defined.

Lemma AssetUrl_one_request_one_close_witness :
  exists req resp r,
    snd (AssetUrl Mock.github_store Mock.release_url
                  ["Authorization=token abc"] (0 : World Mock.github_store))
    = [EvDo req (inl resp); EvReadAll resp r; EvClose resp].
Proof.
  destruct (AssetUrl_one_request_one_close
              Mock.github_store Mock.release_url ["Authorization=token abc"]
              (0 : World Mock.github_store) _ _ _
              (run_eta (AssetUrl Mock.github_store Mock.release_url
                                 ["Authorization=token abc"]
                                 (0 : World Mock.github_store))))
    as [(H & _) | [(req & err & H & _) | [(req & resp & H & _) | H]]].
  - vm_compute in H. discriminate.
  - vm_compute in H. discriminate.
  - vm_compute in H. discriminate.
  - exact H.
Defined.

End githubExtras.

(** ** The order of the checks of [AssetUrl] *)

Module githubSteps.
Import GoString Regexp github GoStringFacts RegexpFacts githubFacts.
Import reference captured githubExtras.

(** A match has the four groups of the pattern. *)
Lemma match_parts (url : string) :
  FindStringSubmatch ReleaseURL url = []
  \/ exists whole org project tag file,
      FindStringSubmatch ReleaseURL url = [whole; org; project; tag; file].
Proof.
  unfold FindStringSubmatch.
  destruct (search (Group 0 ReleaseURL)
                   (repeat "" (S (NumSubexp ReleaseURL))) 0 url)
    as [r |] eqn:E; [right | left; reflexivity].
  apply search_sound in E. destruct E as (before & m & -> & E).
  apply exec_records in E. destruct E as (a & after & caps' & -> & Ha & E).
  injection E as <-.
  cbn [records ReleaseURL sequence fold_right] in Ha.
  destruct Ha as (c0 & (x1 & r1 & m1 & -> & [-> ->]
                  & dot & r2 & m2 & -> & [_ ->]
                  & x2 & r3 & m3 & -> & [-> ->]
                  & org & r4 & m4 & -> & (n4 & Horg & ->)
                  & x3 & r5 & m5 & -> & [-> ->]
                  & project & r6 & m6 & -> & (n6 & Hproject & ->)
                  & x4 & r7 & m7 & -> & [-> ->]
                  & tag & r8 & m8 & -> & (n8 & Htag & ->)
                  & x5 & r9 & m9 & -> & [-> ->]
                  & file & r10 & m10 & -> & (n10 & Hfile & ->)
                  & -> & ->) & ->).
  apply (records_star_not_byte "/"%char) in Horg; [| reflexivity].
  apply (records_star_not_byte "/"%char) in Hproject; [| reflexivity].
  apply (records_star_not_byte "/"%char) in Htag; [| reflexivity].
  apply records_star_any in Hfile.
  destruct Horg as [-> _]. destruct Hproject as [-> _].
  destruct Htag as [-> _]. destruct Hfile as [-> _].
  do 5 eexists. reflexivity.
Qed.

(** C5, amended.  A header list whose first entry without exactly one [=]
    is [bad] makes [AssetUrl] end with no call to the store, whatever the
    reference: no event, the world as it was.  The lines before [addHeaders]
    run first: a reference that the pattern does not match makes the call
    panic, an address that [http.NewRequest] refuses gives the error of the
    refusal, and otherwise the error is [Invalid header [<bad>]. Should be
    [key=value]]. *)
Theorem AssetUrl_rejects_invalid_header
        (net : Net) (url : string) (headers : list string)
        (good : list string) (bad : string) (rest : list string)
        (w : World net) :
  headers = (good ++ bad :: rest)%list ->
  Forall well_formed good ->
  ~ well_formed bad ->
  (FindStringSubmatch ReleaseURL url = []
   /\ AssetUrl net url headers w
      = (Panic "runtime error: index out of range", w, []))
  \/ exists whole org project tag file,
      FindStringSubmatch ReleaseURL url = [whole; org; project; tag; file]
      /\ AssetUrl net url headers w
         = (Ok ("", Some match ParseURL net (assetsUrl org project tag) with
                         | Some err => err
                         | None => invalid_header bad
                         end), w, []).
Proof.
  intros Hheaders Hgood Hbad.
  destruct (match_parts url)
    as [Hnil | (whole & org & project & tag & file & Hparts)].
  - left. split; [exact Hnil |]. unfold AssetUrl. rewrite Hnil. reflexivity.
  - right. exists whole, org, project, tag, file. split; [exact Hparts |].
    rewrite (AssetUrl_matched net url headers _ _ _ _ _ w Hparts).
    unfold NewRequest.
    destruct (ParseURL net (assetsUrl org project tag)) as [err |];
      [reflexivity |].
    pose proof (addHeaders_stops_at_first_invalid
                  good bad rest Hgood Hbad
                  {| Method := "GET"; RequestURL := assetsUrl org project tag;
                     Header := [] |}) as H.
    rewrite <- Hheaders in H.
    destruct (addHeaders headers _) as [req err]. cbn [snd] in H.
    rewrite H. reflexivity.
Qed.

Lemma AssetUrl_rejects_invalid_header_witness :
  ~ well_formed "k=v=w"
  /\ AssetUrl Mock.github_store Mock.release_url
              ["Accept=application/json"; "k=v=w"; "abc"]
              (0 : World Mock.github_store)
     = (Ok ("", Some "Invalid header [k=v=w]. Should be [key=value]"),
        0, []).
Proof.
  assert (Hbad : ~ well_formed "k=v=w") by (vm_compute; discriminate).
  split; [exact Hbad |].
  destruct (AssetUrl_rejects_invalid_header
              Mock.github_store Mock.release_url
              ["Accept=application/json"; "k=v=w"; "abc"]
              ["Accept=application/json"] "k=v=w" ["abc"]
              (0 : World Mock.github_store) eq_refl
              (Forall_cons _ (eq_refl : well_formed "Accept=application/json")
                           (Forall_nil _)) Hbad)
    as [(Hnil & _) | (whole & org & project & tag & file & Hparts & Hrun)].
  - vm_compute in Hnil. discriminate Hnil.
  - vm_compute in Hparts. injection Hparts as <- <- <- <- <-. exact Hrun.
Defined.

(** C5, as stated, fails: with the header [abc] and a reference whose
    address [http.NewRequest] refuses, the error is that of the address,
    not the one of the header. *)
Lemma AssetUrl_checks_the_address_before_the_headers :
  ~ well_formed "abc"
  /\ AssetUrl MockMore.strict_store
              "https://github.com/org/tool/releases/download/%zz/tool.zip"
              ["abc"] (0 : World MockMore.strict_store)
     = (Ok ("", Some "invalid URL escape"), 0, [])
  /\ AssetUrl MockMore.strict_store
              "https://github.com/org/tool/releases/download/%zz/tool.zip"
              ["abc"] (0 : World MockMore.strict_store)
     <> (Ok ("", Some (invalid_header "abc")), 0, []).
Proof.
  split; [vm_compute; discriminate |].
  split; [vm_compute; reflexivity | vm_compute; discriminate].
Qed.

End githubSteps.


(** ** More about main.go *)

Module mainExtras.
Import main Trace TraceMore mainFacts mainClaims cli.

(** *** The commands, their arguments and the fetch *)

Section CliFacts.
Variable sys : Sys.

Lemma bind_index_at {A B} (xs : list A) (i : nat) (x : A)
      (k : A -> Cmd sys B) (st : State sys) :
  nth_error xs i = Some x -> bind (index_at xs i) k st = k x st.
Proof. intros H. unfold index_at. rewrite H. apply bind_ret. Qed.

Lemma bind_index_out {A B} (xs : list A) (i : nat)
      (k : A -> Cmd sys B) (st : State sys) :
  nth_error xs i = None ->
  bind (index_at xs i) k st
  = (Panic "runtime error: index out of range", st, []).
Proof. intros H. unfold index_at. rewrite H. apply bind_panic. Qed.

Lemma skipn_nth {A} (xs : list A) (i : nat) (x : A) :
  nth_error xs i = Some x -> skipn i xs = x :: skipn (S i) xs.
Proof.
  revert i. induction xs as [| y xs IH]; intros [| i] H; try discriminate.
  - injection H as ->. reflexivity.
  - cbn [nth_error] in H. exact (IH i H).
Qed.

Lemma nth_below {A} (xs : list A) (i : nat) :
  i < List.length xs -> exists x, nth_error xs i = Some x.
Proof.
  intros H. destruct (nth_error xs i) as [x |] eqn:E; [exists x; reflexivity |].
  apply nth_error_None in E. lia.
Qed.

Lemma even_step (n : nat) :
  Nat.even n = true -> 0 < n -> 2 <= n /\ Nat.even (n - 2) = true.
Proof.
  destruct n as [| [| n]]; intros H Hn; try discriminate; [lia |].
  split; [lia |]. replace (S (S n) - 2) with n by lia. exact H.
Qed.

Lemma odd_step (n : nat) :
  Nat.odd n = true -> n = 1 \/ (3 <= n /\ Nat.odd (n - 2) = true).
Proof.
  destruct n as [| [| n]]; intros H; try discriminate; [left; reflexivity |].
  right. replace (S (S n) - 2) with n by lia.
  change (Nat.odd (S (S n))) with (Nat.odd n) in H.
  split; [| exact H]. destruct n; [discriminate | lia].
Qed.

Lemma collectFiles_pairs (args : list string) (fuel : nat) :
  forall (i : nat) (extractedFiles : list ExtractedFile) (st : State sys),
    Nat.even (List.length args - i) = true ->
    List.length args - i <= fuel ->
    collectFiles sys fuel i args extractedFiles st
    = (Ok (extractedFiles ++ pairs (skipn i args))%list, st, []).
Proof.
  induction fuel as [| fuel IH]; intros i acc st Heven Hfuel.
  - cbn [collectFiles].
    replace (Nat.ltb i (List.length args)) with false
      by (symmetry; apply Nat.ltb_ge; lia).
    rewrite skipn_all2 by lia. cbn [pairs]. rewrite app_nil_r. reflexivity.
  - cbn [collectFiles].
    destruct (Nat.ltb i (List.length args)) eqn:E.
    + apply Nat.ltb_lt in E.
      destruct (even_step _ Heven) as (H2 & Heven'); [lia |].
      destruct (nth_below args i) as (source & Hs); [lia |].
      destruct (nth_below args (i + 1)) as (destination & Hd); [lia |].
      rewrite (bind_index_at _ _ _ _ _ Hs), (bind_index_at _ _ _ _ _ Hd).
      rewrite IH;
        [| replace (List.length args - (i + 2)) with (List.length args - i - 2)
             by lia; exact Heven' | lia].
      rewrite (skipn_nth _ _ _ Hs).
      replace (S i) with (i + 1) by lia.
      rewrite (skipn_nth _ _ _ Hd).
      replace (S (i + 1)) with (i + 2) by lia.
      cbn [pairs]. rewrite <- app_assoc. reflexivity.
    + apply Nat.ltb_ge in E. rewrite skipn_all2 by lia.
      cbn [pairs]. rewrite app_nil_r. reflexivity.
Qed.

Lemma collectFiles_panics (args : list string) (fuel : nat) :
  forall (i : nat) (extractedFiles : list ExtractedFile) (st : State sys),
    Nat.odd (List.length args - i) = true ->
    List.length args - i <= fuel ->
    collectFiles sys fuel i args extractedFiles st
    = (Panic "runtime error: index out of range", st, []).
Proof.
  induction fuel as [| fuel IH]; intros i acc st Hodd Hfuel.
  - exfalso. replace (List.length args - i) with 0 in Hodd by lia.
    discriminate.
  - cbn [collectFiles].
    destruct (odd_step _ Hodd) as [H1 | (H3 & Hodd')].
    + replace (Nat.ltb i (List.length args)) with true
        by (symmetry; apply Nat.ltb_lt; lia).
      destruct (nth_below args i) as (source & Hs); [lia |].
      rewrite (bind_index_at _ _ _ _ _ Hs).
      apply bind_index_out. apply nth_error_None. lia.
    + replace (Nat.ltb i (List.length args)) with true
        by (symmetry; apply Nat.ltb_lt; lia).
      destruct (nth_below args i) as (source & Hs); [lia |].
      destruct (nth_below args (i + 1)) as (destination & Hd); [lia |].
      rewrite (bind_index_at _ _ _ _ _ Hs), (bind_index_at _ _ _ _ _ Hd).
      apply IH; [| lia].
      replace (List.length args - (i + 2)) with (List.length args - i - 2)
        by lia.
      exact Hodd'.
Qed.

(** X10.  The four commands check the number of their arguments first:
    [Download] with none, [Copy] and [Extract] with fewer than two and
    [Pinata] with any number other than six return their usage error, with
    no event and the state as it was. *)
Theorem commands_refuse_missing_arguments
        (args : list string) (options : Options) (st : State sys) :
  (List.length args < 1 ->
   DownloadCmd sys args options st
   = (Ok (Some "An url must be provided"), st, []))
  /\ (List.length args < 2 ->
      CopyCmd sys args options st
      = (Ok (Some "An url and a destination must be provided"), st, []))
  /\ (List.length args < 2 ->
      ExtractCmd sys args options st
      = (Ok (Some "An url, a file name and a destination must be provided"),
         st, []))
  /\ (List.length args <> 6 ->
      forall fuel,
        PinataCmd sys fuel args options st
        = (Ok (Some "A commit and platform must be provided"), st, [])).
Proof.
  split; [| split; [| split]]; intros H.
  - unfold DownloadCmd. apply Nat.ltb_lt in H. rewrite H. reflexivity.
  - unfold CopyCmd. apply Nat.ltb_lt in H. rewrite H. reflexivity.
  - unfold ExtractCmd. apply Nat.ltb_lt in H. rewrite H. reflexivity.
  - intros fuel. unfold PinataCmd. apply Nat.eqb_neq in H. rewrite H.
    reflexivity.
Qed.

(** X11.  How the commands read their arguments: [Download] runs on the
    first argument and [Copy] on the first two, whatever follows them;
    [Extract] with exactly two arguments extracts the whole archive; the
    six arguments of [Pinata] are, in this order, the CI address, the user,
    the token, the bucket, the commit and the platform. *)
Theorem commands_pass_their_leading_arguments
        (options : Options) (st : State sys) :
  (forall url rest,
      DownloadCmd sys (url :: rest) options st = Download sys url options st)
  /\ (forall url destination rest,
         CopyCmd sys (url :: destination :: rest) options st
         = Copy sys url options destination st)
  /\ (forall url destinationFolder,
         ExtractCmd sys [url; destinationFolder] options st
         = Extract sys url options destinationFolder st)
  /\ (forall fuel jenkins user token bucket commit platform,
         PinataCmd sys fuel [jenkins; user; token; bucket; commit; platform]
                   options st
         = Pinata sys fuel jenkins user token bucket commit platform
                  options st).
Proof.
  split; [| split; [| split]].
  - intros url rest. unfold DownloadCmd. cbn [List.length Nat.ltb Nat.leb].
    apply (bind_index_at (url :: rest) 0 url). reflexivity.
  - intros url destination rest. unfold CopyCmd.
    cbn [List.length Nat.ltb Nat.leb].
    rewrite (bind_index_at _ 0 url) by reflexivity.
    apply (bind_index_at _ 1 destination). reflexivity.
  - intros url destinationFolder. unfold ExtractCmd.
    cbn [List.length Nat.ltb Nat.leb Nat.eqb].
    rewrite (bind_index_at _ 0 url) by reflexivity.
    apply (bind_index_at _ 1 destinationFolder). reflexivity.
  - intros fuel jenkins user token bucket commit platform.
    unfold PinataCmd. cbn [List.length Nat.eqb negb].
    rewrite (bind_index_at _ 0 jenkins) by reflexivity.
    rewrite (bind_index_at _ 1 user) by reflexivity.
    rewrite (bind_index_at _ 2 token) by reflexivity.
    rewrite (bind_index_at _ 3 bucket) by reflexivity.
    rewrite (bind_index_at _ 4 commit) by reflexivity.
    apply (bind_index_at _ 5 platform). reflexivity.
Qed.

(** X12.  [Extract] with a reference and an even number, at least two, of
    further arguments calls [ExtractFiles] with those arguments taken two by
    two, in order, each pair a source and its destination. *)
Theorem ExtractCmd_pairs_the_arguments
        (url : string) (rest : list string) (options : Options)
        (st : State sys) :
  2 <= List.length rest ->
  Nat.even (List.length rest) = true ->
  ExtractCmd sys (url :: rest) options st
  = ExtractFiles sys url options (pairs rest) st.
Proof.
  intros Hlen Heven. unfold ExtractCmd. cbn [List.length].
  replace (Nat.ltb (S (List.length rest)) 2) with false
    by (symmetry; apply Nat.ltb_ge; lia).
  rewrite (bind_index_at _ 0 url) by reflexivity.
  replace (Nat.eqb (S (List.length rest)) 2) with false
    by (symmetry; apply Nat.eqb_neq; intros E;
        assert (E1 : List.length rest = 1) by lia;
        rewrite E1 in Heven; discriminate).
  unfold bind at 1.
  rewrite (collectFiles_pairs (url :: rest) _ 1 [] st);
    [| cbn [List.length]; replace (S (List.length rest) - 1)
         with (List.length rest) by lia; exact Heven
     | cbn [List.length]; lia].
  cbn [skipn app].
  destruct (ExtractFiles sys url options (pairs rest) st) as [[r s] t].
  reflexivity.
Qed.

(** X13.  [Extract] with a reference and an odd number, at least three, of
    further arguments panics: the loop of lines 80-85 reads [args[i+1]] past
    the end for the last source.  Nothing has been fetched by then. *)
Theorem ExtractCmd_panics_on_a_source_without_destination
        (url : string) (rest : list string) (options : Options)
        (st : State sys) :
  3 <= List.length rest ->
  Nat.odd (List.length rest) = true ->
  ExtractCmd sys (url :: rest) options st
  = (Panic "runtime error: index out of range", st, []).
Proof.
  intros Hlen Hodd. unfold ExtractCmd. cbn [List.length].
  replace (Nat.ltb (S (List.length rest)) 2) with false
    by (symmetry; apply Nat.ltb_ge; lia).
  rewrite (bind_index_at _ 0 url) by reflexivity.
  replace (Nat.eqb (S (List.length rest)) 2) with false
    by (symmetry; apply Nat.eqb_neq; lia).
  unfold bind at 1.
  rewrite (collectFiles_panics (url :: rest) _ 1 [] st);
    [reflexivity
    | cbn [List.length]; replace (S (List.length rest) - 1)
        with (List.length rest) by lia; exact Hodd
    | cbn [List.length]; lia].
Qed.

(** X14.  When the cache fetch fails, [Download], [Copy], [Extract] and
    [ExtractFiles] return the error of the fetch and do nothing after it:
    nothing is printed, logged, copied or extracted.  The fetch is the only
    event, after the silencing of the log by [Download], and by [Copy] when
    the destination is [-]. *)
Theorem commands_stop_at_a_failed_fetch
        (url : string) (options : Options) (st : State sys)
        (err : string) (w : World sys) :
  cache_Download sys url options (force st) (world st) = (inr err, w) ->
  let fetched := EvCacheDownload url options (force st) (inr err) in
  let st' := {| world := w; force := force st |} in
  Download sys url options st
  = (Ok (Some err), st', [EvLogSetOutput Discard; fetched])
  /\ (forall destination,
         Copy sys url options destination st
         = (Ok (Some err), st', (silence destination ++ [fetched])%list))
  /\ (forall directory,
         Extract sys url options directory st
         = (Ok (Some err), st', [fetched]))
  /\ (forall files,
         ExtractFiles sys url options files st
         = (Ok (Some err), st', [fetched])).
Proof.
  intros H fetched st'. split; [| split; [| split]].
  - rewrite Download_run, H. reflexivity.
  - intros destination. unfold Copy, silence.
    destruct (String.eqb destination "-").
    + rewrite bind_emit, bind_fetch, H. reflexivity.
    + rewrite bind_ret, bind_fetch, H. reflexivity.
  - intros directory. unfold Extract. rewrite bind_fetch, H. reflexivity.
  - intros files. unfold ExtractFiles. rewrite bind_fetch, H. reflexivity.
Qed.

(** X15.  After a cache fetch that gives the local path [source], [Copy]
    logs one line and returns what [files.Copy] returns for [source], the
    path in the cache, and the destination.  The log is silenced first
    exactly when the destination is [-]. *)
Theorem Copy_copies_the_cached_file
        (url : string) (options : Options) (destination : string)
        (st : State sys) (source : string) (w : World sys) :
  cache_Download sys url options (force st) (world st) = (inl source, w) ->
  Copy sys url options destination st
  = prepend (silence destination
               ++ [EvCacheDownload url options (force st) (inl source);
                   EvLogPrintln ("Copy " ++ url ++ " to " ++ destination)])
      (outside_run (files_Copy sys source destination)
                   (EvCopy source destination) (force st) w).
Proof.
  intros H. unfold Copy, silence.
  destruct (String.eqb destination "-").
  - rewrite bind_emit, bind_fetch, H, bind_emit, outside_is_run.
    reflexivity.
  - rewrite bind_ret, bind_fetch, H, bind_emit, outside_is_run.
    reflexivity.
Qed.

End CliFacts.

(** *** Runs whose events are all of one kind *)

Section Only.
Variable sys : Sys.
Variable p : Event sys -> bool.

Lemma only_ret {A} (a : A) : only p (ret a : Cmd sys A).
Proof. intros st out st' tr H. finished H. reflexivity. Qed.

Lemma only_panic {A} (msg : string) : only p (panic msg : Cmd sys A).
Proof. intros st out st' tr H. finished H. reflexivity. Qed.

Lemma only_out_of_fuel {A} : only p (out_of_fuel : Cmd sys A).
Proof. intros st out st' tr H. finished H. reflexivity. Qed.

Lemma only_gets {A} (g : State sys -> A) : only p (gets g).
Proof. intros st out st' tr H. finished H. reflexivity. Qed.

Lemma only_bind {A B} (m : Cmd sys A) (k : A -> Cmd sys B) :
  only p m -> (forall a, only p (k a)) -> only p (bind m k).
Proof.
  intros Hm Hk st out st' tr H. apply bind_inv in H.
  destruct H as (o1 & s1 & t1 & H1 & H). pose proof (Hm _ _ _ _ H1) as Ht1.
  destruct o1 as [a | msg |].
  - destruct H as (t2 & H2 & ->). rewrite forallb_app, Ht1.
    exact (Hk a _ _ _ _ H2).
  - destruct H as (_ & _ & ->). exact Ht1.
  - destruct H as (_ & _ & ->). exact Ht1.
Qed.

Lemma only_emit (e : Event sys) : p e = true -> only p (emit e : Cmd sys unit).
Proof. intros He st out st' tr H. finished H. cbn. rewrite He. reflexivity. Qed.

Lemma only_outside {R} (c : World sys -> R * World sys) (e : R -> Event sys) :
  (forall r, p (e r) = true) -> only p (outside sys c e).
Proof.
  intros He st out st' tr H. unfold outside, call in H.
  destruct (c (world st)) as [r w]. finished H. cbn. rewrite He. reflexivity.
Qed.

Lemma only_inspect {R} (r : R) (e : R -> Event sys) :
  p (e r) = true -> only p (inspect sys r e).
Proof.
  intros He. unfold inspect. apply only_bind;
    [apply only_emit, He | intros _; apply only_ret].
Qed.

Lemma only_index_at {A} (xs : list A) (i : nat) :
  only p (index_at xs i : Cmd sys A).
Proof.
  unfold index_at. destruct (nth_error xs i);
    [apply only_ret | apply only_panic].
Qed.

End Only.

Ltac only_step :=
  first [ apply only_ret | apply only_panic | apply only_out_of_fuel
        | apply only_index_at | apply only_gets
        | apply only_emit; reflexivity
        | apply only_outside; intros ?; reflexivity
        | apply only_inspect; reflexivity
        | solve [auto]
        | match goal with
          | |- only _ (match ?x with _ => _ end) => destruct x
          | |- only _ (bind _ _) => apply only_bind; [| intros ?]
          end ].

Section Plainly.
Variable sys : Sys.

(** *** The loops and the fetch never trigger a build and, the fetch apart,
    never print *)

Section Plain.
Variable p : Event sys -> bool.
Hypothesis p_queue : forall e, queue_event e = true -> p e = true.
Hypothesis p_poll : forall e, poll_event e = true -> p e = true.

Lemma only_of (q : Event sys -> bool) {A} (c : Cmd sys A) :
  (forall e, q e = true -> p e = true) ->
  (forall st out st' tr, c st = (out, st', tr) -> forallb q tr = true) ->
  only p c.
Proof.
  intros Hqp Hc st out st' tr H. apply Hc in H.
  rewrite forallb_forall in *. intros e He. apply Hqp, H, He.
Qed.

Lemma only_waitQueue (fuel : nat) (taskId : Z) :
  only p (waitQueue sys fuel taskId).
Proof.
  apply (only_of queue_event); [exact p_queue |].
  intros st out st' tr H. apply waitQueue_inv in H. apply H.
Qed.

Lemma only_waitBuild (fuel : nat) (job : Job sys) (number : Z)
      (b : Build sys) :
  only p (waitBuild sys fuel job number b).
Proof.
  apply (only_of poll_event); [exact p_poll |].
  intros st out st' tr H. apply waitBuild_inv in H. apply H.
Qed.

End Plain.

Lemma only_Download (p : Event sys -> bool) (url : string)
      (options : Options) :
  (forall w, p (EvLogSetOutput w) = true) ->
  (forall u o f r, p (EvCacheDownload u o f r) = true) ->
  (forall s, p (EvPrintln s) = true) ->
  only p (Download sys url options).
Proof.
  intros H1 H2 H3. unfold Download.
  apply only_bind; [apply only_emit, H1 | intros _].
  apply only_bind; [apply only_gets | intros f].
  apply only_bind; [apply only_outside; intros r; apply H2 | intros r].
  destruct r; [| apply only_ret].
  apply only_bind; [apply only_emit, H3 | intros _; apply only_ret].
Qed.

Lemma queue_not_trigger (e : Event sys) :
  queue_event e = true -> not_trigger e = true.
Proof. destruct e; try discriminate; reflexivity. Qed.

Lemma poll_not_trigger (e : Event sys) :
  poll_event e = true -> not_trigger e = true.
Proof. destruct e; try discriminate; reflexivity. Qed.

Lemma queue_not_print (e : Event sys) :
  queue_event e = true -> not_print e = true.
Proof. destruct e; try discriminate; reflexivity. Qed.

Lemma poll_not_print (e : Event sys) :
  poll_event e = true -> not_print e = true.
Proof. destruct e; try discriminate; reflexivity. Qed.

Lemma followBuild_never_triggers (fuel : nat) (job : Job sys) (number : Z)
      (b : Build sys) (binary : string) (options : Options) :
  only not_trigger (followBuild sys fuel job number b binary options).
Proof.
  pose proof (only_waitBuild not_trigger poll_not_trigger).
  assert (forall url, only not_trigger (Download sys url options))
    by (intros url; apply only_Download; reflexivity).
  unfold followBuild. repeat only_step.
Qed.

Lemma scanBuilds_never_triggers (fuel : nat) (job : Job sys)
      (commit binary : string) (options : Options) (ids : list JobBuild) :
  only not_trigger (scanBuilds sys fuel job commit binary options ids).
Proof.
  pose proof followBuild_never_triggers.
  induction ids as [| id ids IH]; cbn [scanBuilds]; repeat only_step.
Qed.

End Plainly.

Section Triggers.
Variable sys : Sys.

(** *** One trigger *)

Lemma split_unique (np : Event sys -> bool) (P R : list (Event sys))
      (T : Event sys) :
  forallb np P = true -> forallb np R = true ->
  forall before T' after,
    np T' = false ->
    (P ++ T :: R)%list = (before ++ T' :: after)%list ->
    before = P /\ T' = T /\ after = R.
Proof.
  intros HP HR. induction P as [| x P IH]; intros before T' after HT' E.
  - destruct before as [| b before]; cbn [app] in E.
    + injection E as <- <-. repeat split.
    + exfalso. injection E as _ ->. rewrite forallb_app in HR.
      cbn [forallb] in HR. rewrite HT' in HR.
      rewrite andb_false_r in HR. discriminate.
  - cbn [forallb] in HP. apply andb_true_iff in HP. destruct HP as [Hx HP].
    destruct before as [| b before]; cbn [app] in E.
    + exfalso. injection E as -> _. rewrite Hx in HT'. discriminate.
    + injection E as -> E. destruct (IH HP before T' after HT' E)
        as (-> & -> & ->).
      repeat split.
Qed.

Lemma no_split (np : Event sys -> bool) (tr before after : list (Event sys))
      (T' : Event sys) :
  forallb np tr = true -> np T' = false ->
  tr <> (before ++ T' :: after)%list.
Proof.
  intros H HT' ->. rewrite forallb_app in H. cbn [forallb] in H.
  rewrite HT', andb_false_r in H. discriminate.
Qed.

Lemma download_never_triggers (url : string) (options : Options) (f : bool)
      (r : string + string) :
  forallb not_trigger (download_events (sys := sys) url options f r) = true.
Proof. destruct r; reflexivity. Qed.

Lemma Pinata_trigger_shape
      (fuel : nat) (jenkins user token bucket commit platform : string)
      (options : Options) (st : State sys)
      (out : result (option string)) (st' : State sys)
      (tr : list (Event sys)) :
  Pinata sys fuel jenkins user token bucket commit platform options st
  = (out, st', tr) ->
  forallb not_trigger tr = true
  \/ exists err job r after,
      tr = ((download_events (binary_of bucket commit platform) options
                             (force st) (inr err)
               ++ [EvLogSetOutput Stdout;
                   EvLogPrintln "Trigger jenkins build";
                   EvInit jenkins user token None;
                   EvGetJob ("pinata-" ++ platform ++ "-iso") (inl job)])
              ++ EvInvokeSimple job [("COMMIT_ID", commit)] r :: after)%list
      /\ forallb not_trigger after = true.
Proof.
  intros H. unfold Pinata in H.
  fold (binary_of bucket commit platform) in H.
  rewrite bind_Download in H.
  destruct (cache_Download sys (binary_of bucket commit platform) options
                           (force st) (world st)) as [[source | err] w].
  { unprepend H. finished H. left. reflexivity. }
  cbn [error_of] in H. apply prepend_inv in H. destruct H as (t & H & ->).
  rewrite !bind_emit, bind_outside in H. unprepend H.
  destruct (Init sys jenkins user token w) as [[e |] w1]; cbn [fst snd] in H.
  { finished H. left. reflexivity. }
  rewrite bind_outside in H. unprepend H.
  destruct (GetJob sys _ w1) as [[job | e] w2]; cbn [fst snd] in H.
  2:{ finished H. left. reflexivity. }
  rewrite bind_outside in H. unprepend H.
  destruct (InvokeSimple sys job _ w2) as [r w3] eqn:Einvoke;
    cbn [fst snd] in H.
  right. exists err, job, r. eexists. split.
  { rewrite <- !app_assoc. cbn [app]. reflexivity. }
  assert (Hrest :
            only not_trigger
                 (match r with
                  | inr err => ret (Some err)
                  | inl taskId =>
                      emit (EvLogPrintln "Waiting for queue") ;;;
                      q <- waitQueue sys fuel taskId ;;
                      match q with
                      | Some err => ret (Some err)
                      | None =>
                          ids <- outside sys (GetAllBuildIds sys job)
                                         (EvGetAllBuildIds job) ;;
                          match ids with
                          | inr err => ret (Some err)
                          | inl ids =>
                              scanBuilds sys fuel job commit
                                         (binary_of bucket commit platform)
                                         options ids
                          end
                      end
                  end)).
  { pose proof (only_waitQueue sys not_trigger (queue_not_trigger sys)).
    pose proof (scanBuilds_never_triggers sys).
    repeat only_step. }
  exact (Hrest _ _ _ _ H).
Qed.

(** X16.  In every run of [Pinata], a call of [InvokeSimple] has the one
    parameter [COMMIT_ID], set to the commit; it comes right after the
    failed first fetch, the two calls on the log, the connection with the
    given address, user and token, and the lookup of the job
    [pinata-<platform>-iso], all of which succeeded; and no other call of
    [InvokeSimple] follows it. *)
Theorem Pinata_triggers_one_build
        (fuel : nat) (jenkins user token bucket commit platform : string)
        (options : Options) (st : State sys)
        (out : result (option string)) (st' : State sys)
        (tr : list (Event sys))
        (before : list (Event sys)) (job : Job sys)
        (params : list (string * string)) (r : Z + string)
        (after : list (Event sys)) :
  Pinata sys fuel jenkins user token bucket commit platform options st
  = (out, st', tr) ->
  tr = (before ++ EvInvokeSimple job params r :: after)%list ->
  params = [("COMMIT_ID", commit)]
  /\ (exists err,
         before
         = (download_events (binary_of bucket commit platform) options
                            (force st) (inr err)
              ++ [EvLogSetOutput Stdout;
                  EvLogPrintln "Trigger jenkins build";
                  EvInit jenkins user token None;
                  EvGetJob ("pinata-" ++ platform ++ "-iso") (inl job)])%list)
  /\ forallb not_trigger after = true.
Proof.
  intros H E. apply Pinata_trigger_shape in H.
  destruct H as [H | (err & job' & r' & after' & Htr & Hafter)].
  { exfalso. revert E. apply (no_split not_trigger); [exact H | reflexivity]. }
  rewrite Htr in E.
  apply (split_unique not_trigger) in E;
    [| rewrite forallb_app, download_never_triggers; reflexivity
     | exact Hafter | reflexivity].
  destruct E as (-> & E & ->). injection E as <- <- <-.
  split; [reflexivity |]. split; [exists err; reflexivity | exact Hafter].
Qed.

End Triggers.

Section Outcomes.
Variable sys : Sys.

(** *** Errors of the CI system *)

Lemma halted_prepend {A} (err_of : A -> option string) (t1 : list (Event sys))
      (out : result A) (t2 : list (Event sys)) :
  forallb calm t1 = true -> halted err_of out t2 ->
  halted err_of out (t1 ++ t2).
Proof.
  intros H1 [H2 | (before & e & err & a & -> & Hb & He & Ho & Ha)].
  - left. rewrite forallb_app, H1. exact H2.
  - right. exists (t1 ++ before)%list, e, err, a.
    split; [apply app_assoc |]. split; [| auto].
    rewrite forallb_app, H1. exact Hb.
Qed.

Lemma halts_only {A} (err_of : A -> option string) (c : Cmd sys A) :
  only calm c -> halts err_of c.
Proof. intros H st out st' tr Hrun. left. exact (H _ _ _ _ Hrun). Qed.

Lemma halts_ret {A} (err_of : A -> option string) (a : A) :
  halts err_of (ret a : Cmd sys A).
Proof. apply halts_only, only_ret. Qed.

Lemma halts_outside {R} (c : World sys -> R * World sys)
      (e : R -> Event sys) :
  halts (fun r => ci_error (e r)) (outside sys c e).
Proof.
  intros st out st' tr H. unfold outside, call in H.
  destruct (c (world st)) as [r w]. finished H.
  destruct (ci_error (e r)) as [err |] eqn:E.
  - right. exists [], (e r), err, r. repeat split; assumption.
  - left. cbn [forallb]. unfold calm. rewrite E. reflexivity.
Qed.

Lemma halts_bind {A B} (g : A -> option string) (f : B -> option string)
      (m : Cmd sys A) (k : A -> Cmd sys B) :
  halts g m ->
  (forall a,
      match g a with
      | Some err => exists b, k a = ret b /\ f b = Some err
      | None => halts f (k a)
      end) ->
  halts f (bind m k).
Proof.
  intros Hm Hk st out st' tr H. apply bind_inv in H.
  destruct H as (o1 & s1 & t1 & H1 & H). pose proof (Hm _ _ _ _ H1) as Ht1.
  destruct o1 as [a | msg |].
  - destruct H as (t2 & H2 & ->). specialize (Hk a).
    destruct Ht1 as [Ht1 | (before & e & err & a' & -> & Hb & He & Ho & Ha)].
    + destruct (g a) as [err |].
      * destruct Hk as (b & Hkb & _). rewrite Hkb in H2. finished H2.
        left. rewrite app_nil_r. exact Ht1.
      * apply halted_prepend; [exact Ht1 | exact (Hk _ _ _ _ H2)].
    + injection Ho as <-. rewrite Ha in Hk.
      destruct Hk as (b & Hkb & Hfb). rewrite Hkb in H2. finished H2.
      right. exists before, e, err, b. rewrite app_nil_r.
      repeat split; assumption.
  - destruct H as (-> & _ & ->).
    destruct Ht1 as [Ht1 | (before & e & err & a' & _ & _ & _ & Ho & _)];
      [left; exact Ht1 | discriminate].
  - destruct H as (-> & _ & ->).
    destruct Ht1 as [Ht1 | (before & e & err & a' & _ & _ & _ & Ho & _)];
      [left; exact Ht1 | discriminate].
Qed.

(** A step that cannot fail in the CI system, then the rest. *)
Lemma halts_after {A B} (f : B -> option string)
      (m : Cmd sys A) (k : A -> Cmd sys B) :
  only calm m -> (forall a, halts f (k a)) -> halts f (bind m k).
Proof.
  intros Hm Hk. apply (halts_bind (fun _ => None)); [| exact Hk].
  apply halts_only, Hm.
Qed.

Lemma halts_waitQueue (fuel : nat) (taskId : Z) :
  halts (fun err => err) (waitQueue sys fuel taskId).
Proof.
  induction fuel as [| fuel IH]; cbn [waitQueue].
  - apply halts_only, only_out_of_fuel.
  - apply (halts_bind (fun r => ci_error (sys := sys) (EvGetQueue r)));
      [apply halts_outside |].
    intros [queue | err]; cbn [ci_error];
      [| eexists; split; reflexivity].
    apply halts_after; [apply only_inspect; reflexivity |].
    intros [task |]; [| apply halts_ret].
    apply halts_after; [| intros _; exact IH].
    unfold sleep. apply only_outside. reflexivity.
Qed.

Lemma halts_waitBuild (fuel : nat) (job : Job sys) (number : Z)
      (b : Build sys) :
  halts error_of (waitBuild sys fuel job number b).
Proof.
  revert b. induction fuel as [| fuel IH]; intros b; cbn [waitBuild].
  - apply halts_only, only_out_of_fuel.
  - apply halts_after; [apply only_outside; reflexivity |].
    intros [|]; cbn [negb]; [| apply halts_ret].
    apply halts_after; [apply only_emit; reflexivity | intros _].
    apply halts_after;
      [unfold sleep; apply only_outside; reflexivity | intros _].
    apply (halts_bind (fun r => ci_error (EvGetBuild job number r)));
      [apply halts_outside |].
    intros [b' | err]; cbn [ci_error];
      [apply IH | eexists; split; reflexivity].
Qed.

Lemma calm_Download (url : string) (options : Options) :
  only calm (Download sys url options).
Proof. apply only_Download; reflexivity. Qed.

Lemma halts_followBuild (fuel : nat) (job : Job sys) (number : Z)
      (b : Build sys) (binary : string) (options : Options) :
  halts (fun err => err)
        (followBuild sys fuel job number b binary options).
Proof.
  unfold followBuild.
  apply (halts_bind error_of); [apply halts_waitBuild |].
  intros [b' | err]; cbn [error_of]; [| eexists; split; reflexivity].
  apply halts_after; [apply only_outside; reflexivity |].
  intros [|]; [apply halts_only, calm_Download | apply halts_ret].
Qed.

Lemma halts_scanBuilds (fuel : nat) (job : Job sys)
      (commit binary : string) (options : Options) (ids : list JobBuild) :
  halts (fun err => err)
        (scanBuilds sys fuel job commit binary options ids).
Proof.
  induction ids as [| id ids IH]; cbn [scanBuilds]; [apply halts_ret |].
  apply (halts_bind (fun r => ci_error (EvGetBuild job (Number id) r)));
    [apply halts_outside |].
  intros [b | err]; cbn [ci_error]; [| eexists; split; reflexivity].
  apply halts_after; [apply only_inspect; reflexivity | intros params].
  apply halts_after; [apply only_index_at | intros p0].
  destruct (String.eqb (Value p0) commit);
    [apply halts_followBuild | exact IH].
Qed.

Lemma halts_Pinata (fuel : nat)
      (jenkins user token bucket commit platform : string)
      (options : Options) :
  halts (fun err => err)
        (Pinata sys fuel jenkins user token bucket commit platform options).
Proof.
  unfold Pinata.
  apply halts_after; [apply calm_Download |].
  intros [_ |]; [| apply halts_ret].
  apply halts_after; [apply only_emit; reflexivity | intros _].
  apply halts_after; [apply only_emit; reflexivity | intros _].
  apply (halts_bind (fun r => ci_error (sys := sys) (EvInit jenkins user token r)));
    [apply halts_outside |].
  intros [err |]; cbn [ci_error]; [eexists; split; reflexivity |].
  apply (halts_bind
           (fun r => ci_error (sys := sys)
                       (EvGetJob ("pinata-" ++ platform ++ "-iso") r)));
    [apply halts_outside |].
  intros [job | err]; cbn [ci_error]; [| eexists; split; reflexivity].
  apply (halts_bind
           (fun r => ci_error
                       (EvInvokeSimple job [("COMMIT_ID", commit)] r)));
    [apply halts_outside |].
  intros [taskId | err]; cbn [ci_error]; [| eexists; split; reflexivity].
  apply halts_after; [apply only_emit; reflexivity | intros _].
  apply (halts_bind (fun err => err)); [apply halts_waitQueue |].
  intros [err |]; [eexists; split; reflexivity |].
  apply (halts_bind (fun r => ci_error (EvGetAllBuildIds job r)));
    [apply halts_outside |].
  intros [ids | err]; cbn [ci_error]; [| eexists; split; reflexivity].
  apply halts_scanBuilds.
Qed.

Lemma calm_false (e : Event sys) (err : string) :
  ci_error e = Some err -> calm e = false.
Proof. intros H. unfold calm. rewrite H. reflexivity. Qed.

(** X17.  In every run of [Pinata], a call to the CI system that answers
    with an error ([Init], [GetJob], [InvokeSimple], [GetQueue],
    [GetAllBuildIds], [GetBuild]) is the last event of the run, and the run
    returns that error, unchanged. *)
Theorem Pinata_stops_at_the_first_CI_error
        (fuel : nat) (jenkins user token bucket commit platform : string)
        (options : Options) (st : State sys)
        (out : result (option string)) (st' : State sys)
        (tr : list (Event sys))
        (before : list (Event sys)) (e : Event sys)
        (after : list (Event sys)) (err : string) :
  Pinata sys fuel jenkins user token bucket commit platform options st
  = (out, st', tr) ->
  tr = (before ++ e :: after)%list ->
  ci_error e = Some err ->
  after = [] /\ out = Ok (Some err).
Proof.
  intros H E He. apply halts_Pinata in H.
  destruct H as [H | (before' & e' & err' & a & -> & Hb & He' & -> & ->)].
  { exfalso. revert E.
    apply (no_split sys calm); [exact H | exact (calm_false _ _ He)]. }
  apply (split_unique sys calm) in E;
    [| exact Hb | reflexivity | exact (calm_false _ _ He)].
  destruct E as (_ & -> & ->). split; [reflexivity |].
  rewrite He in He'. injection He' as <-. reflexivity.
Qed.

(** *** What is printed *)

Lemma announced_prepend (url : string) (t1 : list (Event sys))
      (out : result (option string)) (t2 : list (Event sys)) :
  forallb not_print t1 = true -> announced url out t2 ->
  announced url out (t1 ++ t2).
Proof.
  intros H1 [(Ho & before & o & f & source & -> & Hb) | (Ho & H2)].
  - left. split; [exact Ho |]. exists (t1 ++ before)%list, o, f, source.
    split; [apply app_assoc |]. rewrite forallb_app, H1. exact Hb.
  - right. split; [exact Ho |]. rewrite forallb_app, H1. exact H2.
Qed.

Lemma announces_error (url err : string) :
  announces url (ret (Some err) : Cmd sys (option string)).
Proof.
  intros st out st' tr H. finished H. right.
  split; [discriminate | reflexivity].
Qed.

Lemma announces_bind {A} (url : string) (m : Cmd sys A)
      (k : A -> Cmd sys (option string)) :
  only not_print m -> (forall a, announces url (k a)) ->
  announces url (bind m k).
Proof.
  intros Hm Hk st out st' tr H. apply bind_inv in H.
  destruct H as (o1 & s1 & t1 & H1 & H). pose proof (Hm _ _ _ _ H1) as Ht1.
  destruct o1 as [a | msg |].
  - destruct H as (t2 & H2 & ->).
    apply announced_prepend; [exact Ht1 | exact (Hk a _ _ _ _ H2)].
  - destruct H as (-> & _ & ->). right. split; [discriminate | exact Ht1].
  - destruct H as (-> & _ & ->). right. split; [discriminate | exact Ht1].
Qed.

Lemma announces_Download (url : string) (options : Options) :
  announces url (Download sys url options).
Proof.
  intros st out st' tr H. rewrite Download_run in H.
  destruct (cache_Download sys url options (force st) (world st))
    as [[source | err] w]; finished H; cbn [error_of download_events].
  - left. split; [reflexivity |].
    exists [EvLogSetOutput Discard], options, (force st), source.
    split; reflexivity.
  - right. split; [discriminate | reflexivity].
Qed.

Lemma announces_followBuild (fuel : nat) (job : Job sys) (number : Z)
      (b : Build sys) (binary : string) (options : Options) :
  announces binary (followBuild sys fuel job number b binary options).
Proof.
  unfold followBuild. apply announces_bind;
    [apply (only_waitBuild sys not_print (poll_not_print sys)) |].
  intros [b' | err]; [| apply announces_error].
  apply announces_bind; [apply only_outside; reflexivity |].
  intros [|]; [apply announces_Download | apply announces_error].
Qed.

Lemma announces_scanBuilds (fuel : nat) (job : Job sys)
      (commit binary : string) (options : Options) (ids : list JobBuild) :
  announces binary (scanBuilds sys fuel job commit binary options ids).
Proof.
  induction ids as [| id ids IH]; cbn [scanBuilds];
    [apply announces_error |].
  apply announces_bind; [apply only_outside; reflexivity |].
  intros [b | err]; [| apply announces_error].
  apply announces_bind; [apply only_inspect; reflexivity | intros params].
  apply announces_bind; [apply only_index_at | intros p0].
  destruct (String.eqb (Value p0) commit);
    [apply announces_followBuild | exact IH].
Qed.

Lemma announces_Pinata (fuel : nat)
      (jenkins user token bucket commit platform : string)
      (options : Options) :
  announces (binary_of bucket commit platform)
            (Pinata sys fuel jenkins user token bucket commit platform
                    options).
Proof.
  intros st out st' tr H. unfold Pinata in H.
  fold (binary_of bucket commit platform) in H.
  rewrite bind_Download in H.
  destruct (cache_Download sys (binary_of bucket commit platform) options
                           (force st) (world st)) as [[source | err] w].
  { unprepend H. finished H. cbn [download_events app]. left.
    split; [reflexivity |].
    exists [EvLogSetOutput Discard], options, (force st), source.
    split; reflexivity. }
  cbn [error_of] in H. apply prepend_inv in H. destruct H as (t & H & ->).
  apply announced_prepend; [reflexivity |].
  revert H. generalize {| world := w; force := force st |}. intros st1 H.
  revert st1 out st' t H.
  change (announces (binary_of bucket commit platform)
            (emit (EvLogSetOutput Stdout) ;;;
             emit (EvLogPrintln "Trigger jenkins build") ;;;
             err <- outside sys (Init sys jenkins user token)
                            (EvInit jenkins user token) ;;
             match err with
             | Some err => ret (Some err)
             | None =>
                 j <- outside sys (GetJob sys ("pinata-" ++ platform ++ "-iso"))
                              (EvGetJob ("pinata-" ++ platform ++ "-iso")) ;;
                 match j with
                 | inr err => ret (Some err)
                 | inl job =>
                     t <- outside sys
                            (InvokeSimple sys job [("COMMIT_ID", commit)])
                            (EvInvokeSimple job [("COMMIT_ID", commit)]) ;;
                     match t with
                     | inr err => ret (Some err)
                     | inl taskId =>
                         emit (EvLogPrintln "Waiting for queue") ;;;
                         q <- waitQueue sys fuel taskId ;;
                         match q with
                         | Some err => ret (Some err)
                         | None =>
                             ids <- outside sys (GetAllBuildIds sys job)
                                            (EvGetAllBuildIds job) ;;
                             match ids with
                             | inr err => ret (Some err)
                             | inl ids =>
                                 scanBuilds sys fuel job commit
                                   (binary_of bucket commit platform)
                                   options ids
                             end
                         end
                     end
                 end
             end)).
  apply announces_bind; [apply only_emit; reflexivity | intros _].
  apply announces_bind; [apply only_emit; reflexivity | intros _].
  apply announces_bind; [apply only_outside; reflexivity |].
  intros [err' |]; [apply announces_error |].
  apply announces_bind; [apply only_outside; reflexivity |].
  intros [job | err']; [| apply announces_error].
  apply announces_bind; [apply only_outside; reflexivity |].
  intros [taskId | err']; [| apply announces_error].
  apply announces_bind; [apply only_emit; reflexivity | intros _].
  apply announces_bind;
    [apply (only_waitQueue sys not_print (queue_not_print sys)) |].
  intros [err' |]; [apply announces_error |].
  apply announces_bind; [apply only_outside; reflexivity |].
  intros [ids | err']; [| apply announces_error].
  apply announces_scanBuilds.
Qed.


End Outcomes.

Ltac count_fetches :=
  repeat (rewrite fetches_app || rewrite fetches_download
          || rewrite passed_no_fetch
          || (rewrite fetches_other by reflexivity)).

(** *** The fetches, and the end of the waits *)

Section Fetches.
Variable sys : Sys.

(** X19.  Every run of [Pinata] asks the cache store once or twice, each
    time for the same artifact with the options given and the value of
    [force].  When the only fetch succeeds the run returns [nil]; a second
    fetch is made only after the first failed, and the run returns its
    result. *)
Theorem Pinata_fetches_at_most_twice
        (fuel : nat) (jenkins user token bucket commit platform : string)
        (options : Options) (st : State sys)
        (out : result (option string)) (st' : State sys)
        (tr : list (Event sys)) :
  Pinata sys fuel jenkins user token bucket commit platform options st
  = (out, st', tr) ->
  let fetch := EvCacheDownload (binary_of bucket commit platform) options
                               (force st) in
  (exists r,
      fetches tr = [fetch r]
      /\ forall source, r = inl source -> out = Ok None)
  \/ (exists err r,
         fetches tr = [fetch (inr err); fetch r] /\ out = Ok (error_of r)).
Proof.
  intros H fetch. apply Pinata_inv in H.
  destruct H as [(source & -> & ->) | (err & setup & Hsetup & H)].
  { left. exists (inl source). split; [reflexivity | reflexivity]. }
  destruct H as [(-> & _) | (job & ids & st1 & tr2 & -> & Hf & H)].
  { left. exists (inr err). count_fetches. rewrite (setup_no_fetch _ _ Hsetup).
    split; [reflexivity | discriminate]. }
  apply scanBuilds_inv in H.
  destruct H as (passed & rest & tail & _ & -> & _ & Hend).
  count_fetches. rewrite (setup_no_fetch _ _ Hsetup). cbn [app].
  unfold scan_end in Hend. destruct rest as [| id rest].
  { destruct Hend as (-> & _). left. exists (inr err).
    split; [reflexivity | discriminate]. }
  destruct Hend as [(e & -> & _) | [(b0 & _ & -> & _) | Hend]].
  { left. exists (inr err). split; [reflexivity | discriminate]. }
  { left. exists (inr err). split; [reflexivity | discriminate]. }
  destruct Hend as (b0 & st2 & t3 & _ & -> & Hf2 & H).
  apply followBuild_inv in H. destruct H as (_ & tw & Htw & H).
  rewrite Hf2, Hf in H. count_fetches.
  destruct H as [(-> & _) | [(b' & tw' & _ & -> & _)
                            | (b' & tw' & r & _ & -> & ->)]].
  - left. exists (inr err). rewrite (poll_no_fetch _ _ Htw).
    split; [reflexivity | discriminate].
  - left. exists (inr err). count_fetches. rewrite (poll_no_fetch _ _ Htw).
    split; [reflexivity | discriminate].
  - right. exists err, r. count_fetches. rewrite (poll_no_fetch _ _ Htw).
    split; reflexivity.
Qed.

(** X20.  The loop of lines 140-150 ends when the queue clears: from a
    world in which, polling every second, the queue cannot be read or the
    task is no longer in it after finitely many rounds, there is a number
    of rounds from which the loop returns, with any larger bound as
    well. *)
Theorem waitQueue_returns_once_the_task_left
        (taskId : Z) (w : World sys) :
  queue_clears taskId w ->
  exists n, forall fuel f,
      n <= fuel ->
      exists err st' tr,
        waitQueue sys fuel taskId {| world := w; force := f |}
        = (Ok err, st', tr).
Proof.
  intros H. destruct (waitQueue_ends sys taskId w H) as (n & Hn).
  exists n. intros fuel f Hfuel. specialize (Hn fuel f Hfuel).
  destruct (waitQueue sys fuel taskId {| world := w; force := f |})
    as [[out st'] tr] eqn:E.
  cbn [fst] in Hn. destruct (waitQueue_inv _ _ _ _ _ _ _ E) as (_ & _ & Hp).
  destruct out as [err | msg |];
    [exists err, st', tr; reflexivity
    | exfalso; exact (Hp msg eq_refl)
    | exfalso; exact (Hn eq_refl)].
Qed.

(** X21.  The loop of lines 162-172 ends when the build settles: from a
    world in which, polling every five seconds, the build stops running or
    cannot be fetched after finitely many rounds, there is a number of
    rounds from which the loop returns, with any larger bound as well. *)
Theorem waitBuild_returns_once_the_build_settles
        (job : Job sys) (number : Z) (b : Build sys) (w : World sys) :
  build_settles job number b w ->
  exists n, forall fuel f,
      n <= fuel ->
      exists last st' tr,
        waitBuild sys fuel job number b {| world := w; force := f |}
        = (Ok last, st', tr).
Proof.
  intros H. destruct (waitBuild_ends sys job number b w H) as (n & Hn).
  exists n. intros fuel f Hfuel. specialize (Hn fuel f Hfuel).
  destruct (waitBuild sys fuel job number b {| world := w; force := f |})
    as [[out st'] tr] eqn:E.
  cbn [fst] in Hn.
  destruct (waitBuild_inv _ _ _ _ _ _ _ _ _ E) as (_ & _ & Hp & _).
  destruct out as [last | msg |];
    [exists last, st', tr; reflexivity
    | exfalso; exact (Hp msg eq_refl)
    | exfalso; exact (Hn eq_refl)].
Qed.

End Fetches.

(** *** The log *)

Section Logs.
Variable sys : Sys.

Lemma logged_app (w : Writer) (a b : list (Event sys)) :
  logged w (a ++ b) = (logged w a ++ logged (writer_after w a) b)%list.
Proof.
  revert w. induction a as [| e a IH]; intros w; [reflexivity |].
  destruct e; cbn [app logged writer_after]; rewrite IH; reflexivity.
Qed.

Lemma steady (w : Writer) (tr : list (Event sys)) :
  forallb not_set_output tr = true ->
  writer_after w tr = w /\ Forall (fun l => fst l = w) (logged w tr).
Proof.
  induction tr as [| e tr IH]; intros H; [split; constructor |].
  cbn [forallb] in H. apply andb_true_iff in H. destruct H as [He H].
  destruct (IH H) as (Hw & Hl).
  destruct e; try discriminate; cbn [writer_after logged];
    (split; [exact Hw |]); try exact Hl.
  constructor; [reflexivity | exact Hl].
Qed.

Lemma loud_only {A} (c : Cmd sys A) : only not_set_output c -> loud c.
Proof.
  intros H st out st' tr Hrun. apply steady. exact (H _ _ _ _ Hrun).
Qed.

Lemma loud_bind {A B} (m : Cmd sys A) (k : A -> Cmd sys B) :
  only not_set_output m -> (forall a, loud (k a)) -> loud (bind m k).
Proof.
  intros Hm Hk st out st' tr H. apply bind_inv in H.
  destruct H as (o1 & s1 & t1 & H1 & H). pose proof (Hm _ _ _ _ H1) as Ht1.
  destruct (steady Stdout t1 Ht1) as (Hw & Hl).
  destruct o1 as [a | msg |].
  - destruct H as (t2 & H2 & ->). rewrite logged_app, Hw.
    apply Forall_app. split; [exact Hl | exact (Hk a _ _ _ _ H2)].
  - destruct H as (_ & _ & ->). exact Hl.
  - destruct H as (_ & _ & ->). exact Hl.
Qed.

Lemma logged_download (w : Writer) (url : string) (options : Options)
      (f : bool) (r : string + string) (rest : list (Event sys)) :
  logged w (download_events url options f r ++ rest)
  = logged Discard rest.
Proof. destruct r; reflexivity. Qed.

Lemma loud_Download (url : string) (options : Options) :
  loud (Download sys url options).
Proof.
  intros st out st' tr H. rewrite Download_run in H.
  destruct (cache_Download sys url options (force st) (world st)) as [r w].
  finished H. rewrite <- (app_nil_r (download_events _ _ _ _)).
  rewrite logged_download. constructor.
Qed.

Lemma queue_not_set_output (e : Event sys) :
  queue_event e = true -> not_set_output e = true.
Proof. destruct e; try discriminate; reflexivity. Qed.

Lemma poll_not_set_output (e : Event sys) :
  poll_event e = true -> not_set_output e = true.
Proof. destruct e; try discriminate; reflexivity. Qed.

Lemma loud_followBuild (fuel : nat) (job : Job sys) (number : Z)
      (b : Build sys) (binary : string) (options : Options) :
  loud (followBuild sys fuel job number b binary options).
Proof.
  unfold followBuild. apply loud_bind;
    [apply (only_waitBuild sys not_set_output poll_not_set_output) |].
  intros [b' | err]; [| apply loud_only, only_ret].
  apply loud_bind; [apply only_outside; reflexivity |].
  intros [|]; [apply loud_Download | apply loud_only, only_ret].
Qed.

Lemma loud_scanBuilds (fuel : nat) (job : Job sys)
      (commit binary : string) (options : Options) (ids : list JobBuild) :
  loud (scanBuilds sys fuel job commit binary options ids).
Proof.
  induction ids as [| id ids IH]; cbn [scanBuilds];
    [apply loud_only, only_ret |].
  apply loud_bind; [apply only_outside; reflexivity |].
  intros [b | err]; [| apply loud_only, only_ret].
  apply loud_bind; [apply only_inspect; reflexivity | intros params].
  apply loud_bind; [apply only_index_at | intros p0].
  destruct (String.eqb (Value p0) commit);
    [apply loud_followBuild | exact IH].
Qed.

(** The lines *)

Lemma queue_pinata_line (e : Event sys) :
  queue_event e = true -> pinata_line e = true.
Proof. destruct e; try discriminate; reflexivity. Qed.

Lemma lines_waitBuild (fuel : nat) (job : Job sys) (number : Z)
      (b : Build sys) :
  only pinata_line (waitBuild sys fuel job number b).
Proof.
  revert b. induction fuel as [| fuel IH]; intros b; cbn [waitBuild];
    unfold sleep; repeat only_step.
Qed.

Lemma lines_followBuild (fuel : nat) (job : Job sys) (number : Z)
      (b : Build sys) (binary : string) (options : Options) :
  only pinata_line (followBuild sys fuel job number b binary options).
Proof.
  pose proof lines_waitBuild.
  assert (forall url, only pinata_line (Download sys url options))
    by (intros url; apply only_Download; reflexivity).
  unfold followBuild. repeat only_step.
Qed.

Lemma lines_scanBuilds (fuel : nat) (job : Job sys)
      (commit binary : string) (options : Options) (ids : list JobBuild) :
  only pinata_line (scanBuilds sys fuel job commit binary options ids).
Proof.
  pose proof lines_followBuild.
  induction ids as [| id ids IH]; cbn [scanBuilds]; repeat only_step.
Qed.

Lemma lines_Pinata (fuel : nat)
      (jenkins user token bucket commit platform : string)
      (options : Options) :
  only pinata_line
       (Pinata sys fuel jenkins user token bucket commit platform options).
Proof.
  pose proof (only_waitQueue sys pinata_line queue_pinata_line).
  pose proof lines_scanBuilds.
  assert (forall url, only pinata_line (Download sys url options))
    by (intros url; apply only_Download; reflexivity).
  unfold Pinata. repeat only_step.
Qed.

Lemma logged_In (w0 w : Writer) (msg : string) (tr : list (Event sys)) :
  In (w, msg) (logged w0 tr) -> In (EvLogPrintln msg) tr.
Proof.
  revert w0. induction tr as [| e tr IH]; intros w0 H; [destruct H |].
  destruct e; cbn [logged] in H;
    try (right; exact (IH _ H)).
  destruct H as [E | H]; [injection E as _ <-; left; reflexivity |].
  right. exact (IH _ H).
Qed.

(** X22.  Whatever the writer of the log before the run, every line
    [Pinata] gives to [log.Println] is written with the log set to the
    standard output, and is one of [Trigger jenkins build],
    [Waiting for queue] and [Job is running, waiting...]. *)
Theorem Pinata_logs_to_the_standard_output
        (fuel : nat) (jenkins user token bucket commit platform : string)
        (options : Options) (st : State sys)
        (out : result (option string)) (st' : State sys)
        (tr : list (Event sys)) (w0 w : Writer) (msg : string) :
  Pinata sys fuel jenkins user token bucket commit platform options st
  = (out, st', tr) ->
  In (w, msg) (logged w0 tr) ->
  w = Stdout
  /\ (msg = "Trigger jenkins build" \/ msg = "Waiting for queue"
      \/ msg = "Job is running, waiting...").
Proof.
  intros H Hin. split.
  - revert Hin. unfold Pinata in H. rewrite bind_Download in H.
    destruct (cache_Download sys _ options (force st) (world st))
      as [[source | err] w1].
    { unprepend H. finished H. intros []. }
    cbn [error_of] in H. apply prepend_inv in H. destruct H as (t & H & ->).
    rewrite logged_download. rewrite bind_emit in H. unprepend H.
    cbn [app logged].
    revert H. generalize {| world := w1; force := force st |}. intros st1 H.
    assert (Hloud :
              loud (err <- outside sys (Init sys jenkins user token)
                                   (EvInit jenkins user token) ;;
                    match err with
                    | Some err => ret (Some err)
                    | None =>
                        j <- outside sys
                               (GetJob sys ("pinata-" ++ platform ++ "-iso"))
                               (EvGetJob ("pinata-" ++ platform ++ "-iso")) ;;
                        match j with
                        | inr err => ret (Some err)
                        | inl job =>
                            t <- outside sys
                                   (InvokeSimple sys job
                                                 [("COMMIT_ID", commit)])
                                   (EvInvokeSimple job
                                                   [("COMMIT_ID", commit)]) ;;
                            match t with
                            | inr err => ret (Some err)
                            | inl taskId =>
                                emit (EvLogPrintln "Waiting for queue") ;;;
                                q <- waitQueue sys fuel taskId ;;
                                match q with
                                | Some err => ret (Some err)
                                | None =>
                                    ids <- outside sys
                                             (GetAllBuildIds sys job)
                                             (EvGetAllBuildIds job) ;;
                                    match ids with
                                    | inr err => ret (Some err)
                                    | inl ids =>
                                        scanBuilds sys fuel job commit
                                          ("https://storage.googleapis.com/"
                                             ++ bucket ++ "/" ++ commit
                                             ++ "/docker-for-" ++ platform
                                             ++ ".iso.tgz")
                                          options ids
                                    end
                                end
                            end
                        end
                    end)).
    { apply loud_bind; [apply only_outside; reflexivity |].
      intros [err' |]; [apply loud_only, only_ret |].
      apply loud_bind; [apply only_outside; reflexivity |].
      intros [job | err']; [| apply loud_only, only_ret].
      apply loud_bind; [apply only_outside; reflexivity |].
      intros [taskId | err']; [| apply loud_only, only_ret].
      apply loud_bind; [apply only_emit; reflexivity | intros _].
      apply loud_bind;
        [apply (only_waitQueue sys not_set_output queue_not_set_output) |].
      intros [err' |]; [apply loud_only, only_ret |].
      apply loud_bind; [apply only_outside; reflexivity |].
      intros [ids | err']; [| apply loud_only, only_ret].
      apply loud_scanBuilds. }
    intros [E | Hin]; [injection E as <- _; reflexivity |].
    apply Hloud in H. rewrite Forall_forall in H.
    exact (H _ Hin).
  - apply logged_In in Hin. apply lines_Pinata in H.
    rewrite forallb_forall in H. specialize (H _ Hin).
    cbn [pinata_line] in H.
    apply orb_true_iff in H. destruct H as [H | H];
      [apply orb_true_iff in H; destruct H as [H | H] |];
      apply String.eqb_eq in H; auto.
Qed.

End Logs.

(** *** The standard output *)

Section Output.
Variable sys : Sys.

Lemma standard_output_app (w : Writer) (a b : list (Event sys)) :
  standard_output w (a ++ b)
  = (standard_output w a ++ standard_output (writer_after w a) b)%list.
Proof.
  revert w. induction a as [| e a IH]; intros w; [reflexivity |].
  destruct e; cbn [app standard_output writer_after]; try apply IH.
  - destruct w; cbn [app]; rewrite IH; reflexivity.
  - cbn [app]. rewrite IH. reflexivity.
Qed.

Lemma standard_output_log (w : Writer) (tr : list (Event sys)) :
  forallb not_print tr = true ->
  standard_output w tr
  = map Logged (map snd (filter on_stdout (logged w tr))).
Proof.
  revert w. induction tr as [| e tr IH]; intros w H; [reflexivity |].
  cbn [forallb] in H. apply andb_true_iff in H. destruct H as [He H].
  destruct e; try discriminate He; cbn [standard_output logged];
    try exact (IH _ H).
  destruct w; cbn [filter on_stdout fst map snd]; rewrite (IH _ H);
    reflexivity.
Qed.

Lemma logged_messages (w0 : Writer) (tr : list (Event sys)) :
  forallb pinata_line tr = true ->
  Forall pinata_message (map snd (filter on_stdout (logged w0 tr))).
Proof.
  intros H. apply Forall_forall. intros msg Hin.
  apply in_map_iff in Hin. destruct Hin as ([w msg'] & <- & Hin).
  apply filter_In in Hin. destruct Hin as (Hin & _).
  apply logged_In in Hin. rewrite forallb_forall in H.
  specialize (H _ Hin). cbn [pinata_line snd] in H. unfold pinata_message.
  apply orb_true_iff in H. destruct H as [H | H];
    [apply orb_true_iff in H; destruct H as [H | H] |];
    apply String.eqb_eq in H; auto.
Qed.

(** X18.  What a run of [Pinata] writes on the standard output, whatever
    the writer of the log before it: lines of the log, each one of
    [Trigger jenkins build], [Waiting for queue] and
    [Job is running, waiting...], and after them, exactly when the run
    returns [nil], one line of [fmt.Println], the last, with the path that
    the last cache fetch of the artifact gave.  A run that ends otherwise
    (an error, a panic, or the bound on the waits) writes lines of the log
    only. *)
Theorem Pinata_prints_the_path_iff_it_returns_nil
        (fuel : nat) (jenkins user token bucket commit platform : string)
        (options : Options) (st : State sys)
        (out : result (option string)) (st' : State sys)
        (tr : list (Event sys)) (w0 : Writer) :
  Pinata sys fuel jenkins user token bucket commit platform options st
  = (out, st', tr) ->
  exists msgs,
    Forall pinata_message msgs
    /\ ((out = Ok None
         /\ exists before source,
             tr = (before
                     ++ [EvCacheDownload (binary_of bucket commit platform)
                                         options (force st) (inl source);
                         EvPrintln source])%list
             /\ standard_output w0 tr
                = (map Logged msgs ++ [Printed source])%list)
        \/ (out <> Ok None /\ standard_output w0 tr = map Logged msgs)).
Proof.
  intros H.
  exists (map snd (filter on_stdout (logged w0 tr))).
  split; [apply logged_messages; exact (lines_Pinata _ _ _ _ _ _ _ _ _ _ _ _ _ H) |].
  pose proof (keeps_Pinata sys options (force st) fuel jenkins user token
                           bucket commit platform st out st' tr eq_refl H)
    as (_ & Hkeeps).
  apply announces_Pinata in H.
  destruct H as [(Ho & before & o & f & source & -> & Hb) | (Ho & Ht)].
  - left. split; [exact Ho |].
    apply Forall_app in Hkeeps. destruct Hkeeps as (_ & Hkeeps).
    apply Forall_inv in Hkeeps. cbn [fetch_with] in Hkeeps.
    destruct Hkeeps as (-> & ->).
    exists before, source. split; [reflexivity |].
    rewrite standard_output_app, logged_app.
    cbn [standard_output logged]. rewrite app_nil_r.
    rewrite (standard_output_log _ _ Hb). reflexivity.
  - right. split; [exact Ho |]. apply standard_output_log, Ht.
Qed.

End Output.


(** *** The theorems above, on the scripted systems *)

Lemma commands_refuse_missing_arguments_witness :
  List.length ["https://example.com/tool.zip"] < 2
  /\ CopyCmd Mock.warm ["https://example.com/tool.zip"] Mock.no_options
             (Mock.start _ false)
     = (Ok (Some "An url and a destination must be provided"),
        Mock.start _ false, []).
Proof.
  assert (H : List.length ["https://example.com/tool.zip"] < 2)
    by (cbn; lia).
  split; [exact H |].
  exact (proj1 (proj2 (commands_refuse_missing_arguments
                         Mock.warm ["https://example.com/tool.zip"]
                         Mock.no_options (Mock.start _ false))) H).
Defined.

Lemma ExtractCmd_pairs_the_arguments_witness :
  ExtractCmd Mock.warm
             ["https://example.com/tool.zip";
              "bin/a"; "/opt/a"; "bin/b"; "/opt/b"]
             Mock.no_options (Mock.start _ false)
  = ExtractFiles Mock.warm "https://example.com/tool.zip" Mock.no_options
                 [{| Source := "bin/a"; Destination := "/opt/a" |};
                  {| Source := "bin/b"; Destination := "/opt/b" |}]
                 (Mock.start _ false).
Proof.
  apply (ExtractCmd_pairs_the_arguments
           Mock.warm "https://example.com/tool.zip"
           ["bin/a"; "/opt/a"; "bin/b"; "/opt/b"]
           Mock.no_options (Mock.start _ false));
    [cbn; lia | reflexivity].
Defined.

Lemma ExtractCmd_panics_on_a_source_without_destination_witness :
  ExtractCmd Mock.warm
             ["https://example.com/tool.zip"; "bin/a"; "/opt/a"; "bin/b"]
             Mock.no_options (Mock.start _ false)
  = (Panic "runtime error: index out of range", Mock.start _ false, []).
Proof.
  apply (ExtractCmd_panics_on_a_source_without_destination
           Mock.warm "https://example.com/tool.zip"
           ["bin/a"; "/opt/a"; "bin/b"]
           Mock.no_options (Mock.start _ false));
    [cbn; lia | reflexivity].
Defined.

Lemma commands_stop_at_a_failed_fetch_witness :
  cache_Download (Mock.cold [] true) "https://example.com/tool.zip"
                 Mock.no_options false 0
  = (inr "not in the bucket", 1)
  /\ Copy (Mock.cold [] true) "https://example.com/tool.zip" Mock.no_options
          "-" (Mock.start _ false)
     = (Ok (Some "not in the bucket"),
        {| world := 1 : World (Mock.cold [] true); force := false |},
        [EvLogSetOutput Discard;
         EvCacheDownload "https://example.com/tool.zip" Mock.no_options false
                         (inr "not in the bucket")]).
Proof.
  split; [reflexivity |].
  exact (proj1 (proj2 (commands_stop_at_a_failed_fetch
                         (Mock.cold [] true) "https://example.com/tool.zip"
                         Mock.no_options (Mock.start _ false)
                         "not in the bucket" 1 eq_refl)) "-").
Defined.

Lemma Copy_copies_the_cached_file_witness :
  cache_Download Mock.warm "https://example.com/tool.zip" Mock.no_options
                 false 0
  = (inl "/cache/41f0", 1)
  /\ Copy Mock.warm "https://example.com/tool.zip" Mock.no_options
          "/opt/tool.zip" (Mock.start _ false)
     = (Ok None, {| world := 2 : World Mock.warm; force := false |},
        [EvCacheDownload "https://example.com/tool.zip" Mock.no_options false
                         (inl "/cache/41f0");
         EvLogPrintln "Copy https://example.com/tool.zip to /opt/tool.zip";
         EvCopy "/cache/41f0" "/opt/tool.zip" None]).
Proof.
  split; [reflexivity |].
  exact (Copy_copies_the_cached_file
           Mock.warm "https://example.com/tool.zip" Mock.no_options
           "/opt/tool.zip" (Mock.start _ false) "/cache/41f0" 1 eq_refl).
Defined.

Lemma Pinata_triggers_one_build_witness :
  snd (Mock.pinata [2]%Z true)
  = (firstn 6 (snd (Mock.pinata [2]%Z true))
       ++ EvInvokeSimple (sys := Mock.cold [2]%Z true) "pinata-mac-iso"
            [("COMMIT_ID", "abc")] (inl 7%Z)
       :: skipn 7 (snd (Mock.pinata [2]%Z true)))%list
  /\ forallb not_trigger (skipn 7 (snd (Mock.pinata [2]%Z true))) = true.
Proof.
  assert (H : snd (Mock.pinata [2]%Z true)
              = (firstn 6 (snd (Mock.pinata [2]%Z true))
                   ++ EvInvokeSimple (sys := Mock.cold [2]%Z true)
                        "pinata-mac-iso" [("COMMIT_ID", "abc")] (inl 7%Z)
                   :: skipn 7 (snd (Mock.pinata [2]%Z true)))%list)
    by (vm_compute; reflexivity).
  split; [exact H |].
  exact (proj2 (proj2 (Pinata_triggers_one_build
                         (Mock.cold [2]%Z true) 10 "http://ci" "user" "token"
                         "bucket" "abc" "mac" Mock.no_options _ _ _ _
                         _ _ _ _ _
                         (run_eta (Mock.pinata [2]%Z true)) H))).
Defined.

Lemma Pinata_stops_at_the_first_CI_error_witness :
  snd MockMore.jobless_run
  = (firstn 5 (snd MockMore.jobless_run)
       ++ [EvGetJob (sys := MockMore.jobless) "pinata-mac-iso"
                    (inr "no such job")])%list
  /\ fst (fst MockMore.jobless_run) = Ok (Some "no such job").
Proof.
  assert (H : snd MockMore.jobless_run
              = (firstn 5 (snd MockMore.jobless_run)
                   ++ [EvGetJob (sys := MockMore.jobless) "pinata-mac-iso"
                                (inr "no such job")])%list)
    by (vm_compute; reflexivity).
  split; [exact H |].
  exact (proj2 (Pinata_stops_at_the_first_CI_error
                  MockMore.jobless 10 "http://ci" "user" "token" "bucket"
                  "abc" "mac" Mock.no_options _ _ _ _ _ _ _ "no such job"
                  (run_eta MockMore.jobless_run) H eq_refl)).
Defined.

Lemma Pinata_prints_the_path_iff_it_returns_nil_witness :
  fst (fst (Mock.pinata [1; 2; 3]%Z true)) = Ok None
  /\ exists msgs source,
      Forall pinata_message msgs
      /\ standard_output Discard (snd (Mock.pinata [1; 2; 3]%Z true))
         = (map Logged msgs ++ [Printed source])%list.
Proof.
  assert (H : fst (fst (Mock.pinata [1; 2; 3]%Z true)) = Ok None)
    by (vm_compute; reflexivity).
  split; [exact H |].
  destruct (Pinata_prints_the_path_iff_it_returns_nil
              (Mock.cold [1; 2; 3]%Z true) 10 "http://ci" "user" "token"
              "bucket" "abc" "mac" Mock.no_options _ _ _ _ Discard
              (run_eta (Mock.pinata [1; 2; 3]%Z true)))
    as (msgs & Hmsgs & [(_ & before & source & _ & Hout) | (Hne & _)]).
  - exists msgs, source. split; [exact Hmsgs | exact Hout].
  - exfalso. exact (Hne H).
Defined.

Lemma Pinata_fetches_at_most_twice_witness :
  let fetch := EvCacheDownload (sys := Mock.cold [1; 2; 3]%Z true)
                               Mock.binary Mock.no_options false in
  (exists r,
      fetches (snd (Mock.pinata [1; 2; 3]%Z true)) = [fetch r]
      /\ forall source,
          r = inl source -> fst (fst (Mock.pinata [1; 2; 3]%Z true)) = Ok None)
  \/ (exists err r,
         fetches (snd (Mock.pinata [1; 2; 3]%Z true))
         = [fetch (inr err); fetch r]
         /\ fst (fst (Mock.pinata [1; 2; 3]%Z true)) = Ok (error_of r)).
Proof.
  exact (Pinata_fetches_at_most_twice
           (Mock.cold [1; 2; 3]%Z true) 10 "http://ci" "user" "token"
           "bucket" "abc" "mac" Mock.no_options _ _ _ _
           (run_eta (Mock.pinata [1; 2; 3]%Z true))).
Defined.

Lemma Pinata_logs_to_the_standard_output_witness :
  In (Stdout, "Job is running, waiting...")
     (logged Discard (snd (Mock.pinata [1; 2; 3]%Z true)))
  /\ Stdout = Stdout
  /\ ("Job is running, waiting..." = "Trigger jenkins build"
      \/ "Job is running, waiting..." = "Waiting for queue"
      \/ "Job is running, waiting..." = "Job is running, waiting...").
Proof.
  assert (H : In (Stdout, "Job is running, waiting...")
                 (logged Discard (snd (Mock.pinata [1; 2; 3]%Z true))))
    by among.
  split; [exact H |].
  exact (Pinata_logs_to_the_standard_output
           (Mock.cold [1; 2; 3]%Z true) 10 "http://ci" "user" "token"
           "bucket" "abc" "mac" Mock.no_options _ _ _ _ Discard Stdout _
           (run_eta (Mock.pinata [1; 2; 3]%Z true)) H).
Defined.

Lemma waitQueue_returns_once_the_task_left_witness :
  queue_clears (sys := Mock.cold [] true) 7 (5 : World (Mock.cold [] true))
  /\ exists n, forall fuel f,
      n <= fuel ->
      exists err st' tr,
        waitQueue (Mock.cold [] true) fuel 7
                  {| world := 5 : World (Mock.cold [] true); force := f |}
        = (Ok err, st', tr).
Proof.
  assert (H : queue_clears (sys := Mock.cold [] true) 7
                           (5 : World (Mock.cold [] true))).
  { apply (clears_later (sys := Mock.cold [] true) 7 5 [7%Z] 6 7%Z);
      [reflexivity | reflexivity |].
    apply (clears_now (sys := Mock.cold [] true) 7 7 [] 8); reflexivity. }
  split; [exact H |].
  exact (waitQueue_returns_once_the_task_left (Mock.cold [] true) 7 5 H).
Defined.

Lemma waitBuild_returns_once_the_build_settles_witness :
  build_settles (sys := Mock.cold [2]%Z true) "pinata-mac-iso" 2 2%Z
                (12 : World (Mock.cold [2]%Z true))
  /\ exists n, forall fuel f,
      n <= fuel ->
      exists last st' tr,
        waitBuild (Mock.cold [2]%Z true) fuel "pinata-mac-iso" 2 2%Z
                  {| world := 12 : World (Mock.cold [2]%Z true); force := f |}
        = (Ok last, st', tr).
Proof.
  assert (H : build_settles (sys := Mock.cold [2]%Z true) "pinata-mac-iso" 2
                            2%Z (12 : World (Mock.cold [2]%Z true))).
  { apply (settles_later (sys := Mock.cold [2]%Z true) "pinata-mac-iso" 2
                         2%Z 12 13 2%Z 15);
      [reflexivity | reflexivity |].
    apply (settles_now (sys := Mock.cold [2]%Z true) "pinata-mac-iso" 2
                       2%Z 15 16).
    reflexivity. }
  split; [exact H |].
  exact (waitBuild_returns_once_the_build_settles
           (Mock.cold [2]%Z true) "pinata-mac-iso" 2 2%Z 12 H).
Defined.

End mainExtras.
